(** * RAG starter kit: chunking, ingestion and retrieval

    A shallow embedding of [ingest.py], [app.py], [validate_setup.py] and
    the two [config.py] files, with the properties the specification states
    about them.

    Python values are modelled as follows.
    - [str] is a list of Unicode code points ([N]); [len] counts code
      points, as Python does.
    - [int] is [Z]; [float] is a binary64 primitive float, so comparisons
      and products round exactly as CPython's do, and the conversion of an
      integer that has no float raises as it does there.
    - [str.lower] depends on the Unicode tables of the interpreter and is a
      parameter [lower]; a property that needs its value on a given text
      assumes [lowers_ascii lower], its behaviour on ASCII text.
    - an exception is a value of [exn]; a call that may raise yields a
      [result]; code with effects (remote calls, the table, the UI) runs in
      the monad [M] over a [world] that holds the table and the trace of
      calls issued so far.
    - console output ([print]) changes neither control flow nor any returned
      value and is left out, except for the final report of [main]. *)

From Stdlib Require Import List ZArith NArith Bool Lia String Ascii Floats.
From Stdlib Require Import DecimalString Sorted.
Import ListNotations.

Set Warnings "-inexact-float".

Local Open Scope Z_scope.

(* ===================================================================== *)
(** ** Python strings and the built-ins the program calls *)
(* ===================================================================== *)

Module Py.

Definition char := N.
Definition str := list char.

(** Decoding of the UTF-8 bytes of a source literal into code points. *)
Fixpoint utf8_decode (bs : list N) : str :=
  match bs with
  | [] => []
  | b0 :: t0 =>
      if (b0 <? 128)%N then b0 :: utf8_decode t0
      else
        match t0 with
        | [] => [b0]
        | b1 :: t1 =>
            if (b0 <? 224)%N
            then ((b0 - 192) * 64 + (b1 - 128))%N :: utf8_decode t1
            else
              match t1 with
              | [] => [b0]
              | b2 :: t2 =>
                  if (b0 <? 240)%N
                  then ((b0 - 224) * 4096 + (b1 - 128) * 64 + (b2 - 128))%N
                         :: utf8_decode t2
                  else
                    match t2 with
                    | [] => [b0]
                    | b3 :: t3 =>
                        ((b0 - 240) * 262144 + (b1 - 128) * 4096
                         + (b2 - 128) * 64 + (b3 - 128))%N
                          :: utf8_decode t3
                    end
              end
        end
  end.

(** A string literal of the source. *)
Definition lit (s : string) : str :=
  utf8_decode (map N_of_ascii (list_ascii_of_string s)).

Definition NL : char := 10%N.      (* "\n" *)
Definition PERIOD : char := 46%N.  (* "." *)

(** [len(s)] *)
Definition len {A} (s : list A) : Z := Z.of_nat (List.length s).

(** Truth value of a sequence: [if s:] *)
Definition truthy {A} (s : list A) : bool :=
  match s with [] => false | _ :: _ => true end.

(** [s[:n]], for any integer [n]: a negative bound counts from the end. *)
Definition slice_to {A} (s : list A) (n : Z) : list A :=
  if n <? 0 then firstn (Z.to_nat (len s + n)) s
  else firstn (Z.to_nat n) s.

(** [str.isspace] on one character. *)
Definition isspace (c : char) : bool :=
  ((9 <=? c) && (c <=? 13) || (28 <=? c) && (c <=? 32)
   || (c =? 133) || (c =? 160) || (c =? 5760)
   || (8192 <=? c) && (c <=? 8202)
   || (c =? 8232) || (c =? 8233) || (c =? 8239) || (c =? 8287)
   || (c =? 12288))%N.

Fixpoint lstrip (s : str) : str :=
  match s with
  | [] => []
  | c :: s' => if isspace c then lstrip s' else s
  end.

Definition rstrip (s : str) : str := rev (lstrip (rev s)).

(** [s.strip()] *)
Definition strip (s : str) : str := rstrip (lstrip s).

(** [s.split("\n\n")]: non-overlapping separators, found left to right;
    [cur] holds the current piece, reversed. *)
Fixpoint split_nlnl (s : str) (cur : str) : list str :=
  match s with
  | [] => [rev cur]
  | c :: s' =>
      match s' with
      | [] => [rev (c :: cur)]
      | d :: s'' =>
          if ((c =? NL) && (d =? NL))%N
          then rev cur :: split_nlnl s'' []
          else split_nlnl s' (c :: cur)
      end
  end.

(** [s.rfind(c)] for a one-character needle: the highest index, or -1. *)
Fixpoint rfind_from (c : char) (s : str) (i last : Z) : Z :=
  match s with
  | [] => last
  | x :: s' => rfind_from c s' (i + 1) (if (x =? c)%N then i else last)
  end.

Definition rfind (c : char) (s : str) : Z := rfind_from c s 0 (-1).

Fixpoint startswith (p s : str) : bool :=
  match p, s with
  | [], _ => true
  | a :: p', b :: s' => (a =? b)%N && startswith p' s'
  | _ :: _, [] => false
  end.

(** [needle in hay] *)
Fixpoint contains (needle hay : str) : bool :=
  startswith needle hay
  || match hay with [] => false | _ :: hay' => contains needle hay' end.

(** [s.lower()] follows the case mappings of the Unicode tables of the
    interpreter; the program takes it from outside and it is a parameter
    [lower] of the functions below.  On a string of ASCII characters it is
    [ascii_lower]: the letters A to Z are folded, every other character is
    kept. *)
Definition lower_char (c : char) : char :=
  if ((65 <=? c) && (c <=? 90))%N then (c + 32)%N else c.

Definition ascii_lower (s : str) : str := map lower_char s.

(** [s.isascii()] *)
Definition isascii (s : str) : bool := forallb (fun c => (c <? 128)%N) s.

(** What the properties use of [str.lower]: its value on ASCII text. *)
Definition lowers_ascii (lower : str -> str) : Prop :=
  forall s : str, isascii s = true -> lower s = ascii_lower s.

Fixpoint str_eqb (a b : str) : bool :=
  match a, b with
  | [], [] => true
  | x :: a', y :: b' => (x =? y)%N && str_eqb a' b'
  | _, _ => false
  end.

(** [sep.join(parts)] *)
Fixpoint join (sep : str) (parts : list str) : str :=
  match parts with
  | [] => []
  | [p] => p
  | p :: rest => p ++ sep ++ join sep rest
  end.

(** Adjacent literals of the source that end in a newline escape, one
    per line. *)
Definition lines (l : list string) : str :=
  List.concat (map (fun s => lit s ++ [NL]) (removelast l)) ++ lit (last l EmptyString).

(** [str(n)] for an integer. *)
Definition str_of_int (n : Z) : str :=
  lit (NilZero.string_of_int (Z.to_int n)).

(** The conversion of an integer to a float, as in [n * 0.8]: the nearest
    binary64, ties to even.  [None] stands for the [OverflowError] ("int
    too large to convert to float") of an integer that rounds beyond the
    largest float. *)
Definition float_of_int (n : Z) : option float :=
  match binary_normalize prec emax n 0 false with
  | S754_infinity _ => None
  | x => Some (SF2Prim x)
  end.

(** [n > x] for an integer [n] and a float [x]: CPython compares the
    integer with the exact value of the float. *)
Definition int_gt_float (n : Z) (x : float) : bool :=
  match Prim2SF x with
  | S754_zero _ => 0 <? n
  | S754_infinity s => s
  | S754_nan => false
  | S754_finite s m e =>
      let v := if s then Z.neg m else Z.pos m in
      match e with
      | Z0 => v <? n
      | Z.pos p => v * 2 ^ Z.pos p <? n
      | Z.neg p => v <? n * 2 ^ Z.pos p
      end
  end.

End Py.

(* ===================================================================== *)
(** ** config.py and src/config.py *)
(* ===================================================================== *)

Module Config.
Import Py.

(** The variables of the process environment that the configuration
    reads, each already converted by the [int] or [float] call wrapped
    around [os.getenv]; [None] means the variable is not set. *)
Record environ := {
  env_EMBEDDING_MODEL : option str;
  env_LLM_MODEL : option str;
  env_LLM_TEMPERATURE : option float;
  env_LLM_MAX_TOKENS : option Z;
  env_MAX_CHUNK_SIZE : option Z;
  env_MINIMUM_SIMILARITY_THRESHOLD : option float;
  env_MAX_SOURCES : option Z;
  env_SUMMARY_TEMPERATURE : option float;
  env_SUMMARY_MAX_TOKENS : option Z;
  env_SUMMARY_PREVIEW_LENGTH : option Z
}.

(** No variable set. *)
Definition no_environ : environ :=
  Build_environ None None None None None None None None None None.

(** [os.getenv(name, default)], then the conversion. *)
Definition getenv {A} (v : option A) (default : A) : A :=
  match v with Some x => x | None => default end.

(** The module-level names of a configuration module. *)
Record config := {
  EMBEDDING_MODEL : str;
  LLM_MODEL : str;
  LLM_TEMPERATURE : float;
  LLM_MAX_TOKENS : Z;
  MAX_CHUNK_SIZE : Z;
  MINIMUM_SIMILARITY_THRESHOLD : float;
  MAX_SOURCES : Z;
  SUMMARY_TEMPERATURE : float;
  SUMMARY_MAX_TOKENS : Z;
  SUMMARY_PREVIEW_LENGTH : Z
}.

(** [config.py], the module that sits beside [ingest.py] and [app.py]
    and that their [from config import ...] resolves to. *)
Definition config_py (env : environ) : config := {|
  EMBEDDING_MODEL := getenv (env_EMBEDDING_MODEL env) (lit "text-embedding-3-small");
  LLM_MODEL := getenv (env_LLM_MODEL env) (lit "gpt-4o-mini");
  LLM_TEMPERATURE := getenv (env_LLM_TEMPERATURE env) 0.7%float;
  LLM_MAX_TOKENS := getenv (env_LLM_MAX_TOKENS env) 800;
  MAX_CHUNK_SIZE := getenv (env_MAX_CHUNK_SIZE env) 8000;
  MINIMUM_SIMILARITY_THRESHOLD :=
    getenv (env_MINIMUM_SIMILARITY_THRESHOLD env) 0.3%float;
  MAX_SOURCES := getenv (env_MAX_SOURCES env) 5;
  SUMMARY_TEMPERATURE := getenv (env_SUMMARY_TEMPERATURE env) 0.3%float;
  SUMMARY_MAX_TOKENS := getenv (env_SUMMARY_MAX_TOKENS env) 100;
  SUMMARY_PREVIEW_LENGTH := getenv (env_SUMMARY_PREVIEW_LENGTH env) 1000
|}.

(** [src/config.py], the copy inside the [src] directory. *)
Definition src_config_py (env : environ) : config := {|
  EMBEDDING_MODEL := getenv (env_EMBEDDING_MODEL env) (lit "text-embedding-3-small");
  LLM_MODEL := getenv (env_LLM_MODEL env) (lit "gpt-5-mini");
  LLM_TEMPERATURE := getenv (env_LLM_TEMPERATURE env) 0.7%float;
  LLM_MAX_TOKENS := getenv (env_LLM_MAX_TOKENS env) 800;
  MAX_CHUNK_SIZE := getenv (env_MAX_CHUNK_SIZE env) 5000;
  MINIMUM_SIMILARITY_THRESHOLD :=
    getenv (env_MINIMUM_SIMILARITY_THRESHOLD env) 0.3%float;
  MAX_SOURCES := getenv (env_MAX_SOURCES env) 5;
  SUMMARY_TEMPERATURE := getenv (env_SUMMARY_TEMPERATURE env) 0.3%float;
  SUMMARY_MAX_TOKENS := getenv (env_SUMMARY_MAX_TOKENS env) 100;
  SUMMARY_PREVIEW_LENGTH := getenv (env_SUMMARY_PREVIEW_LENGTH env) 1000
|}.

End Config.

(* ===================================================================== *)
(** ** Exceptions, the outside world and the monad of effects *)
(* ===================================================================== *)

Module Eff.
Import Py.

(** A raised exception, with [str(e)].  [ValueError] is told apart
    because [process_file] handles it separately; every other subclass
    of [Exception] is an [OtherError]. *)
Inductive exn :=
| ValueError (msg : str)
| OtherError (msg : str).

Definition str_of_exn (e : exn) : str :=
  match e with ValueError m => m | OtherError m => m end.

Inductive result (A : Type) :=
| Ok (a : A)
| Raise (e : exn).
Arguments Ok {A} a.
Arguments Raise {A} e.

(** The [metadata] column of a row. *)
Record metadata := {
  m_filename : str;
  m_chunk_size : Z;
  m_total_chunks : Z;
  m_ingested_at : str
}.

(** A row of the [site_pages] table, as [process_file] builds it. *)
Record row := {
  r_url : str;
  r_chunk_number : Z;
  r_title : str;
  r_summary : str;
  r_content : str;
  r_metadata : metadata;
  r_embedding : list float;
  r_source : str
}.

(** A candidate returned by [match_documents]: a dict whose keys may be
    missing ([None]), read with [doc.get(key, default)]. *)
Record doc := {
  d_url : option str;
  d_title : option str;
  d_summary : option str;
  d_content : option str;
  d_similarity : option float
}.

(** What the program does to the outside, in the order it does it. *)
Inductive event :=
| EmbeddingsCreate (model input : str)
| ChatCompletionsCreate (model system user : str)
                        (temperature : float) (max_tokens : Z)
| SelectUrlEq (url : str)
| SelectAll (column : str)
| Insert (data : row)
| RpcMatchDocuments (query_embedding : list float) (match_count : Z)
                    (similarity_threshold : float)
| OpenRead (name : str)
| AsyncOpenAI (api_key : option str)
| OpenAI (api_key : option str)
| CreateClient (supabase_url supabase_key : option str)
| SelectLimit (columns : str) (count : Z)
| ModelsList
| Sleep (seconds : float)
| StError (msg : str)
| StWarning (msg : str)
| Report (successful failed total : Z).

(** The table and the history of calls. *)
Record world := {
  site_pages : list row;
  trace : list event
}.

(** The collaborators that the program only consumes.  Each answer may
    depend on everything that happened before ([list event]). *)
Record remote := {
  (** [openai_client.embeddings.create(model, input)], then
      [response.data[0].embedding] *)
  embeddings_create : list event -> str -> str -> result (list float);
  (** [openai_client.chat.completions.create(...)], then
      [response.choices[0].message.content] *)
  chat_completions_create :
    list event -> str -> str -> str -> float -> Z -> result str;
  (** a failure of the next request to the table (network, permission,
      missing relation), if any *)
  table_fault : list event -> option exn;
  (** [supabase.rpc("match_documents", {...}).execute()], then [.data] *)
  match_documents :
    list event -> list row -> list float -> Z -> float -> result (list doc);
  (** a failure of the next construction of a client ([AsyncOpenAI],
      [OpenAI], [create_client]), if any *)
  client_fault : list event -> option exn;
  (** a failure of the next [client.models.list()], if any *)
  models_list_fault : list event -> option exn;
  (** [open(path).read()] *)
  read_text : list event -> str -> result str;
  (** [datetime.now(timezone.utc).isoformat()] *)
  utcnow_isoformat : list event -> str
}.

Definition M (A : Type) : Type := world -> result A * world.

Definition ret {A} (a : A) : M A := fun w => (Ok a, w).

Definition raise {A} (e : exn) : M A := fun w => (Raise e, w).

(** A computation without effect that may raise. *)
Definition lift {A} (r : result A) : M A := fun w => (r, w).

Definition bind {A B} (m : M A) (k : A -> M B) : M B :=
  fun w =>
    match m w with
    | (Ok a, w') => k a w'
    | (Raise e, w') => (Raise e, w')
    end.

(** [try: m  except Exception as e: h e] *)
Definition try_except {A} (m : M A) (h : exn -> M A) : M A :=
  fun w =>
    match m w with
    | (Ok a, w') => (Ok a, w')
    | (Raise e, w') => h e w'
    end.

Definition emit (ev : event) : M unit :=
  fun w => (Ok tt, {| site_pages := site_pages w; trace := trace w ++ [ev] |}).

(** A request whose answer [f] is computed from the history before it. *)
Definition request {A} (ev : event) (f : world -> result A) : M A :=
  fun w => (f w, {| site_pages := site_pages w; trace := trace w ++ [ev] |}).

(** [await asyncio.gather(a, b)]: both coroutines are started, [a] first,
    and joined; the exception of one is raised after both have run. *)
Definition gather {A B} (a : M A) (b : M B) : M (A * B) :=
  fun w =>
    let (ra, w1) := a w in
    let (rb, w2) := b w1 in
    match ra, rb with
    | Ok x, Ok y => (Ok (x, y), w2)
    | Raise e, _ => (Raise e, w2)
    | Ok _, Raise e => (Raise e, w2)
    end.

Declare Scope eff_scope.
Delimit Scope eff_scope with eff.
Notation "x <- m ;; k" := (bind m (fun x => k))
  (at level 61, m at next level, right associativity) : eff_scope.
Notation "m ;;; k" := (bind m (fun _ => k))
  (at level 61, right associativity) : eff_scope.

End Eff.

(* ===================================================================== *)
(** ** validate_setup.py *)
(* ===================================================================== *)

Module ValidateSetup.
Import Py Eff.
Local Open Scope eff_scope.

(** [required_vars], in the order of the dict. *)
Definition required_vars : list (string * string) := [
  ("SUPABASE_URL",
   "Get this from Supabase Dashboard → Settings → API → Project URL");
  ("SUPABASE_SERVICE_KEY",
   "Get this from Supabase Dashboard → Settings → API → Service Role Key (not anon key!)");
  ("OPENAI_API_KEY",
   "Get this from https://platform.openai.com/api-keys")
]%string.

(** The body of the loop for one variable: the errors it appends. [value]
    is [os.getenv(var)]; [not value] holds for [None] and for the empty
    string. *)
Definition check (var help_text : string) (value : option str) : list str :=
  let value := match value with Some v => v | None => [] end in
  if negb (truthy value) then
    [lit "❌ Missing " ++ lit var ++ [NL] ++ lit "   💡 " ++ lit help_text]
  else if String.eqb var "SUPABASE_URL"
          && negb (startswith (lit "https://") value) then
    [lines ["❌ Invalid SUPABASE_URL: Should start with 'https://'";
            "   💡 Current value: "]%string ++ slice_to value 50 ++ lit "..."]
  else if String.eqb var "SUPABASE_SERVICE_KEY"
          && negb (startswith (lit "eyJ") value) then
    [lines ["❌ Invalid SUPABASE_SERVICE_KEY: Should start with 'eyJ' (JWT token)";
            "   💡 You might be using the anon key instead of service role key"]%string]
  else if String.eqb var "OPENAI_API_KEY"
          && negb (startswith (lit "sk-") value) then
    [lines ["❌ Invalid OPENAI_API_KEY: Should start with 'sk-'";
            "   💡 Current value: "]%string ++ slice_to value 10 ++ lit "..."]
  else [].

(** [getenv] is [os.getenv]. *)
Definition validate_env_vars (getenv : string -> option str) : bool * list str :=
  let errors :=
    flat_map (fun entry => check (fst entry) (snd entry) (getenv (fst entry)))
             required_vars in
  (len errors =? 0, errors).

(** A variable is set and starts with its prefix. *)
Definition set_with_prefix (getenv : string -> option str) (var prefix : string)
  : Prop :=
  exists v : str, getenv var = Some v /\ startswith (lit prefix) v = true.

Section Connections.

(** [str.lower] *)
Variable lower : str -> str.
Variable R : remote.
(** [os.getenv] *)
Variable getenv : string -> option str.

(** [not value], for the value of a variable: not set, or empty. *)
Definition unset (value : option str) : bool :=
  match value with Some v => negb (truthy v) | None => true end.

(** The construction of a client, which may raise. *)
Definition construct (ev : event) : M unit :=
  request ev (fun w => match client_fault R (trace w) with
                       | Some e => Raise e
                       | None => Ok tt
                       end).

(** [create_client(url, key)] *)
Definition create_client (url key : option str) : M unit :=
  construct (CreateClient url key).

(** [client.table("site_pages").select(columns).limit(count).execute()];
    the rows are not looked at. *)
Definition select_limit (columns : str) (count : Z) : M unit :=
  request (SelectLimit columns count)
          (fun w => match table_fault R (trace w) with
                    | Some e => Raise e
                    | None => Ok tt
                    end).

Definition required_columns : list string :=
  ["id"; "url"; "chunk_number"; "title"; "summary"; "content"; "metadata";
   "embedding"; "source"]%string.

(** The pair [(is_valid, error_message)]. *)
Definition validate_supabase_connection : M (bool * option str) :=
  try_except
    (let url := getenv "SUPABASE_URL" in
     let key := getenv "SUPABASE_SERVICE_KEY" in
     if unset url || unset key then
       ret (false,
            Some (lit "Supabase credentials not set (run validate_env_vars first)"))
     else
       create_client url key;;;
       select_limit (lit "id") 1;;;
       columns_missing <-
         try_except
           (select_limit (join (lit ",") (map lit required_columns)) 1;;;
            ret false)
           (fun col_error =>
              let error_msg := lower (str_of_exn col_error) in
              (* any other error is passed over: "might be empty table" *)
              ret (contains (lit "column") error_msg
                   && contains (lit "does not exist") error_msg));;
       if columns_missing : bool then
         ret (false, Some (lines [
           "❌ Table 'site_pages' is missing required columns";
           "💡 See Step 1.2 Schema in the paid Substack guide to set up the database schema correctly."]%string))
       else ret (true, None))
    (fun e =>
       let error_msg := str_of_exn e in
       if contains (lit "relation") (lower error_msg)
          && contains (lit "does not exist") (lower error_msg) then
         ret (false, Some (lines [
           "❌ Table 'site_pages' does not exist in Supabase";
           "💡 See Step 1.2 Schema in the paid Substack guide to set up the database schema."]%string))
       else if contains (lit "permission denied") (lower error_msg)
               || contains (lit "row-level security") (lower error_msg) then
         ret (false, Some (lines [
           "❌ Permission denied accessing Supabase table";
           "💡 You might be using the anon key instead of service role key";
           "   Get the Service Role Key from: Settings → API → Service Role Key"]%string))
       else if contains (lit "invalid api key") (lower error_msg)
               || contains (lit "unauthorized") (lower error_msg) then
         ret (false, Some (lines [
           "❌ Invalid Supabase credentials";
           "💡 Check your SUPABASE_URL and SUPABASE_SERVICE_KEY in .env file";
           "   Make sure you're using the Service Role Key (starts with 'eyJ'), not anon key"]%string))
       else if contains (lit "connection") (lower error_msg)
               || contains (lit "timeout") (lower error_msg) then
         ret (false, Some (lines [
           "❌ Cannot connect to Supabase";
           "💡 Check your internet connection and SUPABASE_URL";
           "   Verify your Supabase project is active (free tier pauses after inactivity)"]%string))
       else
         ret (false, Some (
           lit "❌ Supabase connection error: " ++ error_msg ++ [NL]
           ++ lit "💡 Check your credentials and network connection"))).

(** The pair [(is_valid, error_message)]. *)
Definition validate_openai_connection : M (bool * option str) :=
  try_except
    (let key := getenv "OPENAI_API_KEY" in
     if unset key then ret (false, Some (lit "OpenAI API key not set"))
     else
       construct (OpenAI key);;;
       request ModelsList
               (fun w => match models_list_fault R (trace w) with
                         | Some e => Raise e
                         | None => Ok tt
                         end);;;
       ret (true, None))
    (fun e =>
       let error_msg := str_of_exn e in
       if contains (lit "invalid_api_key") (lower error_msg)
          || contains (lit "incorrect api key") (lower error_msg) then
         ret (false, Some (lines [
           "❌ Invalid OpenAI API key";
           "💡 Get a new key from https://platform.openai.com/api-keys";
           "   Make sure the key starts with 'sk-'"]%string))
       else if contains (lit "insufficient_quota") (lower error_msg)
               || contains (lit "billing") (lower error_msg) then
         ret (false, Some (lines [
           "❌ OpenAI account has insufficient quota or billing issue";
           "💡 Add a payment method at https://platform.openai.com/account/billing";
           "   Free tier gives $5 credit to start"]%string))
       else if contains (lit "rate_limit") (lower error_msg) then
         ret (false, Some (lines [
           "❌ OpenAI rate limit exceeded";
           "💡 Wait a few minutes and try again";
           "   Consider upgrading your OpenAI plan for higher limits"]%string))
       else if contains (lit "connection") (lower error_msg)
               || contains (lit "timeout") (lower error_msg) then
         ret (false, Some (lines [
           "❌ Cannot connect to OpenAI API";
           "💡 Check your internet connection";
           "   OpenAI API might be experiencing issues (check status.openai.com)"]%string))
       else
         ret (false, Some (
           lit "❌ OpenAI API error: " ++ error_msg ++ [NL]
           ++ lit "💡 Check your API key and account status"))).

End Connections.

End ValidateSetup.

(* ===================================================================== *)
(** ** ingest.py *)
(* ===================================================================== *)

Module Ingest.
Import Py Config Eff ValidateSetup.
Local Open Scope eff_scope.

(** The two module globals [openai_client] and [supabase]: [false] while
    they are still [None]. *)
Record clients := {
  openai_client : bool;
  supabase : bool
}.

Section Ingestion.

(** The names imported from [config]. *)
Variable cfg : config.
(** [str.lower] *)
Variable lower : str -> str.
Variable R : remote.
Variable G : clients.
(** [extract_title_from_markdown(content, filename)]: a pure function of
    its two arguments; only the stored title depends on it. *)
Variable extract_title_from_markdown : str -> str -> str.

(** *** chunk_text *)

(** One turn of the loop over the paragraphs, on the pair
    [(chunks, current_chunk)]. *)
Definition pack_step (max_chunk_size : Z) (st : list str * str)
           (paragraph : str) : list str * str :=
  let (chunks, current_chunk) := st in
  if len current_chunk + len paragraph + 2 >? max_chunk_size then
    (if truthy current_chunk then chunks ++ [strip current_chunk] else chunks,
     paragraph)
  else
    (chunks,
     if truthy current_chunk then current_chunk ++ [NL; NL] ++ paragraph
     else paragraph).

(** The loop, then "Add final chunk". *)
Definition pack (max_chunk_size : Z) (paragraphs : list str) : list str :=
  let (chunks, current_chunk) :=
    fold_left (pack_step max_chunk_size) paragraphs ([], []) in
  if truthy current_chunk then chunks ++ [strip current_chunk] else chunks.

(** The body of the second loop, for one chunk: what is appended to
    [final_chunks].  The product [max_chunk_size * 0.8] raises an
    [OverflowError] when the integer has no float. *)
Definition truncate (max_chunk_size : Z) (chunk : str) : result str :=
  if len chunk >? max_chunk_size then
    let truncated := slice_to chunk max_chunk_size in
    let last_period := rfind PERIOD truncated in
    match float_of_int max_chunk_size with
    | None => Raise (OtherError (lit "int too large to convert to float"))
    | Some size =>
        if int_gt_float last_period (size * 0.8)%float
        then Ok (slice_to truncated (last_period + 1))
        else Ok truncated
    end
  else Ok chunk.

(** The second loop: [final_chunks]. *)
Fixpoint truncate_all (max_chunk_size : Z) (chunks : list str)
  : result (list str) :=
  match chunks with
  | [] => Ok []
  | chunk :: chunks' =>
      match truncate max_chunk_size chunk with
      | Raise e => Raise e
      | Ok truncated =>
          match truncate_all max_chunk_size chunks' with
          | Raise e => Raise e
          | Ok final_chunks => Ok (truncated :: final_chunks)
          end
      end
  end.

Definition chunk_text (text : str) (max_chunk_size : option Z)
  : result (list str) :=
  let max_chunk_size :=
    match max_chunk_size with
    | None => MAX_CHUNK_SIZE cfg
    | Some n => n
    end in
  if len text <=? max_chunk_size then Ok [text]
  else
    let chunks := pack max_chunk_size (split_nlnl text []) in
    match truncate_all max_chunk_size chunks with
    | Raise e => Raise e
    | Ok final_chunks =>
        Ok (if truthy final_chunks then final_chunks
            else [slice_to text max_chunk_size])
    end.

(** *** get_embedding *)

(** The handler of [get_embedding]: the [ValueError] it raises for the
    exception [e] of the remote call. *)
Definition embedding_error (e : exn) : exn :=
  let error_msg := lower (str_of_exn e) in
  if contains (lit "invalid_api_key") error_msg
     || contains (lit "incorrect api key") error_msg then
    ValueError (lines [
      "❌ Invalid OpenAI API key";
      "💡 Get a new key from https://platform.openai.com/api-keys";
      "   Make sure it starts with 'sk-' and is set in .env file"]%string)
  else if contains (lit "insufficient_quota") error_msg
          || contains (lit "billing") error_msg then
    ValueError (lines [
      "❌ OpenAI account has insufficient quota";
      "💡 Add a payment method at https://platform.openai.com/account/billing";
      "   Free tier gives $5 credit to start"]%string)
  else if contains (lit "rate_limit") error_msg then
    ValueError (lines [
      "❌ OpenAI rate limit exceeded";
      "💡 Wait a few minutes and try again";
      "   The script will continue with remaining files"]%string)
  else if contains (lit "model") error_msg
          && contains (lit "not found") error_msg then
    ValueError (
      lit "❌ Embedding model '" ++ EMBEDDING_MODEL cfg ++ lines [
        "' not found";
        "💡 Check config.py and verify the model name is correct"]%string)
  else
    ValueError (
      lit "❌ Error getting embedding: " ++ str_of_exn e ++ [NL]
      ++ lit "💡 Check your OpenAI API key and account status").

Definition get_embedding (text : str) : M (list float) :=
  if negb (openai_client G) then
    raise (ValueError
             (lit "OpenAI client not initialized. Check your OPENAI_API_KEY."))
  else
    try_except
      (request (EmbeddingsCreate (EMBEDDING_MODEL cfg) text)
               (fun w => embeddings_create R (trace w) (EMBEDDING_MODEL cfg) text))
      (fun e => raise (embedding_error e)).

(** *** get_summary *)

Definition summary_system_prompt : str := [NL] ++ lines [
  "    Create a concise summary of this content in 1-2 sentences.";
  "    Focus on the main points and key information.";
  "    "]%string.

(** [preview], then the content of the user message. *)
Definition summary_user_message (text : str) : str :=
  let preview :=
    if len text >? SUMMARY_PREVIEW_LENGTH cfg
    then slice_to text (SUMMARY_PREVIEW_LENGTH cfg) ++ lit "..."
    else text in
  lit "Content:" ++ [NL] ++ preview.

Definition get_summary (text : str) : M str :=
  let system_prompt := summary_system_prompt in
  if negb (openai_client G) then
    ret (lit "Content summary unavailable (OpenAI client not initialized)")
  else
    try_except
      (content <- request
         (ChatCompletionsCreate (LLM_MODEL cfg) system_prompt
            (summary_user_message text)
            (SUMMARY_TEMPERATURE cfg) (SUMMARY_MAX_TOKENS cfg))
         (fun w => chat_completions_create R (trace w) (LLM_MODEL cfg)
                     system_prompt (summary_user_message text)
                     (SUMMARY_TEMPERATURE cfg) (SUMMARY_MAX_TOKENS cfg));;
       ret (strip content))
      (fun e =>
         (* the handler only prints, for two kinds of message *)
         ret (lit "Content summary unavailable")).

(** *** The [site_pages] table *)

(** [supabase.table("site_pages").select("url").eq("url", url).execute()],
    then [.data]. *)
Definition select_url_eq (url : str) : M (list row) :=
  request (SelectUrlEq url)
          (fun w =>
             match table_fault R (trace w) with
             | Some e => Raise e
             | None => Ok (filter (fun r => str_eqb (r_url r) url) (site_pages w))
             end).

(** [supabase.table("site_pages").select(column).execute()], then [.data]. *)
Definition select_all (column : str) : M (list row) :=
  request (SelectAll column)
          (fun w =>
             match table_fault R (trace w) with
             | Some e => Raise e
             | None => Ok (site_pages w)
             end).

Definition same_key (a b : row) : bool :=
  str_eqb (r_url a) (r_url b) && (r_chunk_number a =? r_chunk_number b).

(** Modelled from the spec: the schema of [site_pages] is not part of the
    repository; the table rejects, distinguishably, a second row with the
    same (document identity, chunk index).

    [supabase.table("site_pages").insert(data).execute()] *)
Definition insert (data : row) : M unit :=
  fun w =>
    let tr := trace w ++ [Insert data] in
    match table_fault R (trace w) with
    | Some e => (Raise e, {| site_pages := site_pages w; trace := tr |})
    | None =>
        if existsb (same_key data) (site_pages w) then
          (Raise (OtherError
                    (lit "duplicate key value violates unique constraint")),
           {| site_pages := site_pages w; trace := tr |})
        else
          (Ok tt, {| site_pages := site_pages w ++ [data]; trace := tr |})
    end.

Definition utcnow : M str :=
  fun w => (Ok (utcnow_isoformat R (trace w)), w).

(** *** process_file *)

(** The dict [data] of one chunk. *)
Definition chunk_data (name url title source : str) (total_chunks : Z)
           (chunk_num : Z) (chunk : str) (embedding : list float)
           (summary ingested_at : str) : row := {|
  r_url := url;
  r_chunk_number := chunk_num;
  r_title :=
    if chunk_num =? 0 then title
    else title ++ lit " - Part " ++ str_of_int (chunk_num + 1);
  r_summary := summary;
  r_content := chunk;
  r_metadata := {|
    m_filename := name;
    m_chunk_size := len chunk;
    m_total_chunks := total_chunks;
    m_ingested_at := ingested_at |};
  r_embedding := embedding;
  r_source := source |}.

(** The handler around the insert: a duplicate counts as a success, any
    other failure becomes a [ValueError]. *)
Definition insert_failed (successful : Z) (e : exn) : M Z :=
  let error_msg := lower (str_of_exn e) in
  if contains (lit "duplicate key") error_msg
     || contains (lit "unique constraint") error_msg then
    ret (successful + 1)
  else if contains (lit "permission denied") error_msg then
    raise (ValueError (lines [
      "❌ Permission denied inserting into Supabase";
      "💡 Make sure you're using the Service Role Key (not anon key)";
      "   Get it from: Settings → API → Service Role Key"]%string))
  else
    raise (ValueError (
      lit "❌ Error inserting chunk: " ++ str_of_exn e ++ [NL]
      ++ lit "💡 Check your Supabase credentials and table structure")).

(** The body of the loop over [enumerate(chunks)], for one chunk;
    [successful] is the counter before the turn and the result is the
    counter after it.  A [ValueError] leaves the loop; any other
    exception is the [continue]. *)
Definition process_chunk (name url title source : str) (total_chunks : Z)
           (chunk_num : Z) (chunk : str) (successful : Z) : M Z :=
  try_except
    (p <- gather (get_embedding chunk) (get_summary chunk);;
     let (embedding, summary) := p in
     ingested_at <- utcnow;;
     let data := chunk_data name url title source total_chunks
                            chunk_num chunk embedding summary ingested_at in
     successful <-
       try_except (insert data;;; ret (successful + 1))
                  (insert_failed successful);;
     emit (Sleep 0.1%float);;;
     ret successful)
    (fun e =>
       match e with
       | ValueError _ => raise e
       | OtherError _ => ret successful
       end).

Fixpoint process_chunks (name url title source : str) (total_chunks : Z)
         (chunks : list str) (chunk_num : Z) (successful : Z) : M Z :=
  match chunks with
  | [] => ret successful
  | chunk :: chunks' =>
      successful <- process_chunk name url title source total_chunks
                                  chunk_num chunk successful;;
      process_chunks name url title source total_chunks
                     chunks' (chunk_num + 1) successful
  end.

(** [file_path] is given by [file_path.name]. *)
Definition process_file (name : str) : M bool :=
  try_except
    (content <- request (OpenRead name) (fun w => read_text R (trace w) name);;
     if negb (truthy (strip content)) then ret false
     else
       let title := extract_title_from_markdown content name in
       let url := lit "file://" ++ name in
       let source := lit "markdown_file" in
       if negb (supabase G) then
         raise (ValueError (lit
           "Supabase client not initialized. Check your SUPABASE_URL and SUPABASE_SERVICE_KEY."))
       else
         existing <-
           try_except
             (select_url_eq url)
             (fun e =>
                let error_msg := lower (str_of_exn e) in
                if contains (lit "relation") error_msg
                   && contains (lit "does not exist") error_msg then
                  raise (ValueError (lines [
                    "❌ Table 'site_pages' does not exist in Supabase";
                    "💡 See Step 1.2 Schema in the paid Substack guide to set up the database schema."]%string))
                else if contains (lit "permission denied") error_msg
                        || contains (lit "row-level security") error_msg then
                  raise (ValueError (lines [
                    "❌ Permission denied accessing Supabase table";
                    "💡 You might be using the anon key instead of service role key";
                    "   Get the Service Role Key from: Settings → API → Service Role Key"]%string))
                else
                  raise (ValueError (
                    lit "❌ Error checking existing documents: " ++ str_of_exn e
                    ++ [NL]
                    ++ lit "💡 Check your Supabase credentials and table setup")));;
         if truthy existing then ret true
         else
           chunks <- lift (chunk_text content None);;
           successful <- process_chunks name url title source (len chunks)
                                        chunks 0 0;;
           ret (successful >? 0))
    (fun e => ret false).

(** *** main *)

(** The loop of [main] over the files, on the two counters. *)
Fixpoint process_files (markdown_files : list str) (successful failed : Z)
  : M (Z * Z) :=
  match markdown_files with
  | [] => ret (successful, failed)
  | file_path :: rest =>
      ok <- process_file file_path;;
      if ok : bool then process_files rest (successful + 1) failed
      else process_files rest successful (failed + 1)
  end.

(** [data_dir] is [None] when [./data] does not exist, and otherwise the
    names that the two [glob] calls list. *)
Definition main (data_dir : option (list str)) : M unit :=
  match data_dir with
  | None => ret tt
  | Some markdown_files =>
      if negb (truthy markdown_files) then ret tt
      else
        counts <- process_files markdown_files 0 0;;
        emit (Report (fst counts) (snd counts) (len markdown_files));;;
        try_except
          (if negb (supabase G) then
             raise (OtherError (lit "'NoneType' object has no attribute 'table'"))
           else
             select_all (lit "id");;;
             select_all (lit "url");;;
             ret tt)
          (fun e => ret tt)
  end.

End Ingestion.

(** *** The script ([if __name__ == "__main__":]) *)

Section Script.

Variable cfg : config.
Variable lower : str -> str.
Variable R : remote.
Variable extract_title_from_markdown : str -> str -> str.
(** [os.getenv] *)
Variable getenv : string -> option str.

(** The script up to [asyncio.run]: the validation of the environment, the
    construction of the two clients and the two connection checks. [false]
    stands for [sys.exit(1)]. *)
Definition setup_checks : M bool :=
  let (env_valid, env_errors) := validate_env_vars getenv in
  if negb env_valid then ret false
  else
    created <-
      try_except
        (construct R (AsyncOpenAI (getenv "OPENAI_API_KEY"));;;
         create_client R (getenv "SUPABASE_URL") (getenv "SUPABASE_SERVICE_KEY");;;
         ret true)
        (fun e => ret false);;
    if negb created then ret false
    else
      supabase_checked <- validate_supabase_connection lower R getenv;;
      if negb (fst supabase_checked) then ret false
      else
        openai_checked <- validate_openai_connection lower R getenv;;
        if negb (fst openai_checked) then ret false
        else ret true.

(** The exit status of the process (an interruption from the keyboard is
    left out). *)
Definition script (data_dir : option (list str)) : world -> Z * world :=
  fun w =>
    match setup_checks w with
    | (Ok true, w1) =>
        let G := {| openai_client := true; supabase := true |} in
        match main cfg lower R G extract_title_from_markdown data_dir w1 with
        | (Ok _, w') => (0, w')
        | (Raise (ValueError _), w') => (1, w')
        | (Raise (OtherError _), w') => (1, w')
        end
    | (Ok false, w1) => (1, w1)
    | (Raise _, w1) => (1, w1)
    end.

End Script.

(** The requests of the setup: constructions of clients and probes of the
    two services. *)
Definition setup_request (ev : event) : bool :=
  match ev with
  | AsyncOpenAI _ | OpenAI _ | CreateClient _ _ | SelectLimit _ _ | ModelsList => true
  | _ => false
  end.

(** The request that [get_summary] issues for [text]. *)
Definition summary_request (cfg : config) (text : str) : event :=
  ChatCompletionsCreate (LLM_MODEL cfg) summary_system_prompt
                        (summary_user_message cfg text)
                        (SUMMARY_TEMPERATURE cfg) (SUMMARY_MAX_TOKENS cfg).

(** The world once [process_file] has read the file [name] and looked its
    url up. *)
Definition looked_up (name : str) (w : world) : world :=
  {| site_pages := site_pages w;
     trace := (trace w ++ [OpenRead name])
                ++ [SelectUrlEq (lit "file://" ++ name)] |}.

(** A row of the table carries the identity [url]. *)
Definition has_url (url : str) (rows : list row) : Prop :=
  exists r : row, In r rows /\ r_url r = url.

End Ingest.

(* ===================================================================== *)
(** ** app.py *)
(* ===================================================================== *)

Module App.
Import Py Config Eff.
Local Open Scope eff_scope.

Section Chat.

Variable cfg : config.
(** [str.lower] *)
Variable lower : str -> str.
Variable R : remote.

(** *** get_embedding *)

(** What the handler of [get_embedding] shows for the exception [e]. *)
Definition embedding_diagnostic (e : exn) : event :=
  let error_msg := lower (str_of_exn e) in
  if contains (lit "invalid_api_key") error_msg then
    StError (lines [
      "❌ **Invalid OpenAI API key**";
      "";
      "Get a new key from https://platform.openai.com/api-keys"]%string)
  else if contains (lit "insufficient_quota") error_msg
          || contains (lit "billing") error_msg then
    StError (lines [
      "❌ **OpenAI account has insufficient quota**";
      "";
      "Add a payment method at https://platform.openai.com/account/billing"]%string)
  else if contains (lit "rate_limit") error_msg then
    StWarning (lines [
      "⚠️ **OpenAI rate limit exceeded**";
      "";
      "Wait a few minutes and try again"]%string)
  else
    StError (lit "❌ **Error generating embedding:** " ++ str_of_exn e).

Definition get_embedding (text : str) : M (list float) :=
  try_except
    (request (EmbeddingsCreate (EMBEDDING_MODEL cfg) text)
             (fun w => embeddings_create R (trace w) (EMBEDDING_MODEL cfg) text))
    (fun e =>
       emit (embedding_diagnostic e);;;
       ret (repeat 0%float 1536)).

(** *** retrieve_relevant_documents *)

(** [doc.get("similarity", 0)] *)
Definition similarity (d : doc) : float :=
  match d_similarity d with Some x => x | None => 0%float end.

Definition schema_hint : string :=
  "**Fix:** See Step 1.2 Schema in the paid Substack guide to set up the database schema.".

(** The call of [match_documents] with its handler; [None] stands for
    the [return []] of the handler. *)
Definition call_match_documents (query_embedding : list float)
           (max_results : Z) (similarity_threshold : float)
  : M (option (list doc)) :=
  try_except
    (data <- request
       (RpcMatchDocuments query_embedding (max_results * 2) similarity_threshold)
       (fun w => match_documents R (trace w) (site_pages w) query_embedding
                                 (max_results * 2) similarity_threshold);;
     ret (Some data))
    (fun e =>
       let error_msg := lower (str_of_exn e) in
       (if contains (lit "function") error_msg
           && contains (lit "does not exist") error_msg then
          emit (StError (lines [
            "❌ **Function 'match_documents' does not exist**"; ""; schema_hint]%string))
        else if contains (lit "vector") error_msg
                && contains (lit "does not exist") error_msg then
          emit (StError (lines [
            "❌ **pgvector extension not enabled**"; ""; schema_hint]%string))
        else
          emit (StError (
            lit "❌ **Error calling match_documents:** " ++ str_of_exn e
            ++ [NL; NL] ++ lit schema_hint)));;;
       ret None).

(** The part of the function after the call: the threshold, the
    fallback and the limit, on [result.data]. *)
Definition select_documents (data : list doc) (max_results : Z)
           (similarity_threshold : float) : list doc :=
  if negb (truthy data) then []
  else
    let filtered :=
      filter (fun d => PrimFloat.leb similarity_threshold (similarity d)) data in
    if negb (truthy filtered) && truthy data then slice_to data 2
    else slice_to filtered max_results.

(** [max_results] and [similarity_threshold] default to 5 and 0.3. *)
Definition retrieve_relevant_documents (query : str)
           (max_results : option Z) (similarity_threshold : option float)
  : M (list doc) :=
  let max_results := match max_results with Some n => n | None => 5 end in
  let similarity_threshold :=
    match similarity_threshold with Some x => x | None => 0.3%float end in
  try_except
    (query_embedding <- get_embedding query;;
     result <- call_match_documents query_embedding max_results
                                    similarity_threshold;;
     match result with
     | None => ret []
     | Some data => ret (select_documents data max_results similarity_threshold)
     end)
    (fun e => ret []).

(** *** generate_response *)

(** [int(x)] for a float: truncation toward zero; it raises on a NaN
    ([ValueError]) and on an infinity ([OverflowError]). *)
Definition int_of_float (x : float) : result Z :=
  match Prim2SF x with
  | S754_zero _ => Ok 0
  | S754_nan => Raise (ValueError (lit "cannot convert float NaN to integer"))
  | S754_infinity _ =>
      Raise (OtherError (lit "cannot convert float infinity to integer"))
  | S754_finite s m e =>
      let a :=
        match e with
        | Z0 => Z.pos m
        | Z.pos p => Z.pos m * 2 ^ Z.pos p
        | Z.neg p => Z.pos m / 2 ^ Z.pos p
        end in
      Ok (if s then - a else a)
  end.

(** One entry of [context_parts], for the document numbered [i]. *)
Definition context_part (i : Z) (d : doc) : result str :=
  match int_of_float (similarity d * 100)%float with
  | Raise e => Raise e
  | Ok similarity_pct =>
      Ok (lit "Document " ++ str_of_int i ++ lit " (Relevance: "
          ++ str_of_int similarity_pct ++ lit "%):" ++ [NL]
          ++ lit "Title: "
          ++ match d_title d with Some t => t | None => lit "Untitled" end
          ++ [NL] ++ lit "Summary: "
          ++ match d_summary d with Some t => t | None => lit "No summary" end
          ++ [NL] ++ lit "Content: "
          ++ match d_content d with Some t => t | None => [] end
          ++ [NL] ++ lit "---")
  end.

(** The loop over [enumerate(context_documents, 1)]. *)
Fixpoint context_parts (i : Z) (context_documents : list doc)
  : result (list str) :=
  match context_documents with
  | [] => Ok []
  | d :: rest =>
      match context_part i d with
      | Raise e => Raise e
      | Ok part =>
          match context_parts (i + 1) rest with
          | Raise e => Raise e
          | Ok parts => Ok (part :: parts)
          end
      end
  end.

(** [system_prompt.format(context=context)] *)
Definition system_prompt (context : str) : str :=
  lines [
    "You are a helpful AI assistant that answers questions based on the provided context documents.";
    "";
    "Guidelines:";
    "- Answer based ONLY on the information in the context documents";
    "- If the context doesn't contain enough information, say so";
    "- Cite which document(s) you're using when relevant";
    "- Be concise and actionable";
    "- If asked about something not in the context, politely decline";
    "";
    "Context Documents:";
    ""]%string ++ context.

Definition generate_response (query : str) (context_documents : list doc)
  : M str :=
  if negb (truthy context_documents) then
    ret (lit "I couldn't find relevant information in the knowledge base to answer your question.")
  else
    match context_parts 1 context_documents with
    | Raise e => raise e
    | Ok parts =>
        let context := join [NL; NL] parts in
        try_except
          (request
             (ChatCompletionsCreate (LLM_MODEL cfg) (system_prompt context) query
                (LLM_TEMPERATURE cfg) (LLM_MAX_TOKENS cfg))
             (fun w => chat_completions_create R (trace w) (LLM_MODEL cfg)
                         (system_prompt context) query
                         (LLM_TEMPERATURE cfg) (LLM_MAX_TOKENS cfg)))
          (fun e =>
             let error_msg := lower (str_of_exn e) in
             if contains (lit "invalid_api_key") error_msg then
               ret (lit "❌ **Error:** Invalid OpenAI API key. Get a new key from https://platform.openai.com/api-keys")
             else if contains (lit "insufficient_quota") error_msg
                     || contains (lit "billing") error_msg then
               ret (lit "❌ **Error:** OpenAI account has insufficient quota. Add a payment method at https://platform.openai.com/account/billing")
             else if contains (lit "rate_limit") error_msg then
               ret (lit "⚠️ **Error:** OpenAI rate limit exceeded. Wait a few minutes and try again.")
             else if contains (lit "model") error_msg
                     && contains (lit "not found") error_msg then
               ret (lit "❌ **Error:** Model '" ++ LLM_MODEL cfg
                    ++ lit "' not found. Check config.py for valid models.")
             else
               ret (lit "❌ **Error generating response:** " ++ str_of_exn e))
    end.

End Chat.

(** The dimensionality of an embedding model: the vectors that the service
    returns for it all have [dimension] entries. *)
Definition has_dimension (R : remote) (model : str) (dimension : Z) : Prop :=
  forall (tr : list event) (input : str) (v : list float),
    embeddings_create R tr model input = Ok v -> len v = dimension.

(** "At least as similar as", on candidates: the order of a ranked search. *)
Definition at_least_as_similar (a b : doc) : Prop :=
  PrimFloat.leb (similarity b) (similarity a) = true.

End App.

(* ===================================================================== *)
(** ** Concrete collaborators, for the examples *)
(* ===================================================================== *)

Module Scenario.
Import Py Config Eff.

(** The configuration with no variable set. *)
Definition cfg : config := config_py no_environ.

(** A collaborator that answers every request the same way. *)
Definition constant_remote (embedding : result (list float)) (completion : result str)
           (fault : option exn) (candidates : result (list doc)) (content : str)
  : remote := {|
  embeddings_create := fun _ _ _ => embedding;
  chat_completions_create := fun _ _ _ _ _ _ => completion;
  table_fault := fun _ => fault;
  match_documents := fun _ _ _ _ _ => candidates;
  client_fault := fun _ => None;
  models_list_fault := fun _ => None;
  read_text := fun _ _ => Ok content;
  utcnow_isoformat := fun _ => lit "2025-01-01T00:00:00+00:00"
|}.

(** A candidate that carries only a similarity. *)
Definition candidate (similarity : float) : doc :=
  {| d_url := None; d_title := None; d_summary := None; d_content := None;
     d_similarity := Some similarity |}.

(** The store of the scenario of the specification. *)
Definition refund_candidates : list doc :=
  [candidate 0.1; candidate 0.15; candidate 0.05].

Definition auth_failure : exn :=
  OtherError (lit "Error code: 401 - {'error': {'code': 'invalid_api_key'}}").

Definition rate_limited : exn :=
  OtherError (lit "Error code: 429 - {'error': {'code': 'rate_limit_exceeded'}}").

Definition timeout : exn := OtherError (lit "Request timed out.").

Definition an_embedding : list float := [0.25; 0.5; 0.25]%float.

(** Everything answers. *)
Definition healthy : remote :=
  constant_remote (Ok an_embedding) (Ok (lit " A note. ")) None
                  (Ok refund_candidates) (lit "A note.").

(** The embedding service rejects the key; the store answers. *)
Definition embedding_rejected : remote :=
  constant_remote (Raise auth_failure) (Ok (lit "A note.")) None
                  (Ok refund_candidates) (lit "A note.").

(** The embedding service is rate limited. *)
Definition embedding_rate_limited : remote :=
  constant_remote (Raise rate_limited) (Ok (lit "A note.")) None
                  (Ok refund_candidates) (lit "A note.").

(** The completion service times out. *)
Definition completion_down : remote :=
  constant_remote (Ok an_embedding) (Raise timeout) None
                  (Ok refund_candidates) (lit "A note.").

(** The same candidates, most similar first, as a ranked search lists them. *)
Definition ranked_candidates : list doc :=
  [candidate 0.15; candidate 0.1; candidate 0.05].

(** A store that finds the ranked candidates. *)
Definition ranked_store : remote :=
  constant_remote (Ok an_embedding) (Ok (lit "A note.")) None
                  (Ok ranked_candidates) (lit "A note.").

(** A store that finds a single candidate. *)
Definition lone_store : remote :=
  constant_remote (Ok an_embedding) (Ok (lit "A note.")) None
                  (Ok [candidate 0.1]) (lit "A note.").

(** The larger embedding model, configured through the environment. *)
Definition large_cfg : config :=
  config_py {| env_EMBEDDING_MODEL := Some (lit "text-embedding-3-large");
               env_LLM_MODEL := None; env_LLM_TEMPERATURE := None;
               env_LLM_MAX_TOKENS := None; env_MAX_CHUNK_SIZE := None;
               env_MINIMUM_SIMILARITY_THRESHOLD := None; env_MAX_SOURCES := None;
               env_SUMMARY_TEMPERATURE := None; env_SUMMARY_MAX_TOKENS := None;
               env_SUMMARY_PREVIEW_LENGTH := None |}.

(** An embedding service for that model: it answers the first request of a
    session with a vector of 3072 entries and is rate limited afterwards. *)
Definition large_service : remote := {|
  embeddings_create := fun tr _ _ =>
    match tr with
    | [] => Ok (repeat 0.5%float 3072)
    | _ :: _ => Raise rate_limited
    end;
  chat_completions_create := fun _ _ _ _ _ _ => Ok (lit "A note.");
  table_fault := fun _ => None;
  match_documents := fun _ _ _ _ _ => Ok refund_candidates;
  client_fault := fun _ => None;
  models_list_fault := fun _ => None;
  read_text := fun _ _ => Ok (lit "A note.");
  utcnow_isoformat := fun _ => lit "2025-01-01T00:00:00+00:00"
|}.

(** A limit of ten characters, configured through the environment. *)
Definition small_cfg : config :=
  config_py {| env_EMBEDDING_MODEL := None; env_LLM_MODEL := None;
               env_LLM_TEMPERATURE := None; env_LLM_MAX_TOKENS := None;
               env_MAX_CHUNK_SIZE := Some 10;
               env_MINIMUM_SIMILARITY_THRESHOLD := None; env_MAX_SOURCES := None;
               env_SUMMARY_TEMPERATURE := None; env_SUMMARY_MAX_TOKENS := None;
               env_SUMMARY_PREVIEW_LENGTH := None |}.

(** A note of three paragraphs, each a chunk under that limit. *)
Definition three_paragraphs : str :=
  lit "alpha one" ++ [NL; NL] ++ lit "beta two" ++ [NL; NL] ++ lit "gamma".

(** Everything answers, and the file holds the note of three paragraphs. *)
Definition healthy_three : remote :=
  constant_remote (Ok an_embedding) (Ok (lit "A note.")) None (Ok [])
                  three_paragraphs.

(** The same, with an embedding service that is rate limited on the second
    paragraph. *)
Definition embedding_fails_on_beta : remote := {|
  embeddings_create := fun _ _ input =>
    if str_eqb input (lit "beta two") then Raise rate_limited
    else Ok an_embedding;
  chat_completions_create := fun _ _ _ _ _ _ => Ok (lit "A note.");
  table_fault := fun _ => None;
  match_documents := fun _ _ _ _ _ => Ok [];
  client_fault := fun _ => None;
  models_list_fault := fun _ => None;
  read_text := fun _ _ => Ok three_paragraphs;
  utcnow_isoformat := fun _ => lit "2025-01-01T00:00:00+00:00"
|}.

(** The same, with a table that refuses the second insert. *)
Definition insert_fails_on_second : remote := {|
  embeddings_create := fun _ _ _ => Ok an_embedding;
  chat_completions_create := fun _ _ _ _ _ _ => Ok (lit "A note.");
  table_fault := fun tr =>
    if existsb (fun ev => match ev with Insert _ => true | _ => false end) tr
    then Some (OtherError (lit "permission denied for table site_pages"))
    else None;
  match_documents := fun _ _ _ _ _ => Ok [];
  client_fault := fun _ => None;
  models_list_fault := fun _ => None;
  read_text := fun _ _ => Ok three_paragraphs;
  utcnow_isoformat := fun _ => lit "2025-01-01T00:00:00+00:00"
|}.

(** A store that finds [n] candidates, all above the threshold. *)
Definition many_candidates (n : nat) : remote :=
  constant_remote (Ok an_embedding) (Ok (lit "A note.")) None
                  (Ok (repeat (candidate 0.9) n)) (lit "A note.").

(** The table [site_pages] was never created. *)
Definition table_missing : remote :=
  constant_remote (Ok an_embedding) (Ok (lit "A note."))
                  (Some (OtherError (lit "relation public.site_pages does not exist")))
                  (Ok []) (lit "A note.").

Definition ready : Ingest.clients :=
  {| Ingest.openai_client := true; Ingest.supabase := true |}.

(** An environment with the three variables set. *)
Definition complete_env (var : string) : option str :=
  if String.eqb var "SUPABASE_URL" then Some (lit "https://x.supabase.co")
  else if String.eqb var "SUPABASE_SERVICE_KEY" then Some (lit "eyJhbGciOi")
  else if String.eqb var "OPENAI_API_KEY" then Some (lit "sk-proj-1")
  else None.

(** The title does not matter to any example. *)
Definition filename_as_title (content filename : str) : str := filename.

Definition empty_world : world := {| site_pages := []; trace := [] |}.

End Scenario.

(* ===================================================================== *)
(** * Properties *)
(* ===================================================================== *)

Import Py Config Eff.

(** ** Lengths, slices and [rfind] *)

Lemma len_nonneg {A} (s : list A) : 0 <= len s.
Proof. unfold len. lia. Qed.

Lemma len_firstn {A} (n : nat) (s : list A) :
  len (firstn n s) = Z.min (Z.of_nat n) (len s).
Proof. unfold len. rewrite length_firstn. lia. Qed.

Lemma slice_to_shorter {A} (s : list A) (n : Z) : len (slice_to s n) <= len s.
Proof.
  unfold slice_to. destruct (n <? 0); rewrite len_firstn; lia.
Qed.

Lemma slice_to_bound {A} (s : list A) (n : Z) :
  0 <= n -> len (slice_to s n) <= n.
Proof.
  intros Hn. unfold slice_to.
  destruct (Z.ltb_spec n 0); [lia|].
  rewrite len_firstn. lia.
Qed.

Lemma slice_to_exact {A} (s : list A) (n : Z) :
  0 <= n <= len s -> len (slice_to s n) = n.
Proof.
  intros Hn. unfold slice_to.
  destruct (Z.ltb_spec n 0); [lia|].
  rewrite len_firstn. lia.
Qed.

(** [rfind_from] answers [last] or an index of [c] in the part it scanned. *)
Lemma rfind_from_spec (c : char) (s : str) : forall i last,
  rfind_from c s i last = last
  \/ (i <= rfind_from c s i last < i + len s
      /\ nth_error s (Z.to_nat (rfind_from c s i last - i)) = Some c).
Proof.
  induction s as [|x s IH]; intros i last; cbn [rfind_from].
  - now left.
  - destruct (IH (i + 1) (if (x =? c)%N then i else last)) as [E | [Hr Hn]].
    + rewrite E. destruct (N.eqb_spec x c) as [->|]; [right | now left].
      unfold len. cbn [List.length]. split; [lia|].
      now rewrite Z.sub_diag.
    + right. unfold len in *. cbn [List.length]. split; [lia|].
      replace (Z.to_nat (rfind_from c s (i + 1) (if (x =? c)%N then i else last) - i))
        with (S (Z.to_nat (rfind_from c s (i + 1) (if (x =? c)%N then i else last) - (i + 1))))
        by lia.
      exact Hn.
Qed.

Lemma rfind_spec (c : char) (s : str) :
  rfind c s = -1
  \/ (0 <= rfind c s < len s /\ nth_error s (Z.to_nat (rfind c s)) = Some c).
Proof.
  unfold rfind. destruct (rfind_from_spec c s 0 (-1)) as [E | [Hr Hn]].
  - now left.
  - right. split; [lia|]. now rewrite Z.sub_0_r in Hn.
Qed.

(** ** The conversion of an integer to a float *)

Lemma digits2_pos_size (p : positive) : digits2_pos p = Pos.size p.
Proof. induction p; cbn; congruence. Qed.

Lemma digits2_pos_bound (p : positive) (k : Z) :
  0 <= k -> Z.pos p < 2 ^ k -> Z.pos (digits2_pos p) <= k.
Proof.
  intros Hk Hp. rewrite digits2_pos_size.
  pose proof (Pos.size_le p) as Hle.
  assert (2 ^ Z.pos (Pos.size p) <= 2 * Z.pos p) as H.
  { change (2 * Z.pos p) with (Z.pos (p~0)).
    change 2 with (Z.pos 2) at 1. rewrite <- Pos2Z.inj_pow.
    apply Pos2Z.pos_le_pos. exact Hle. }
  destruct (Z.le_gt_cases (Z.pos (Pos.size p)) k) as [|Hgt]; [assumption|].
  exfalso.
  assert (2 ^ (k + 1) <= 2 ^ Z.pos (Pos.size p)) by (apply Z.pow_le_mono_r; lia).
  rewrite Z.pow_add_r in * by lia. lia.
Qed.

Lemma digits2_pos_succ (p : positive) :
  (digits2_pos (Pos.succ p) <= Pos.succ (digits2_pos p))%positive.
Proof. induction p; cbn; lia. Qed.

Lemma digits2_pos_iter_xO (k p : positive) :
  digits2_pos (Pos.iter xO p k) = (digits2_pos p + k)%positive.
Proof.
  revert p. induction k using Pos.peano_ind; intros p.
  - cbn. lia.
  - rewrite Pos.iter_succ. cbn. rewrite IHk. lia.
Qed.

Lemma Zdigits2_nonneg (m : Z) : 0 <= Zdigits2 m.
Proof. destruct m; cbn; lia. Qed.

(** A shift to the right by one bit takes one digit away. *)
Lemma shr_1_digits (mrs : shr_record) :
  0 <= shr_m mrs ->
  0 <= shr_m (shr_1 mrs)
  /\ Zdigits2 (shr_m (shr_1 mrs)) = Z.max 0 (Zdigits2 (shr_m mrs) - 1).
Proof.
  destruct mrs as [m r s]. cbn [shr_m]. intros Hm.
  destruct m as [|p|p]; [| |lia].
  - cbn. split; [lia|reflexivity].
  - destruct p; cbn [shr_1 shr_m Zdigits2 digits2_pos];
      rewrite ?Pos2Z.inj_succ; split; lia.
Qed.

Lemma iter_shr_1_digits (p : positive) : forall mrs : shr_record,
  0 <= shr_m mrs ->
  0 <= shr_m (iter_pos shr_1 p mrs)
  /\ Zdigits2 (shr_m (iter_pos shr_1 p mrs))
     = Z.max 0 (Zdigits2 (shr_m mrs) - Z.pos p).
Proof.
  induction p; intros mrs Hm; cbn [iter_pos].
  - destruct (shr_1_digits mrs Hm) as [H1 E1].
    destruct (IHp _ H1) as [H2 E2]. destruct (IHp _ H2) as [H3 E3].
    split; [exact H3|]. rewrite E3, E2, E1. lia.
  - destruct (IHp _ Hm) as [H2 E2]. destruct (IHp _ H2) as [H3 E3].
    split; [exact H3|]. rewrite E3, E2. lia.
  - apply shr_1_digits. exact Hm.
Qed.

Lemma shr_record_of_loc_m (m : Z) (l : location) :
  shr_m (shr_record_of_loc m l) = m.
Proof. destruct l as [|[]]; reflexivity. Qed.

(** The exponent and the number of digits after the shift of a rounding. *)
Lemma shr_fexp_spec (m e : Z) (l : location) :
  0 <= m ->
  0 <= shr_m (fst (shr_fexp prec emax m e l))
  /\ snd (shr_fexp prec emax m e l) = Z.max e (fexp prec emax (Zdigits2 m + e))
  /\ Zdigits2 (shr_m (fst (shr_fexp prec emax m e l)))
     = Z.max 0 (Zdigits2 m - (snd (shr_fexp prec emax m e l) - e)).
Proof.
  intros Hm. unfold shr_fexp, shr.
  pose proof (Zdigits2_nonneg m) as Hd.
  destruct (fexp prec emax (Zdigits2 m + e) - e) as [|q|q] eqn:E; cbn [fst snd].
  - rewrite shr_record_of_loc_m. repeat split; lia.
  - destruct (iter_shr_1_digits q (shr_record_of_loc m l)) as [H1 H2].
    { now rewrite shr_record_of_loc_m. }
    rewrite shr_record_of_loc_m in H2. repeat split; [exact H1 | lia |].
    rewrite H2. lia.
  - rewrite shr_record_of_loc_m. repeat split; lia.
Qed.

Lemma round_nearest_even_spec (m : Z) (l : location) :
  0 <= m ->
  0 <= round_nearest_even m l
  /\ Zdigits2 (round_nearest_even m l) <= Zdigits2 m + 1.
Proof.
  intros Hm.
  assert (Zdigits2 (m + 1) <= Zdigits2 m + 1) as Hs.
  { destruct m as [|p|p]; [cbn; lia | | lia].
    change (Z.pos p + 1) with (Z.pos (p + 1)). rewrite Pos.add_1_r.
    cbn [Zdigits2]. pose proof (digits2_pos_succ p). lia. }
  unfold round_nearest_even. destruct l as [|[]]; try (split; lia).
  destruct (Z.even m); split; lia.
Qed.

(** A rounding whose input lies below [2 ^ 1023] does not overflow. *)
Lemma binary_round_aux_finite (s s' : bool) (m e : Z) (l : location) :
  0 <= m -> Zdigits2 m + e <= 1023 -> e <= 971 ->
  binary_round_aux prec emax s m e l <> S754_infinity s'.
Proof.
  intros Hm Hd He. unfold binary_round_aux.
  destruct (shr_fexp_spec m e l Hm) as [H1 [E1 D1]].
  destruct (shr_fexp prec emax m e l) as [mrs1 e1]. cbn [fst snd] in H1, E1, D1.
  destruct (round_nearest_even_spec (shr_m mrs1) (loc_of_shr_record mrs1) H1)
    as [H2 D2].
  destruct (shr_fexp_spec (round_nearest_even (shr_m mrs1) (loc_of_shr_record mrs1))
              e1 loc_Exact H2) as [H3 [E3 D3]].
  destruct (shr_fexp prec emax _ e1 loc_Exact) as [mrs2 e2].
  cbn [fst snd] in H3, E3, D3.
  destruct (shr_m mrs2); try discriminate.
  assert (e2 <= 971) as Hle.
  { unfold fexp, emin, prec, emax in *. lia. }
  apply Z.leb_le in Hle. change (emax - prec) with 971. rewrite Hle. discriminate.
Qed.

Lemma binary_round_finite (s s' : bool) (p : positive) :
  Z.pos p < 2 ^ 1023 ->
  binary_round prec emax s p 0 <> S754_infinity s'.
Proof.
  intros Hp. pose proof (digits2_pos_bound p 1023 ltac:(lia) Hp) as Hd.
  unfold binary_round, shl_align.
  assert (fexp prec emax (Z.pos (digits2_pos p) + 0) = Z.pos (digits2_pos p) - 53) as E.
  { unfold fexp, emin, prec, emax. lia. }
  rewrite E.
  destruct (Z.pos (digits2_pos p) - 53 - 0) as [|q|q] eqn:Eq.
  - apply binary_round_aux_finite; cbn [Zdigits2]; lia.
  - apply binary_round_aux_finite; cbn [Zdigits2]; lia.
  - apply binary_round_aux_finite; cbn [Zdigits2]; try lia.
    rewrite digits2_pos_iter_xO. lia.
Qed.

(** Every integer of magnitude below [2 ^ 1023] has a float. *)
Lemma float_of_int_small (n : Z) :
  Z.abs n < 2 ^ 1023 -> float_of_int n <> None.
Proof.
  intros Hn. unfold float_of_int, binary_normalize.
  destruct n as [|p|p]; [discriminate | |].
  - pose proof (binary_round_finite false) as H.
    specialize (fun s' => H s' p ltac:(lia)).
    destruct (binary_round prec emax false p 0); try discriminate.
    exfalso. eapply H. reflexivity.
  - pose proof (binary_round_finite true) as H.
    specialize (fun s' => H s' p ltac:(lia)).
    destruct (binary_round prec emax true p 0); try discriminate.
    exfalso. eapply H. reflexivity.
Qed.

(** ** chunk_text *)

(** The only exception of the chunker. *)
Lemma truncate_raises (max_size : Z) (chunk : str) (e : exn) :
  Ingest.truncate max_size chunk = Raise e ->
  e = OtherError (lit "int too large to convert to float")
  /\ float_of_int max_size = None /\ max_size < len chunk.
Proof.
  unfold Ingest.truncate.
  destruct (Z.gtb_spec (len chunk) max_size) as [Hlong | Hshort]; [|discriminate].
  destruct (float_of_int max_size) as [size|].
  - destruct (int_gt_float _ _); discriminate.
  - intros H. injection H as <-. repeat split. exact Hlong.
Qed.

Lemma truncate_returns (max_size : Z) (chunk : str) :
  float_of_int max_size <> None \/ len chunk <= max_size ->
  exists cut : str, Ingest.truncate max_size chunk = Ok cut.
Proof.
  intros H. destruct (Ingest.truncate max_size chunk) as [cut|e] eqn:E; [eauto|].
  apply truncate_raises in E as [_ [Hnone Hlong]]. destruct H; [contradiction | lia].
Qed.

Lemma truncate_bound (max_size : Z) (chunk cut : str) :
  0 <= max_size -> Ingest.truncate max_size chunk = Ok cut -> len cut <= max_size.
Proof.
  intros Hm. unfold Ingest.truncate.
  destruct (Z.gtb_spec (len chunk) max_size) as [Hlong | Hshort].
  - destruct (float_of_int max_size) as [size|]; [|discriminate].
    destruct (int_gt_float _ _); intros H; injection H as <-.
    + etransitivity; [apply slice_to_shorter | now apply slice_to_bound].
    + now apply slice_to_bound.
  - intros H. now injection H as <-.
Qed.


(** What the truncation of an oversized chunk is: the hard cut, or the cut
    after the last period of the window when the test on the final fifth
    succeeds. *)
Lemma truncate_cases (max_size : Z) (chunk : str) (size : float) :
  max_size < len chunk ->
  float_of_int max_size = Some size ->
  let truncated := slice_to chunk max_size in
  let last_period := rfind PERIOD truncated in
  (int_gt_float last_period (size * 0.8)%float = false
   /\ Ingest.truncate max_size chunk = Ok truncated)
  \/ (int_gt_float last_period (size * 0.8)%float = true
      /\ Ingest.truncate max_size chunk = Ok (slice_to truncated (last_period + 1))).
Proof.
  intros Hlong Hsize truncated last_period. unfold Ingest.truncate.
  destruct (Z.gtb_spec (len chunk) max_size) as [_ | Hshort]; [|lia].
  rewrite Hsize. fold truncated. fold last_period.
  destruct (int_gt_float last_period _); [right | left]; now split.
Qed.

(** The second loop returns the truncation of each chunk, in order. *)
Lemma truncate_all_ok (max_size : Z) (chunks : list str) :
  forall final_chunks : list str,
    Ingest.truncate_all max_size chunks = Ok final_chunks ->
    Forall2 (fun chunk cut => Ingest.truncate max_size chunk = Ok cut)
            chunks final_chunks.
Proof.
  induction chunks as [|chunk chunks IH]; intros final_chunks;
    cbn [Ingest.truncate_all].
  - intros H. injection H as <-. constructor.
  - destruct (Ingest.truncate max_size chunk) as [cut|e] eqn:E; [|discriminate].
    destruct (Ingest.truncate_all max_size chunks) as [rest|e]; [|discriminate].
    intros H. injection H as <-. constructor; [exact E | now apply IH].
Qed.

Lemma truncate_all_bound (max_size : Z) (chunks final_chunks : list str) :
  0 <= max_size ->
  Ingest.truncate_all max_size chunks = Ok final_chunks ->
  Forall (fun cut => len cut <= max_size) final_chunks.
Proof.
  intros Hm Ht. apply truncate_all_ok in Ht.
  induction Ht as [|c t cs ts Hct _ IH]; constructor.
  - exact (truncate_bound max_size c t Hm Hct).
  - exact IH.
Qed.

Lemma truncate_all_raises (max_size : Z) (chunks : list str) (e : exn) :
  Ingest.truncate_all max_size chunks = Raise e ->
  e = OtherError (lit "int too large to convert to float")
  /\ float_of_int max_size = None
  /\ exists chunk : str, In chunk chunks /\ max_size < len chunk.
Proof.
  induction chunks as [|chunk chunks IH]; cbn [Ingest.truncate_all];
    [discriminate|].
  destruct (Ingest.truncate max_size chunk) as [cut|e1] eqn:E.
  - destruct (Ingest.truncate_all max_size chunks) as [rest|e2]; [discriminate|].
    intros H. injection H as ->.
    destruct (IH eq_refl) as [He [Hnone [c [Hin Hc]]]].
    repeat split; try assumption. exists c. split; [now right | exact Hc].
  - intros H. injection H as ->.
    apply truncate_raises in E as [He [Hnone Hlong]].
    repeat split; try assumption. exists chunk. split; [now left | exact Hlong].
Qed.

Section ChunkText.
Variable cfg : config.

Lemma chunk_text_cases (text : str) (max_size : Z) :
  (len text <= max_size /\ Ingest.chunk_text cfg text (Some max_size) = Ok [text])
  \/ (max_size < len text
      /\ exists final_chunks : list str,
          Ingest.truncate_all max_size (Ingest.pack max_size (split_nlnl text []))
          = Ok final_chunks
          /\ final_chunks <> []
          /\ Ingest.chunk_text cfg text (Some max_size) = Ok final_chunks)
  \/ (max_size < len text
      /\ Ingest.pack max_size (split_nlnl text []) = []
      /\ Ingest.chunk_text cfg text (Some max_size) = Ok [slice_to text max_size])
  \/ (max_size < len text
      /\ exists e : exn,
          Ingest.truncate_all max_size (Ingest.pack max_size (split_nlnl text []))
          = Raise e
          /\ Ingest.chunk_text cfg text (Some max_size) = Raise e).
Proof.
  unfold Ingest.chunk_text.
  destruct (Z.leb_spec (len text) max_size) as [Hs | Hl]; [left; now split|].
  right.
  destruct (Ingest.truncate_all max_size (Ingest.pack max_size (split_nlnl text [])))
    as [final_chunks|e] eqn:E.
  - destruct final_chunks as [|c cs].
    + right. left. split; [exact Hl|]. split; [|reflexivity].
      apply truncate_all_ok in E. now inversion E.
    + left. split; [exact Hl|]. eexists. split; [reflexivity|].
      split; [discriminate | reflexivity].
  - right. right. split; [exact Hl|]. eauto.
Qed.

(** [chunk_text] returns a list unless the limit has no float and a packed
    chunk is longer than the limit. *)
Lemma chunk_text_returns (text : str) (max_size : Z) :
  float_of_int max_size <> None \/ len text <= max_size ->
  exists chunks : list str, Ingest.chunk_text cfg text (Some max_size) = Ok chunks.
Proof.
  intros H.
  destruct (chunk_text_cases text max_size)
    as [[_ E] | [[_ [out [_ [_ E]]]] | [[_ [_ E]] | [Hl [e [Ht _]]]]]]; eauto.
  apply truncate_all_raises in Ht as [_ [Hnone _]].
  destruct H; [contradiction | lia].
Qed.

Lemma chunk_text_raises (text : str) (max_size : Z) (e : exn) :
  Ingest.chunk_text cfg text (Some max_size) = Raise e ->
  e = OtherError (lit "int too large to convert to float")
  /\ float_of_int max_size = None /\ max_size < len text.
Proof.
  intros H.
  destruct (chunk_text_cases text max_size)
    as [[_ E] | [[_ [out [_ [_ E]]]] | [[_ [_ E]] | [Hl [e' [Ht E]]]]]];
    rewrite E in H; try discriminate.
  injection H as ->.
  apply truncate_all_raises in Ht as [He [Hnone _]]. now repeat split.
Qed.

End ChunkText.

(** C1. For every text and every positive [max_size], each chunk of the
    list that [chunk_text] returns has at most [max_size] characters, and
    [chunk_text] returns a list whenever the limit is below [2 ^ 1023] or
    the text fits (beyond that range the product [max_size * 0.8] has no
    float, which matters only for a chunk longer than the limit); an
    oversized chunk is cut at [max_size], or just after the last period of
    that window exactly when the period passes the test on the final
    fifth. *)
Theorem chunk_text_size_bound (cfg : config) (text : str) (max_size : Z) :
  0 < max_size ->
  (forall chunks : list str,
      Ingest.chunk_text cfg text (Some max_size) = Ok chunks ->
      Forall (fun chunk => len chunk <= max_size) chunks)
  /\ (max_size < 2 ^ 1023 \/ len text <= max_size ->
      exists chunks : list str,
        Ingest.chunk_text cfg text (Some max_size) = Ok chunks)
  /\ forall (paragraph : str) (size : float),
      max_size < len paragraph ->
      float_of_int max_size = Some size ->
      let truncated := slice_to paragraph max_size in
      let last_period := rfind PERIOD truncated in
      exists cut : str,
        Ingest.truncate max_size paragraph = Ok cut
        /\ len cut <= max_size
        /\ ((int_gt_float last_period (size * 0.8)%float = false
             /\ cut = truncated)
            \/ (int_gt_float last_period (size * 0.8)%float = true
                /\ cut = slice_to truncated (last_period + 1))).
Proof.
  intros Hpos. split; [|split].
  - intros chunks Hc.
    destruct (chunk_text_cases cfg text max_size)
      as [[Hs E] | [[_ [out [Ht [_ E]]]] | [[_ [_ E]] | [_ [e [_ E]]]]]];
      rewrite E in Hc; try discriminate; injection Hc as <-.
    + constructor; [exact Hs | constructor].
    + apply (truncate_all_bound max_size _ _ ltac:(lia) Ht).
    + constructor; [apply slice_to_bound; lia | constructor].
  - intros H. apply chunk_text_returns. destruct H as [H | H]; [left | now right].
    apply float_of_int_small. lia.
  - intros paragraph size Hlong Hsize truncated last_period.
    destruct (truncate_cases max_size paragraph size Hlong Hsize) as [[T E] | [T E]].
    + exists truncated. split; [exact E|]. split.
      * apply (truncate_bound max_size paragraph); [lia | exact E].
      * left. now split.
    + exists (slice_to truncated (last_period + 1)). split; [exact E|]. split.
      * apply (truncate_bound max_size paragraph); [lia | exact E].
      * right. now split.
Qed.

(** With a limit of twenty, a period at index 17 lies beyond 16.0 and the
    chunk ends with it; with a limit of ten, a period at index 8 does not
    lie beyond 8.0 and the cut is the hard one. *)
Lemma chunk_text_size_bound_witness :
  0 < 20
  /\ Ingest.chunk_text (config_py no_environ)
                       (lit "0123456789abcdefg.hijklmn") (Some 20)
     = Ok [lit "0123456789abcdefg."]
  /\ Ingest.truncate 10 (lit "aaa.bbbb.cc") = Ok (lit "aaa.bbbb.c")
  /\ Forall (fun chunk => len chunk <= 20) [lit "0123456789abcdefg."].
Proof.
  split; [lia|]. split; [reflexivity|]. split; [reflexivity|].
  apply (proj1 (chunk_text_size_bound (config_py no_environ)
                  (lit "0123456789abcdefg.hijklmn") 20 ltac:(lia))).
  reflexivity.
Defined.

(** C10. For every text and every positive [max_size], the list that
    [chunk_text] returns holds at least one chunk, and [chunk_text] returns
    a list whenever the limit is below [2 ^ 1023] or the text fits; when the
    text is longer than [max_size] and the packing of its paragraphs yields
    no chunk, the result is the single chunk [text[:max_size]]. *)
Theorem chunk_text_nonempty (cfg : config) (text : str) (max_size : Z) :
  0 < max_size ->
  (forall chunks : list str,
      Ingest.chunk_text cfg text (Some max_size) = Ok chunks -> chunks <> [])
  /\ (max_size < 2 ^ 1023 \/ len text <= max_size ->
      exists chunks : list str,
        Ingest.chunk_text cfg text (Some max_size) = Ok chunks)
  /\ (max_size < len text ->
      Ingest.pack max_size (split_nlnl text []) = [] ->
      Ingest.chunk_text cfg text (Some max_size) = Ok [slice_to text max_size]).
Proof.
  intros Hpos. split; [|split].
  - intros chunks Hc.
    destruct (chunk_text_cases cfg text max_size)
      as [[_ E] | [[_ [out [_ [Hne E]]]] | [[_ [_ E]] | [_ [e [_ E]]]]]];
      rewrite E in Hc; try discriminate; injection Hc as <-;
      [discriminate | exact Hne | discriminate].
  - intros H. apply chunk_text_returns. destruct H as [H | H]; [left | now right].
    apply float_of_int_small. lia.
  - intros Hl Hp.
    destruct (chunk_text_cases cfg text max_size)
      as [[Hs _] | [[_ [out [Ht [Hne _]]]] | [[_ [_ E]] | [_ [e [Ht _]]]]]];
      [lia | | exact E |].
    + rewrite Hp in Ht. cbn [Ingest.truncate_all] in Ht. injection Ht as <-.
      contradiction.
    + rewrite Hp in Ht. discriminate Ht.
Qed.

(** Ten newlines with a limit of four: five empty paragraphs, no chunk,
    and the fallback; the empty text gives one empty chunk. *)
Lemma chunk_text_nonempty_witness :
  0 < 4
  /\ Ingest.pack 4 (split_nlnl (repeat NL 10) []) = []
  /\ Ingest.chunk_text (config_py no_environ) (repeat NL 10) (Some 4)
     = Ok [repeat NL 4]
  /\ Ingest.chunk_text (config_py no_environ) [] (Some 4) = Ok [[]]
  /\ [repeat NL 4] <> [].
Proof.
  split; [lia|]. split; [reflexivity|]. split; [reflexivity|]. split; [reflexivity|].
  apply (proj1 (chunk_text_nonempty (config_py no_environ) (repeat NL 10) 4
                  ltac:(lia))).
  reflexivity.
Defined.

(** ** The configured chunk size *)

(** C9, as the code has it. With no variable set, the [MAX_CHUNK_SIZE] that
    [ingest.py] imports, and that [chunk_text] uses when it is given no
    [max_chunk_size], is 8000; the copy [src/config.py] says 5000. *)
Theorem default_max_chunk_size :
  MAX_CHUNK_SIZE (config_py no_environ) = 8000
  /\ MAX_CHUNK_SIZE (src_config_py no_environ) = 5000
  /\ forall text : str,
      Ingest.chunk_text (config_py no_environ) text None
      = Ingest.chunk_text (config_py no_environ) text (Some 8000).
Proof.
  split; [reflexivity|]. split; [reflexivity|]. intros text. reflexivity.
Qed.

(** C9 refuted as stated: the default is not 5000, and a text of 6000
    characters, which a limit of 5000 would cut, comes back whole. *)
Lemma default_max_chunk_size_is_not_5000 :
  (MAX_CHUNK_SIZE (config_py no_environ) =? 5000) = false
  /\ Ingest.chunk_text (config_py no_environ) (repeat 97%N (Z.to_nat 6000)) None
     = Ok [repeat 97%N (Z.to_nat 6000)]
  /\ Ingest.chunk_text (config_py no_environ) (repeat 97%N (Z.to_nat 6000))
                       (Some 5000)
     = Ok [repeat 97%N (Z.to_nat 5000)].
Proof.
  split; [reflexivity|]. split; vm_compute; reflexivity.
Qed.

(** ** Answer generation *)

(** C6. With no context document, [generate_response] returns the fixed
    message and leaves the world as it was: no completion is requested. *)
Theorem generate_response_empty_context
        (cfg : config) (lower : str -> str) (R : remote) (query : str) (w : world) :
  App.generate_response cfg lower R query [] w
  = (Ok (lit "I couldn't find relevant information in the knowledge base to answer your question."),
     w).
Proof. reflexivity. Qed.

(** ** The embedding of a query *)

Lemma query_embedding_total (cfg : config) (lower : str -> str) (R : remote)
      (text : str) (w : world) :
  exists (v : list float) (w' : world),
    App.get_embedding cfg lower R text w = (Ok v, w') /\ site_pages w' = site_pages w.
Proof.
  unfold App.get_embedding, try_except, request, bind, emit, ret.
  destruct (embeddings_create R (trace w) (EMBEDDING_MODEL cfg) text); eauto.
Qed.

Lemma query_embedding_failure (cfg : config) (lower : str -> str) (R : remote)
      (text : str) (w : world)
      (e : exn) :
  embeddings_create R (trace w) (EMBEDDING_MODEL cfg) text = Raise e ->
  App.get_embedding cfg lower R text w
  = (Ok (repeat 0%float 1536),
     {| site_pages := site_pages w;
        trace := (trace w ++ [EmbeddingsCreate (EMBEDDING_MODEL cfg) text])
                   ++ [App.embedding_diagnostic lower e] |}).
Proof.
  intros He. unfold App.get_embedding, try_except, request, bind, emit, ret.
  rewrite He. reflexivity.
Qed.

(** C8, as the code has it. In the query path [get_embedding] always
    returns a vector; when the remote call raises, whatever the exception
    and whatever the configured [EMBEDDING_MODEL], the vector is 1536 zeros
    and the only effect is the diagnostic shown in the UI. The length is a
    literal of the code: it is the dimensionality of the configured model
    only when that model has 1536 dimensions, as the default has. *)
Theorem query_embedding_never_raises
        (cfg : config) (lower : str -> str) (R : remote) (text : str) (w : world) :
  (exists v w', App.get_embedding cfg lower R text w = (Ok v, w'))
  /\ forall e : exn,
      embeddings_create R (trace w) (EMBEDDING_MODEL cfg) text = Raise e ->
      App.get_embedding cfg lower R text w
      = (Ok (repeat 0%float 1536),
         {| site_pages := site_pages w;
            trace := (trace w ++ [EmbeddingsCreate (EMBEDDING_MODEL cfg) text])
                       ++ [App.embedding_diagnostic lower e] |})
      /\ List.length (repeat 0%float 1536) = 1536%nat
      /\ Forall (fun x => x = 0%float) (repeat 0%float 1536)
      /\ forall dimension : Z,
          App.has_dimension R (EMBEDDING_MODEL cfg) dimension ->
          (len (repeat 0%float 1536) = dimension <-> dimension = 1536).
Proof.
  split.
  - destruct (query_embedding_total cfg lower R text w) as [v [w' [E _]]]. eauto.
  - intros e He. split; [|split; [|split]].
    + now apply query_embedding_failure.
    + apply repeat_length.
    + apply Forall_forall. intros x Hx. now apply repeat_spec in Hx.
    + intros dimension _. unfold len. rewrite repeat_length.
      change (Z.of_nat 1536) with 1536. split; intros H; now symmetry.
Qed.

(** C8 refuted as stated. The configured model is text-embedding-3-large,
    whose vectors have 3072 entries; the service answers the first request
    and is rate limited afterwards. The first query gets a vector of 3072
    entries, the second one the 1536 zeros. *)
Lemma zero_vector_is_not_the_dimension_of_the_model :
  let first := App.get_embedding Scenario.large_cfg ascii_lower
                 Scenario.large_service (lit "refund policy")
                 Scenario.empty_world in
  let second := App.get_embedding Scenario.large_cfg ascii_lower
                  Scenario.large_service (lit "opening hours") (snd first) in
  EMBEDDING_MODEL Scenario.large_cfg = lit "text-embedding-3-large"
  /\ App.has_dimension Scenario.large_service
                       (EMBEDDING_MODEL Scenario.large_cfg) 3072
  /\ fst first = Ok (repeat 0.5%float 3072)
  /\ fst second = Ok (repeat 0%float 1536)
  /\ len (repeat 0%float 1536) = 1536
  /\ (1536 =? 3072) = false.
Proof.
  intros first second. split; [reflexivity|]. split.
  - intros tr input v. unfold Scenario.large_service. cbn [embeddings_create].
    destruct tr; [|discriminate]. intros H. injection H as <-. reflexivity.
  - split; [vm_compute; reflexivity|]. split; [vm_compute; reflexivity|].
    split; reflexivity.
Qed.

(** A rejected key: the query embedding is the zero vector, and a healthy
    service gives its own vector. *)
Lemma query_embedding_never_raises_witness :
  fst (App.get_embedding Scenario.cfg ascii_lower Scenario.embedding_rejected
                         (lit "refund policy") Scenario.empty_world)
  = Ok (repeat 0%float 1536)
  /\ fst (App.get_embedding Scenario.cfg ascii_lower Scenario.healthy
                            (lit "refund policy") Scenario.empty_world)
     = Ok Scenario.an_embedding.
Proof.
  split; [|reflexivity].
  pose proof (query_embedding_never_raises Scenario.cfg ascii_lower
                Scenario.embedding_rejected
                (lit "refund policy") Scenario.empty_world) as [_ H].
  destruct (H Scenario.auth_failure eq_refl) as [E _].
  rewrite E. reflexivity.
Defined.

(** ** Summaries *)

(** Unfolding of the monad of effects, leaving literals alone. *)
Ltac eff :=
  unfold try_except, bind, request, emit, ret, raise, gather;
  cbn [fst snd trace site_pages].

(** [get_summary] always returns a string. *)
Lemma get_summary_total (cfg : config) (R : remote) (G : Ingest.clients)
      (text : str) (w : world) :
  exists summary w', Ingest.get_summary cfg R G text w = (Ok summary, w').
Proof.
  unfold Ingest.get_summary. destruct (Ingest.openai_client G); cbn [negb]; eff.
  - destruct (chat_completions_create R _ _ _ _ _ _); eauto.
  - eauto.
Qed.

(** What [get_summary] returns when the completion call raises. *)
Lemma get_summary_failure (cfg : config) (R : remote) (G : Ingest.clients)
      (text : str) (w : world) (e : exn) :
  Ingest.openai_client G = true ->
  chat_completions_create R (trace w) (LLM_MODEL cfg)
    Ingest.summary_system_prompt (Ingest.summary_user_message cfg text)
    (SUMMARY_TEMPERATURE cfg) (SUMMARY_MAX_TOKENS cfg) = Raise e ->
  Ingest.get_summary cfg R G text w
  = (Ok (lit "Content summary unavailable"),
     {| site_pages := site_pages w;
        trace := trace w ++ [ChatCompletionsCreate (LLM_MODEL cfg)
                               Ingest.summary_system_prompt
                               (Ingest.summary_user_message cfg text)
                               (SUMMARY_TEMPERATURE cfg) (SUMMARY_MAX_TOKENS cfg)] |}).
Proof.
  intros HG He. unfold Ingest.get_summary. rewrite HG. cbn [negb]. eff.
  rewrite He. reflexivity.
Qed.

(** C7. [get_summary] never raises: it always returns a string, and when
    the remote completion call fails, whatever the exception, the string is
    the sentinel; the chunk is then stored with the sentinel as its summary
    and counted as a success. *)
Theorem get_summary_never_raises
        (cfg : config) (lower : str -> str) (R : remote) (G : Ingest.clients)
        (text : str) (w : world) :
  (exists summary w', Ingest.get_summary cfg R G text w = (Ok summary, w'))
  /\ (forall e : exn,
        Ingest.openai_client G = true ->
        chat_completions_create R (trace w) (LLM_MODEL cfg)
          Ingest.summary_system_prompt (Ingest.summary_user_message cfg text)
          (SUMMARY_TEMPERATURE cfg) (SUMMARY_MAX_TOKENS cfg) = Raise e ->
        fst (Ingest.get_summary cfg R G text w)
        = Ok (lit "Content summary unavailable"))
  /\ (forall (name url title source : str) (total chunk_num successful : Z)
             (v : list float) (e : exn),
        let asked_embedding := trace w ++ [EmbeddingsCreate (EMBEDDING_MODEL cfg) text] in
        let asked_summary :=
          asked_embedding ++ [ChatCompletionsCreate (LLM_MODEL cfg)
                                Ingest.summary_system_prompt
                                (Ingest.summary_user_message cfg text)
                                (SUMMARY_TEMPERATURE cfg) (SUMMARY_MAX_TOKENS cfg)] in
        let data := Ingest.chunk_data name url title source total chunk_num text v
                      (lit "Content summary unavailable")
                      (utcnow_isoformat R asked_summary) in
        Ingest.openai_client G = true ->
        embeddings_create R (trace w) (EMBEDDING_MODEL cfg) text = Ok v ->
        chat_completions_create R asked_embedding (LLM_MODEL cfg)
          Ingest.summary_system_prompt (Ingest.summary_user_message cfg text)
          (SUMMARY_TEMPERATURE cfg) (SUMMARY_MAX_TOKENS cfg) = Raise e ->
        table_fault R asked_summary = None ->
        existsb (Ingest.same_key data) (site_pages w) = false ->
        Ingest.process_chunk cfg lower R G name url title source total chunk_num text
                             successful w
        = (Ok (successful + 1),
           {| site_pages := site_pages w ++ [data];
              trace := (asked_summary ++ [Insert data]) ++ [Sleep 0.1%float] |})).
Proof.
  split; [apply get_summary_total|]. split.
  - intros e HG He. now rewrite (get_summary_failure cfg R G text w e HG He).
  - intros name url title source total chunk_num successful v e
           asked_embedding asked_summary data HG Hv He Hf Hk.
    unfold Ingest.process_chunk, Ingest.get_embedding. rewrite HG. cbn [negb].
    unfold try_except at 1, bind at 1, gather.
    unfold try_except at 1, request at 1. rewrite Hv.
    fold asked_embedding.
    rewrite (get_summary_failure cfg R G text
               {| site_pages := site_pages w; trace := asked_embedding |} e HG He).
    unfold Ingest.utcnow, Ingest.insert. eff.
    fold asked_embedding. fold asked_summary. fold data.
    rewrite Hf, Hk. reflexivity.
Qed.

(** A completion service that times out: the summary is the sentinel and
    the chunk is stored with it. *)
Lemma get_summary_never_raises_witness :
  fst (Ingest.get_summary Scenario.cfg Scenario.completion_down Scenario.ready
                          (lit "A note.") Scenario.empty_world)
  = Ok (lit "Content summary unavailable")
  /\ map r_summary
         (site_pages
            (snd (Ingest.process_chunk Scenario.cfg ascii_lower Scenario.completion_down
                    Scenario.ready (lit "a.md") (lit "file://a.md") (lit "a.md")
                    (lit "markdown_file") 1 0 (lit "A note.") 0
                    Scenario.empty_world)))
     = [lit "Content summary unavailable"].
Proof.
  pose proof (get_summary_never_raises Scenario.cfg ascii_lower Scenario.completion_down
                Scenario.ready (lit "A note.") Scenario.empty_world)
    as [_ [Hsentinel Hchunk]].
  split.
  - exact (Hsentinel Scenario.timeout eq_refl eq_refl).
  - rewrite (Hchunk (lit "a.md") (lit "file://a.md") (lit "a.md")
                    (lit "markdown_file") 1 0 0 Scenario.an_embedding
                    Scenario.timeout eq_refl eq_refl eq_refl eq_refl eq_refl).
    reflexivity.
Defined.

(** ** Embedding errors during ingestion *)

Section IngestionErrors.
Variable cfg : config.
Variable lower : str -> str.
Variable R : remote.
Variable G : Ingest.clients.
Variable extract_title : str -> str -> str.

(** The handler of [get_embedding] raises a [ValueError] with one of five
    messages. *)
Lemma embedding_error_classified (e : exn) :
  exists msg : str,
    Ingest.embedding_error cfg lower e = ValueError msg
    /\ (msg = lines ["❌ Invalid OpenAI API key";
                     "💡 Get a new key from https://platform.openai.com/api-keys";
                     "   Make sure it starts with 'sk-' and is set in .env file"]%string
        \/ msg = lines ["❌ OpenAI account has insufficient quota";
                        "💡 Add a payment method at https://platform.openai.com/account/billing";
                        "   Free tier gives $5 credit to start"]%string
        \/ msg = lines ["❌ OpenAI rate limit exceeded";
                        "💡 Wait a few minutes and try again";
                        "   The script will continue with remaining files"]%string
        \/ msg = lit "❌ Embedding model '" ++ EMBEDDING_MODEL cfg
                 ++ lines ["' not found";
                           "💡 Check config.py and verify the model name is correct"]%string
        \/ msg = lit "❌ Error getting embedding: " ++ str_of_exn e ++ [NL]
                 ++ lit "💡 Check your OpenAI API key and account status").
Proof.
  unfold Ingest.embedding_error.
  destruct (contains (lit "invalid_api_key") (lower (str_of_exn e))
            || contains (lit "incorrect api key") (lower (str_of_exn e))).
  { eexists. split; [reflexivity|]. left. reflexivity. }
  destruct (contains (lit "insufficient_quota") (lower (str_of_exn e))
            || contains (lit "billing") (lower (str_of_exn e))).
  { eexists. split; [reflexivity|]. right. left. reflexivity. }
  destruct (contains (lit "rate_limit") (lower (str_of_exn e))).
  { eexists. split; [reflexivity|]. right. right. left. reflexivity. }
  destruct (contains (lit "model") (lower (str_of_exn e))
            && contains (lit "not found") (lower (str_of_exn e))).
  { eexists. split; [reflexivity|]. right. right. right. left. reflexivity. }
  eexists. split; [reflexivity|]. right. right. right. right. reflexivity.
Qed.

Lemma get_embedding_raises (text : str) (w : world) (e : exn) :
  Ingest.openai_client G = true ->
  embeddings_create R (trace w) (EMBEDDING_MODEL cfg) text = Raise e ->
  Ingest.get_embedding cfg lower R G text w
  = (Raise (Ingest.embedding_error cfg lower e),
     {| site_pages := site_pages w;
        trace := trace w ++ [EmbeddingsCreate (EMBEDDING_MODEL cfg) text] |}).
Proof.
  intros HG He. unfold Ingest.get_embedding. rewrite HG. cbn [negb]. eff.
  rewrite He. reflexivity.
Qed.

Lemma get_summary_site_pages (text : str) (w : world) :
  site_pages (snd (Ingest.get_summary cfg R G text w)) = site_pages w.
Proof.
  unfold Ingest.get_summary. destruct (Ingest.openai_client G); cbn [negb]; eff.
  - destruct (chat_completions_create R _ _ _ _ _ _); reflexivity.
  - reflexivity.
Qed.

(** With its client, [get_summary] issues one request and returns. *)
Lemma get_summary_request (text : str) (w : world) :
  Ingest.openai_client G = true ->
  exists summary : str,
    Ingest.get_summary cfg R G text w
    = (Ok summary,
       {| site_pages := site_pages w;
          trace := trace w ++ [Ingest.summary_request cfg text] |}).
Proof.
  intros HG. unfold Ingest.get_summary, Ingest.summary_request.
  rewrite HG. cbn [negb]. eff.
  destruct (chat_completions_create R _ _ _ _ _ _); eauto.
Qed.

(** An embedding error ends the turn of the loop with the classified
    [ValueError]: the summary was requested at the same time, and nothing
    is inserted. *)
Lemma process_chunk_embedding_error
      (name url title source : str) (total chunk_num successful : Z)
      (chunk : str) (w : world) (e : exn) :
  Ingest.openai_client G = true ->
  embeddings_create R (trace w) (EMBEDDING_MODEL cfg) chunk = Raise e ->
  Ingest.process_chunk cfg lower R G name url title source total chunk_num chunk
                       successful w
  = (Raise (Ingest.embedding_error cfg lower e),
     {| site_pages := site_pages w;
        trace := (trace w ++ [EmbeddingsCreate (EMBEDDING_MODEL cfg) chunk])
                   ++ [Ingest.summary_request cfg chunk] |}).
Proof.
  intros HG He. unfold Ingest.process_chunk.
  unfold try_except at 1, bind at 1, gather.
  rewrite (get_embedding_raises chunk w e HG He).
  destruct (get_summary_request chunk
              {| site_pages := site_pages w;
                 trace := trace w ++ [EmbeddingsCreate (EMBEDDING_MODEL cfg) chunk] |}
              HG) as [summary ->].
  cbn [site_pages trace].
  destruct (embedding_error_classified e) as [msg [-> _]]. reflexivity.
Qed.

(** The loop over a list of chunks in two parts. *)
Lemma process_chunks_app
      (name url title source : str) (total : Z) (done rest : list str) :
  forall (chunk_num successful : Z) (w : world),
    Ingest.process_chunks cfg lower R G name url title source total
                          (done ++ rest) chunk_num successful w
    = match Ingest.process_chunks cfg lower R G name url title source total
                                  done chunk_num successful w with
      | (Ok counted, w') =>
          Ingest.process_chunks cfg lower R G name url title source total
                                rest (chunk_num + len done) counted w'
      | (Raise e, w') => (Raise e, w')
      end.
Proof.
  induction done as [|chunk done IH]; intros chunk_num successful w;
    cbn [app Ingest.process_chunks].
  - unfold ret. change (len (@nil str)) with 0. now rewrite Z.add_0_r.
  - unfold bind.
    destruct (Ingest.process_chunk cfg lower R G name url title source total
                                   chunk_num chunk successful w) as [[s|e] w1];
      [|reflexivity].
    rewrite IH.
    replace (chunk_num + 1 + len done) with (chunk_num + len (chunk :: done))
      by (unfold len; cbn [List.length]; lia).
    reflexivity.
Qed.

(** [process_file] on a new document, up to the loop over its chunks. *)
Lemma process_file_loop (name content : str) (chunks : list str) (w : world) :
  Ingest.supabase G = true ->
  read_text R (trace w) name = Ok content ->
  truthy (strip content) = true ->
  table_fault R (trace w ++ [OpenRead name]) = None ->
  filter (fun r => str_eqb (r_url r) (lit "file://" ++ name)) (site_pages w) = [] ->
  Ingest.chunk_text cfg content None = Ok chunks ->
  Ingest.process_file cfg lower R G extract_title name w
  = match Ingest.process_chunks cfg lower R G name (lit "file://" ++ name)
            (extract_title content name) (lit "markdown_file") (len chunks)
            chunks 0 0 (Ingest.looked_up name w) with
    | (Ok successful, w') => (Ok (successful >? 0), w')
    | (Raise e, w') => (Ok false, w')
    end.
Proof.
  intros HS Hread Hcontent Hfault Hnone Hchunks.
  unfold Ingest.process_file.
  unfold try_except at 1, bind at 1, request at 1.
  rewrite Hread, Hcontent, HS. cbn [negb].
  unfold bind at 1, try_except at 1, Ingest.select_url_eq, request at 1.
  cbn [trace site_pages]. rewrite Hfault, Hnone. cbn [truthy].
  unfold bind at 1, lift at 1. rewrite Hchunks. unfold bind at 1.
  unfold Ingest.looked_up.
  match goal with
  | |- context [Ingest.process_chunks cfg lower R G ?n ?u ?t ?s ?tot ?cs ?i ?k ?w0] =>
      destruct (Ingest.process_chunks cfg lower R G n u t s tot cs i k w0)
        as [[counted|e] w']
  end; reflexivity.
Qed.

(** The loop is left by a [ValueError] at the chunk that follows [done]:
    [process_file] returns [False] in the world of that moment. *)
Lemma process_file_loop_aborted
      (name content : str) (done : list str) (chunk : str) (rest : list str)
      (w w_done w_end : world) (counted : Z) (msg : str) :
  let url := lit "file://" ++ name in
  let total := len (done ++ chunk :: rest) in
  Ingest.supabase G = true ->
  read_text R (trace w) name = Ok content ->
  truthy (strip content) = true ->
  table_fault R (trace w ++ [OpenRead name]) = None ->
  filter (fun r => str_eqb (r_url r) url) (site_pages w) = [] ->
  Ingest.chunk_text cfg content None = Ok (done ++ chunk :: rest) ->
  Ingest.process_chunks cfg lower R G name url (extract_title content name)
                        (lit "markdown_file") total done 0 0
                        (Ingest.looked_up name w)
  = (Ok counted, w_done) ->
  Ingest.process_chunk cfg lower R G name url (extract_title content name)
                       (lit "markdown_file") total (len done) chunk counted w_done
  = (Raise (ValueError msg), w_end) ->
  Ingest.process_file cfg lower R G extract_title name w = (Ok false, w_end).
Proof.
  intros url total HS Hread Hcontent Hfault Hnone Hchunks Hdone Hchunk.
  rewrite (process_file_loop name content (done ++ chunk :: rest) w
             HS Hread Hcontent Hfault Hnone Hchunks).
  fold url. fold total. rewrite process_chunks_app, Hdone.
  cbn [Ingest.process_chunks]. unfold bind at 1.
  rewrite Z.add_0_l, Hchunk. reflexivity.
Qed.

(** [process_file] catches every exception. *)
Lemma process_file_total (name : str) (w : world) :
  exists (ok : bool) (w' : world),
    Ingest.process_file cfg lower R G extract_title name w = (Ok ok, w').
Proof.
  unfold Ingest.process_file, try_except, ret.
  match goal with |- context [match ?m w with _ => _ end] => destruct (m w) as [[ok|e] w'] end;
    eauto.
Qed.

Lemma process_files_total (files : list str) :
  forall (successful failed : Z) (w : world),
  exists (counts : Z * Z) (w' : world),
    Ingest.process_files cfg lower R G extract_title files successful failed w
    = (Ok counts, w')
    /\ fst counts + snd counts = successful + failed + len files.
Proof.
  induction files as [|f files IH]; intros successful failed w;
    cbn [Ingest.process_files].
  - exists (successful, failed), w. split; [reflexivity|].
    unfold len. cbn [fst snd List.length]. lia.
  - unfold bind. destruct (process_file_total f w) as [ok [w' ->]].
    destruct ok.
    + destruct (IH (successful + 1) failed w') as [counts [w'' [-> Hc]]].
      exists counts, w''. split; [reflexivity|].
      unfold len in *. cbn [List.length]. lia.
    + destruct (IH successful (failed + 1) w') as [counts [w'' [-> Hc]]].
      exists counts, w''. split; [reflexivity|].
      unfold len in *. cbn [List.length]. lia.
Qed.

Lemma main_total (data_dir : option (list str)) (w : world) :
  exists w' : world,
    Ingest.main cfg lower R G extract_title data_dir w = (Ok tt, w').
Proof.
  unfold Ingest.main. destruct data_dir as [files|]; [|unfold ret; eauto].
  destruct (truthy files); cbn [negb]; [|unfold ret; eauto].
  unfold bind at 1.
  destruct (process_files_total files 0 0 w) as [counts [w' [-> _]]].
  unfold bind at 1, emit at 1. unfold try_except.
  match goal with |- context [match ?m ?x with _ => _ end] => destruct (m x) as [[[]|e] w''] end;
    unfold ret; eauto.
Qed.

End IngestionErrors.

(** Once the checks of the setup have passed, the script exits with 0. *)
Lemma script_exit_status (cfg : config) (lower : str -> str) (R : remote)
      (extract_title : str -> str -> str) (getenv : string -> option str)
      (data_dir : option (list str)) (w w1 : world) :
  Ingest.setup_checks lower R getenv w = (Ok true, w1) ->
  fst (Ingest.script cfg lower R extract_title getenv data_dir w) = 0.
Proof.
  intros Hsetup. unfold Ingest.script. rewrite Hsetup.
  destruct (main_total cfg lower R
              {| Ingest.openai_client := true; Ingest.supabase := true |}
              extract_title data_dir w1) as [w' ->].
  reflexivity.
Qed.

(** C5, as the code has it. In the ingestion path a remote embedding error
    is raised by [get_embedding] as a [ValueError] with one of five
    messages (key, quota, rate limit, model not found, other), never turned
    into a vector. The error ends the file being processed, at whichever
    chunk it occurs: the loop is left at once, nothing is inserted for the
    chunk or for the chunks after it, the table stays as the chunks before
    it left it, and [process_file] returns [False]. [process_file] raises
    nothing, so [main] counts the file as failed and goes on with the next
    one and, once the setup checks have passed, the script exits with
    status 0. *)
Theorem ingestion_embedding_error
        (cfg : config) (lower : str -> str) (R : remote) (G : Ingest.clients)
        (extract_title : str -> str -> str) :
  (forall e : exn,
      exists msg : str,
        Ingest.embedding_error cfg lower e = ValueError msg
        /\ (msg = lines ["❌ Invalid OpenAI API key";
                         "💡 Get a new key from https://platform.openai.com/api-keys";
                         "   Make sure it starts with 'sk-' and is set in .env file"]%string
            \/ msg = lines ["❌ OpenAI account has insufficient quota";
                            "💡 Add a payment method at https://platform.openai.com/account/billing";
                            "   Free tier gives $5 credit to start"]%string
            \/ msg = lines ["❌ OpenAI rate limit exceeded";
                            "💡 Wait a few minutes and try again";
                            "   The script will continue with remaining files"]%string
            \/ msg = lit "❌ Embedding model '" ++ EMBEDDING_MODEL cfg
                     ++ lines ["' not found";
                               "💡 Check config.py and verify the model name is correct"]%string
            \/ msg = lit "❌ Error getting embedding: " ++ str_of_exn e ++ [NL]
                     ++ lit "💡 Check your OpenAI API key and account status"))
  /\ (forall (text : str) (w : world) (e : exn),
        Ingest.openai_client G = true ->
        embeddings_create R (trace w) (EMBEDDING_MODEL cfg) text = Raise e ->
        fst (Ingest.get_embedding cfg lower R G text w)
        = Raise (Ingest.embedding_error cfg lower e))
  /\ (forall (name url title source : str) (total chunk_num successful : Z)
             (chunk : str) (rest : list str) (w : world) (e : exn),
        Ingest.openai_client G = true ->
        embeddings_create R (trace w) (EMBEDDING_MODEL cfg) chunk = Raise e ->
        Ingest.process_chunks cfg lower R G name url title source total
                              (chunk :: rest) chunk_num successful w
        = (Raise (Ingest.embedding_error cfg lower e),
           {| site_pages := site_pages w;
              trace := (trace w ++ [EmbeddingsCreate (EMBEDDING_MODEL cfg) chunk])
                         ++ [Ingest.summary_request cfg chunk] |}))
  /\ (forall (name content : str) (done : list str) (chunk : str)
             (rest : list str) (w w_done : world) (counted : Z) (e : exn),
        let url := lit "file://" ++ name in
        Ingest.openai_client G = true ->
        Ingest.supabase G = true ->
        read_text R (trace w) name = Ok content ->
        truthy (strip content) = true ->
        table_fault R (trace w ++ [OpenRead name]) = None ->
        filter (fun r => str_eqb (r_url r) url) (site_pages w) = [] ->
        Ingest.chunk_text cfg content None = Ok (done ++ chunk :: rest) ->
        Ingest.process_chunks cfg lower R G name url (extract_title content name)
                              (lit "markdown_file") (len (done ++ chunk :: rest))
                              done 0 0 (Ingest.looked_up name w)
        = (Ok counted, w_done) ->
        embeddings_create R (trace w_done) (EMBEDDING_MODEL cfg) chunk = Raise e ->
        Ingest.process_file cfg lower R G extract_title name w
        = (Ok false,
           {| site_pages := site_pages w_done;
              trace := (trace w_done
                          ++ [EmbeddingsCreate (EMBEDDING_MODEL cfg) chunk])
                         ++ [Ingest.summary_request cfg chunk] |}))
  /\ (forall (name : str) (w : world),
        exists (ok : bool) (w' : world),
          Ingest.process_file cfg lower R G extract_title name w = (Ok ok, w'))
  /\ (forall (file : str) (files : list str) (successful failed : Z)
             (w w' : world),
        Ingest.process_file cfg lower R G extract_title file w = (Ok false, w') ->
        Ingest.process_files cfg lower R G extract_title (file :: files)
                             successful failed w
        = Ingest.process_files cfg lower R G extract_title files
                               successful (failed + 1) w')
  /\ (forall (getenv : string -> option str) (data_dir : option (list str))
             (w w1 : world),
        Ingest.setup_checks lower R getenv w = (Ok true, w1) ->
        fst (Ingest.script cfg lower R extract_title getenv data_dir w) = 0).
Proof.
  split; [exact (embedding_error_classified cfg lower)|].
  split.
  { intros text w e HG He.
    now rewrite (get_embedding_raises cfg lower R G text w e HG He). }
  split.
  { intros name url title source total chunk_num successful chunk rest w e HG He.
    cbn [Ingest.process_chunks]. unfold bind at 1.
    now rewrite (process_chunk_embedding_error cfg lower R G name url title source
                   total chunk_num successful chunk w e HG He). }
  split.
  { intros name content done chunk rest w w_done counted e url
           HG HS Hread Hcontent Hfault Hnone Hchunks Hdone He.
    destruct (embedding_error_classified cfg lower e) as [msg [Hmsg _]].
    apply (process_file_loop_aborted cfg lower R G extract_title name content
             done chunk rest w w_done _ counted msg
             HS Hread Hcontent Hfault Hnone Hchunks Hdone).
    rewrite <- Hmsg.
    exact (process_chunk_embedding_error cfg lower R G name url
             (extract_title content name) (lit "markdown_file")
             (len (done ++ chunk :: rest)) (len done) counted chunk w_done e HG He). }
  split; [exact (process_file_total cfg lower R G extract_title)|].
  split.
  { intros file files successful failed w w' Hfile.
    cbn [Ingest.process_files]. unfold bind at 1. now rewrite Hfile. }
  intros getenv data_dir w w1.
  exact (script_exit_status cfg lower R extract_title getenv data_dir w w1).
Qed.

(** C5 refuted as stated. The setup passes, the embedding service answers
    every request with a rate-limit error and the directory holds two
    files: the first file fails, the second one is still opened and fails
    too, the report counts two failures, and the exit status is 0. *)
Lemma embedding_error_does_not_stop_the_run :
  let run := Ingest.script Scenario.cfg ascii_lower Scenario.embedding_rate_limited
               Scenario.filename_as_title Scenario.complete_env
               (Some [lit "a.md"; lit "b.md"]) Scenario.empty_world in
  fst (Ingest.get_embedding Scenario.cfg ascii_lower Scenario.embedding_rate_limited
                            Scenario.ready (lit "A note.") Scenario.empty_world)
  = Raise (ValueError (lines ["❌ OpenAI rate limit exceeded";
                              "💡 Wait a few minutes and try again";
                              "   The script will continue with remaining files"]%string))
  /\ fst run = 0
  /\ nth_error (trace (snd run)) 7 = Some (OpenRead (lit "a.md"))
  /\ nth_error (trace (snd run)) 11 = Some (OpenRead (lit "b.md"))
  /\ nth_error (trace (snd run)) 15 = Some (Report 0 2 2)
  /\ site_pages (snd run) = [].
Proof.
  vm_compute. repeat split; reflexivity.
Qed.

(** A note of three paragraphs, cut into three chunks, with an embedding
    service that fails on the second: the first chunk is stored, the file is
    reported as failed and the third chunk is never asked for. *)
Lemma ingestion_embedding_error_witness :
  let run := Ingest.process_file Scenario.small_cfg ascii_lower
               Scenario.embedding_fails_on_beta Scenario.ready
               Scenario.filename_as_title (lit "a.md") Scenario.empty_world in
  fst run = Ok false
  /\ map r_content (site_pages (snd run)) = [lit "alpha one"]
  /\ List.length (trace (snd run)) = 8%nat
  /\ nth_error (trace (snd run)) 7
     = Some (Ingest.summary_request Scenario.small_cfg (lit "beta two")).
Proof.
  intros run.
  pose proof (ingestion_embedding_error Scenario.small_cfg ascii_lower
                Scenario.embedding_fails_on_beta Scenario.ready
                Scenario.filename_as_title)
    as [_ [_ [_ [Hfile _]]]].
  specialize (Hfile (lit "a.md") Scenario.three_paragraphs [lit "alpha one"]
                    (lit "beta two") [lit "gamma"] Scenario.empty_world).
  cbn zeta in Hfile.
  match type of Hfile with
  | forall (w_done : world) (counted : Z) (e : exn),
      _ -> _ -> _ -> _ -> _ -> _ -> _ -> ?run_done = _ -> _ =>
      specialize (Hfile (snd run_done) 1 Scenario.rate_limited
                        eq_refl eq_refl eq_refl eq_refl eq_refl eq_refl
                        ltac:(vm_compute; reflexivity)
                        ltac:(vm_compute; reflexivity)
                        ltac:(vm_compute; reflexivity))
  end.
  unfold run. rewrite Hfile. vm_compute. repeat split; reflexivity.
Defined.

(** ** Retrieval *)

Section Retrieval.
Variable cfg : config.
Variable lower : str -> str.
Variable R : remote.

(** The call of the store never raises past its handler. *)
Lemma call_match_documents_ok (v : list float) (max_results : Z) (thr : float)
      (w : world) (data : list doc) :
  match_documents R (trace w) (site_pages w) v (max_results * 2) thr = Ok data ->
  fst (App.call_match_documents lower R v max_results thr w) = Ok (Some data).
Proof.
  intros H. unfold App.call_match_documents. eff. rewrite H. reflexivity.
Qed.

Lemma call_match_documents_failed (v : list float) (max_results : Z) (thr : float)
      (w : world) (e : exn) :
  match_documents R (trace w) (site_pages w) v (max_results * 2) thr = Raise e ->
  fst (App.call_match_documents lower R v max_results thr w) = Ok None.
Proof.
  intros H. unfold App.call_match_documents. eff. rewrite H.
  repeat match goal with
         | |- context [if ?b then _ else _] => destruct b
         end; reflexivity.
Qed.

Lemma call_match_documents_total (v : list float) (max_results : Z) (thr : float)
      (w : world) :
  exists (r : option (list doc)) (w' : world),
    App.call_match_documents lower R v max_results thr w = (Ok r, w').
Proof.
  unfold App.call_match_documents. eff.
  destruct (match_documents R (trace w) (site_pages w) v (max_results * 2) thr).
  - eauto.
  - repeat match goal with
           | |- context [if ?b then _ else _] => destruct b
           end; eauto.
Qed.

(** What [retrieve_relevant_documents] returns, from the vector that
    [get_embedding] gave and the world it left. *)
Lemma retrieve_unfold (query : str) (max_results : option Z) (thr : option float)
      (w w1 : world) (v : list float) :
  let mr := match max_results with Some n => n | None => 5 end in
  let th := match thr with Some x => x | None => 0.3%float end in
  App.get_embedding cfg lower R query w = (Ok v, w1) ->
  fst (App.retrieve_relevant_documents cfg lower R query max_results thr w)
  = Ok (match match_documents R (trace w1) (site_pages w1) v (mr * 2) th with
        | Ok data => App.select_documents data mr th
        | Raise _ => []
        end).
Proof.
  intros mr th Hv. unfold App.retrieve_relevant_documents.
  fold mr. fold th.
  unfold try_except at 1, bind at 1. rewrite Hv. unfold bind at 1.
  destruct (match_documents R (trace w1) (site_pages w1) v (mr * 2) th)
    as [data|e] eqn:Hm.
  - pose proof (call_match_documents_ok v mr th w1 data Hm) as Hc.
    destruct (App.call_match_documents lower R v mr th w1) as [r w2].
    cbn [fst] in Hc. subst r. reflexivity.
  - pose proof (call_match_documents_failed v mr th w1 e Hm) as Hc.
    destruct (App.call_match_documents lower R v mr th w1) as [r w2].
    cbn [fst] in Hc. subst r. reflexivity.
Qed.

Lemma retrieve_total (query : str) (max_results : option Z) (thr : option float)
      (w : world) :
  exists docs : list doc,
    fst (App.retrieve_relevant_documents cfg lower R query max_results thr w) = Ok docs.
Proof.
  destruct (query_embedding_total cfg lower R query w) as [v [w1 [Hv _]]].
  rewrite (retrieve_unfold query max_results thr w w1 v Hv). eauto.
Qed.

End Retrieval.

(** The fallback on a list none of whose candidates reaches the threshold. *)
Lemma select_documents_fallback (data : list doc) (max_results : Z) (thr : float) :
  data <> [] ->
  Forall (fun d => PrimFloat.leb thr (App.similarity d) = false) data ->
  App.select_documents data max_results thr = firstn 2 data.
Proof.
  intros Hne Hall. unfold App.select_documents.
  destruct data as [|d data]; [contradiction|]. cbn [truthy negb].
  replace (filter (fun d0 => PrimFloat.leb thr (App.similarity d0)) (d :: data))
    with (@nil doc).
  - reflexivity.
  - symmetry. induction Hall as [|x l Hx Hl IH]; [reflexivity|].
    cbn [filter]. rewrite Hx. destruct l as [|y l]; [reflexivity|].
    apply IH. discriminate.
Qed.

(** C4, as the code has it. [retrieve_relevant_documents] never raises.
    When the embedding of the query fails, [get_embedding] has returned the
    zero vector and the retrieval goes on with it: the result is what the
    store answers to the zero vector, filtered as usual, and it is empty
    when the call of the store fails or finds no candidate. *)
Theorem retrieve_never_raises
        (cfg : config) (lower : str -> str) (R : remote) (query : str)
        (max_results : option Z) (similarity_threshold : option float) (w : world) :
  (exists docs : list doc,
      fst (App.retrieve_relevant_documents cfg lower R query max_results
                                           similarity_threshold w) = Ok docs)
  /\ forall e : exn,
      embeddings_create R (trace w) (EMBEDDING_MODEL cfg) query = Raise e ->
      let mr := match max_results with Some n => n | None => 5 end in
      let th := match similarity_threshold with Some x => x | None => 0.3%float end in
      let asked := (trace w ++ [EmbeddingsCreate (EMBEDDING_MODEL cfg) query])
                     ++ [App.embedding_diagnostic lower e] in
      fst (App.retrieve_relevant_documents cfg lower R query max_results
                                           similarity_threshold w)
      = Ok (match match_documents R asked (site_pages w)
                                  (repeat 0%float 1536) (mr * 2) th with
            | Ok data => App.select_documents data mr th
            | Raise _ => []
            end).
Proof.
  split; [apply retrieve_total|].
  intros e He mr th asked.
  exact (retrieve_unfold cfg lower R query max_results similarity_threshold w _ _
                         (query_embedding_failure cfg lower R query w e He)).
Qed.

(** C4 refuted as stated. The embedding service rejects the key, the store
    answers the zero vector with the three candidates of the scenario, and
    the retrieval returns two of them. *)
Lemma retrieve_after_embedding_failure :
  embeddings_create Scenario.embedding_rejected [] (EMBEDDING_MODEL Scenario.cfg)
                    (lit "refund policy")
  = Raise Scenario.auth_failure
  /\ fst (App.retrieve_relevant_documents Scenario.cfg ascii_lower Scenario.embedding_rejected
            (lit "refund policy") None (Some 0.3%float) Scenario.empty_world)
     = Ok [Scenario.candidate 0.1; Scenario.candidate 0.15].
Proof.
  split; vm_compute; reflexivity.
Qed.

(** The theorem on that run, and on a run where the store fails too. *)
Lemma retrieve_never_raises_witness :
  fst (App.retrieve_relevant_documents Scenario.cfg ascii_lower Scenario.embedding_rejected
         (lit "refund policy") None (Some 0.3%float) Scenario.empty_world)
  = Ok (App.select_documents Scenario.refund_candidates 5 0.3%float)
  /\ fst (App.retrieve_relevant_documents Scenario.cfg ascii_lower
            (Scenario.constant_remote (Raise Scenario.auth_failure)
               (Ok (lit "A note.")) None (Raise Scenario.timeout) (lit "A note."))
            (lit "refund policy") None None Scenario.empty_world)
     = Ok [].
Proof.
  split.
  - exact (proj2 (retrieve_never_raises Scenario.cfg ascii_lower Scenario.embedding_rejected
                    (lit "refund policy") None (Some 0.3%float) Scenario.empty_world)
                 Scenario.auth_failure eq_refl).
  - exact (proj2 (retrieve_never_raises Scenario.cfg ascii_lower
                    (Scenario.constant_remote (Raise Scenario.auth_failure)
                       (Ok (lit "A note.")) None (Raise Scenario.timeout)
                       (lit "A note."))
                    (lit "refund policy") None None Scenario.empty_world)
                 Scenario.auth_failure eq_refl).
Defined.

(** C3, as the code has it. When the store finds candidates and none of
    them reaches the threshold, the retrieval returns the first two of the
    list in the order of the store (the only one when there is one): never
    none, never more than two. The code does not sort; when the list of the
    store is ranked, most similar first, the result is ranked too and no
    candidate left out is more similar than a candidate returned. *)
Theorem fallback_returns_first_two
        (cfg : config) (lower : str -> str) (R : remote) (query : str)
        (max_results : option Z) (similarity_threshold : option float)
        (w : world) (data : list doc) :
  let mr := match max_results with Some n => n | None => 5 end in
  let th := match similarity_threshold with Some x => x | None => 0.3%float end in
  (forall tr rows v, match_documents R tr rows v (mr * 2) th = Ok data) ->
  data <> [] ->
  Forall (fun d => PrimFloat.leb th (App.similarity d) = false) data ->
  fst (App.retrieve_relevant_documents cfg lower R query max_results
                                       similarity_threshold w)
  = Ok (firstn 2 data)
  /\ (1 <= List.length (firstn 2 data) <= 2)%nat
  /\ List.length (firstn 2 data) = Nat.min 2 (List.length data)
  /\ (StronglySorted App.at_least_as_similar data ->
      StronglySorted App.at_least_as_similar (firstn 2 data)
      /\ forall a b : doc,
          In a (firstn 2 data) -> In b (skipn 2 data) -> App.at_least_as_similar a b).
Proof.
  intros mr th Hstore Hne Hbelow. split; [|split; [|split]].
  - destruct (query_embedding_total cfg lower R query w) as [v [w1 [Hv _]]].
    rewrite (retrieve_unfold cfg lower R query max_results similarity_threshold w w1 v Hv).
    fold mr. fold th. rewrite Hstore.
    now rewrite (select_documents_fallback data mr th Hne Hbelow).
  - rewrite length_firstn. destruct data as [|d data]; [contradiction|].
    cbn [List.length]. lia.
  - apply length_firstn.
  - intros Hsorted. split.
    + destruct data as [|a [|b rest]]; cbn [firstn]; try assumption.
      inversion Hsorted as [|? ? _ Ha]; subst.
      inversion Ha as [|? ? Hab _]; subst.
      repeat constructor. exact Hab.
    + intros a b Ha Hb.
      destruct data as [|x [|y rest]]; cbn [firstn skipn] in Ha, Hb;
        try contradiction.
      inversion Hsorted as [|? ? Hrest Hx]; subst.
      inversion Hrest as [|? ? _ Hy]; subst.
      inversion Hx as [|? ? _ Hxr]; subst.
      destruct Ha as [<- | [<- | []]].
      * exact (proj1 (Forall_forall _ _) Hxr b Hb).
      * exact (proj1 (Forall_forall _ _) Hy b Hb).
Qed.

(** C3 refuted as stated, on the scenario of the specification: the store
    lists the similarities 0.1, 0.15, 0.05 and the threshold is 0.3; the
    result keeps the order of the store, 0.1 before 0.15, although the second
    is the more similar. With a single candidate the result has one entry. *)
Lemma fallback_keeps_the_order_of_the_store :
  fst (App.retrieve_relevant_documents Scenario.cfg ascii_lower Scenario.healthy
         (lit "refund policy") None (Some 0.3%float) Scenario.empty_world)
  = Ok [Scenario.candidate 0.1; Scenario.candidate 0.15]
  /\ PrimFloat.ltb 0.1 0.15 = true
  /\ fst (App.retrieve_relevant_documents Scenario.cfg ascii_lower Scenario.lone_store
            (lit "refund policy") None (Some 0.3%float) Scenario.empty_world)
     = Ok [Scenario.candidate 0.1].
Proof.
  split; [|split]; vm_compute; reflexivity.
Qed.

(** A ranked store: the two most similar candidates, most similar first. *)
Lemma fallback_returns_first_two_witness :
  fst (App.retrieve_relevant_documents Scenario.cfg ascii_lower Scenario.ranked_store
         (lit "refund policy") None (Some 0.3%float) Scenario.empty_world)
  = Ok [Scenario.candidate 0.15; Scenario.candidate 0.1].
Proof.
  apply (fallback_returns_first_two Scenario.cfg ascii_lower Scenario.ranked_store
           (lit "refund policy") None (Some 0.3%float) Scenario.empty_world
           Scenario.ranked_candidates).
  - intros tr rows v. reflexivity.
  - discriminate.
  - repeat constructor.
Defined.

(** ** Idempotent ingestion *)

Lemma str_eqb_eq (a : str) : forall b : str, str_eqb a b = true <-> a = b.
Proof.
  induction a as [|x a IH]; intros [|y b]; cbn [str_eqb]; split;
    try discriminate; try reflexivity.
  - intros H. apply andb_true_iff in H as [Hx Hr].
    apply N.eqb_eq in Hx. apply IH in Hr. now subst.
  - intros H. injection H as -> ->. apply andb_true_iff. split.
    + apply N.eqb_refl.
    + now apply IH.
Qed.

Lemma has_url_filter (url : str) (rows : list row) :
  Ingest.has_url url rows ->
  truthy (filter (fun r => str_eqb (r_url r) url) rows) = true.
Proof.
  intros [r [Hin Hr]].
  assert (In r (filter (fun r => str_eqb (r_url r) url) rows)) as Hf.
  { apply filter_In. split; [exact Hin|]. now apply str_eqb_eq. }
  destruct (filter _ rows); [contradiction | reflexivity].
Qed.

Lemma filter_has_url (url : str) (rows : list row) :
  truthy (filter (fun r => str_eqb (r_url r) url) rows) = true ->
  Ingest.has_url url rows.
Proof.
  intros H. destruct (filter _ rows) as [|r l] eqn:E; [discriminate|].
  assert (In r (filter (fun r => str_eqb (r_url r) url) rows)) as Hf
      by (rewrite E; now left).
  apply filter_In in Hf as [Hin Hr]. exists r. split; [exact Hin|].
  now apply str_eqb_eq.
Qed.

(** The message of the table's rejection is one that the handler of the
    insert recognises. *)
Lemma duplicate_message_recognised (lower : str -> str) :
  lowers_ascii lower ->
  contains (lit "duplicate key")
           (lower (lit "duplicate key value violates unique constraint")) = true.
Proof.
  intros Hlower. rewrite Hlower by (vm_compute; reflexivity).
  vm_compute. reflexivity.
Qed.

Section Idempotence.
Variable cfg : config.
Variable lower : str -> str.
Variable R : remote.
Variable G : Ingest.clients.
Variable extract_title : str -> str -> str.

Hypothesis lower_ascii : lowers_ascii lower.

(** A file whose identity is already in the table: one lookup, [True], and
    nothing else. *)
Lemma process_file_already_present (name content : str) (w : world) :
  let url := lit "file://" ++ name in
  Ingest.supabase G = true ->
  read_text R (trace w) name = Ok content ->
  truthy (strip content) = true ->
  table_fault R (trace w ++ [OpenRead name]) = None ->
  Ingest.has_url url (site_pages w) ->
  Ingest.process_file cfg lower R G extract_title name w
  = (Ok true,
     {| site_pages := site_pages w;
        trace := (trace w ++ [OpenRead name]) ++ [SelectUrlEq url] |}).
Proof.
  intros url HS Hread Hcontent Hfault Hrow.
  unfold Ingest.process_file.
  unfold try_except at 1, bind at 1, request at 1.
  rewrite Hread, Hcontent, HS. cbn [negb].
  unfold bind at 1, try_except at 1, Ingest.select_url_eq, request at 1.
  cbn [trace site_pages]. fold url. rewrite Hfault.
  rewrite (has_url_filter url (site_pages w) Hrow). reflexivity.
Qed.

(** The insert with its handler, when the table rejects the row as a
    duplicate or the raised exception says so: the counter goes up and the
    table is unchanged. *)
Lemma insert_duplicate (data : row) (successful : Z) (w : world) :
  (table_fault R (trace w) = None
   /\ existsb (Ingest.same_key data) (site_pages w) = true)
  \/ (exists e : exn,
        table_fault R (trace w) = Some e
        /\ (contains (lit "duplicate key") (lower (str_of_exn e))
            || contains (lit "unique constraint") (lower (str_of_exn e))) = true) ->
  try_except (bind (Ingest.insert R data) (fun _ => ret (successful + 1)))
             (Ingest.insert_failed lower successful) w
  = (Ok (successful + 1),
     {| site_pages := site_pages w; trace := trace w ++ [Insert data] |}).
Proof.
  intros [[Hf Hk] | [e [Hf Hm]]];
    unfold try_except, bind, Ingest.insert; rewrite Hf.
  - rewrite Hk. unfold Ingest.insert_failed. cbn [str_of_exn].
    rewrite (duplicate_message_recognised lower lower_ascii). reflexivity.
  - unfold Ingest.insert_failed. rewrite Hm. reflexivity.
Qed.

(** The insert of a row whose key is free, on a table that answers. *)
Lemma insert_fresh (data : row) (successful : Z) (w : world) :
  table_fault R (trace w) = None ->
  existsb (Ingest.same_key data) (site_pages w) = false ->
  try_except (bind (Ingest.insert R data) (fun _ => ret (successful + 1)))
             (Ingest.insert_failed lower successful) w
  = (Ok (successful + 1),
     {| site_pages := site_pages w ++ [data]; trace := trace w ++ [Insert data] |}).
Proof.
  intros Hf Hk. unfold try_except, bind, Ingest.insert. rewrite Hf, Hk. reflexivity.
Qed.

(** The insert with its handler on a table that answers: the row is added
    unless its key is there, and the counter goes up in both cases. *)
Lemma insert_on_working_table (data : row) (successful : Z) (w : world) :
  table_fault R (trace w) = None ->
  try_except (bind (Ingest.insert R data) (fun _ => ret (successful + 1)))
             (Ingest.insert_failed lower successful) w
  = (Ok (successful + 1),
     {| site_pages :=
          if existsb (Ingest.same_key data) (site_pages w) then site_pages w
          else site_pages w ++ [data];
        trace := trace w ++ [Insert data] |}).
Proof.
  intros Hf.
  destruct (existsb (Ingest.same_key data) (site_pages w)) eqn:Hk.
  - apply insert_duplicate. left. now split.
  - now apply insert_fresh.
Qed.

End Idempotence.

Section WorkingTable.
Variable cfg : config.
Variable lower : str -> str.
Variable R : remote.
Variable G : Ingest.clients.
Variable extract_title : str -> str -> str.

Hypothesis lower_ascii : lowers_ascii lower.

(** The table answers every request. *)
Hypothesis table_works : forall tr : list event, table_fault R tr = None.

(** [get_embedding] returns a vector or raises a [ValueError]; it does not
    touch the table. *)
Lemma get_embedding_outcome (text : str) (w : world) :
  exists w1 : world,
    site_pages w1 = site_pages w
    /\ ((exists v, Ingest.get_embedding cfg lower R G text w = (Ok v, w1))
        \/ (exists msg, Ingest.get_embedding cfg lower R G text w
                        = (Raise (ValueError msg), w1))).
Proof.
  unfold Ingest.get_embedding. destruct (Ingest.openai_client G); cbn [negb].
  - eff. destruct (embeddings_create R (trace w) (EMBEDDING_MODEL cfg) text) as [v|e].
    + eexists. split; [|left; eexists; reflexivity]. reflexivity.
    + destruct (embedding_error_classified cfg lower e) as [msg [-> _]].
      eexists. split; [|right; eexists; reflexivity]. reflexivity.
  - unfold raise. eexists. split; [|right; eexists; reflexivity]. reflexivity.
Qed.

(** One turn of the loop on a table that answers: no row is lost, and when
    the turn ends normally the counter went up by one and the table holds a
    row of the document. *)
Lemma process_chunk_working_table
      (name url title source : str) (total chunk_num : Z) (chunk : str)
      (successful : Z) (w : world) :
  (forall r0, In r0 (site_pages w) ->
              In r0 (site_pages (snd (Ingest.process_chunk cfg lower R G name url title
                                        source total chunk_num chunk successful w))))
  /\ (forall s',
        fst (Ingest.process_chunk cfg lower R G name url title source total chunk_num
                                  chunk successful w) = Ok s' ->
        s' = successful + 1
        /\ Ingest.has_url url
             (site_pages (snd (Ingest.process_chunk cfg lower R G name url title source
                                 total chunk_num chunk successful w)))).
Proof.
  destruct (Ingest.process_chunk cfg lower R G name url title source total chunk_num
                                 chunk successful w) as [r w'] eqn:E.
  cbn [fst snd]. unfold Ingest.process_chunk in E.
  unfold try_except at 1, bind at 1, gather in E.
  destruct (get_embedding_outcome chunk w) as [w1 [Hs1 [[v Hv] | [msg Hv]]]];
    rewrite Hv in E;
    destruct (get_summary_total cfg R G chunk w1) as [summary [w2 Hsum]];
    pose proof (get_summary_site_pages cfg R G chunk w1) as Hs2;
    rewrite Hsum in *; cbn [snd] in Hs2.
  - unfold bind at 1, Ingest.utcnow at 1 in E. unfold bind at 1 in E.
    rewrite (insert_on_working_table lower R lower_ascii _ successful w2
               (table_works _)) in E.
    unfold bind, emit, ret in E. cbn [trace site_pages] in E.
    rewrite Hs2, Hs1 in E. injection E as <- <-. cbn [site_pages]. split.
    + intros r0 Hin. destruct (existsb _ (site_pages w)); [exact Hin|].
      apply in_or_app. now left.
    + intros s' Hs'. injection Hs' as <-. split; [reflexivity|].
      destruct (existsb _ (site_pages w)) eqn:Hk.
      * apply existsb_exists in Hk as [r [Hin Hkey]].
        unfold Ingest.same_key in Hkey. apply andb_true_iff in Hkey as [Hu _].
        apply str_eqb_eq in Hu. cbn [Ingest.chunk_data r_url] in Hu.
        exists r. now split.
      * eexists. split; [apply in_or_app; right; now left|]. reflexivity.
  - unfold raise in E. injection E as <- <-. rewrite Hs2, Hs1. split.
    + intros r0 Hin. exact Hin.
    + intros s' Hs'. discriminate.
Qed.

(** The loop on a table that answers: no row is lost, and when it ends
    normally every chunk was counted and, if there was a chunk, the table
    holds a row of the document. *)
Lemma process_chunks_working_table
      (name url title source : str) (total : Z) (chunks : list str) :
  forall (chunk_num successful : Z) (w : world),
    (forall r0, In r0 (site_pages w) ->
                In r0 (site_pages (snd (Ingest.process_chunks cfg lower R G name url title
                                          source total chunks chunk_num successful w))))
    /\ (forall s',
          fst (Ingest.process_chunks cfg lower R G name url title source total chunks
                                     chunk_num successful w) = Ok s' ->
          s' = successful + len chunks
          /\ (chunks <> [] ->
              Ingest.has_url url
                (site_pages (snd (Ingest.process_chunks cfg lower R G name url title source
                                    total chunks chunk_num successful w))))).
Proof.
  induction chunks as [|chunk chunks IH]; intros chunk_num successful w;
    cbn [Ingest.process_chunks].
  - unfold ret. cbn [fst snd]. split; [auto|].
    intros s' Hs'. injection Hs' as <-. split; [|congruence].
    unfold len. cbn [List.length]. lia.
  - unfold bind.
    destruct (process_chunk_working_table name url title source total chunk_num
                                          chunk successful w) as [Hkeep Hok].
    destruct (Ingest.process_chunk cfg lower R G name url title source total chunk_num
                                   chunk successful w) as [[s1|e] w1];
      cbn [fst snd] in Hkeep, Hok.
    + destruct (IH (chunk_num + 1) s1 w1) as [Hkeep' Hok'].
      destruct (Hok s1 eq_refl) as [-> [r [Hin Hr]]].
      split.
      * intros r0 Hin0. apply Hkeep'. now apply Hkeep.
      * intros s' Hs'. destruct (Hok' s' Hs') as [-> _]. split.
        -- unfold len. cbn [List.length]. lia.
        -- intros _. exists r. split; [now apply Hkeep'|exact Hr].
    + cbn [fst snd]. split; [exact Hkeep|]. intros s' Hs'. discriminate.
Qed.

(** When [process_file] has returned [True], the table holds a row of the
    document, and it lost none. *)
Lemma process_file_true_has_url (name : str) (w : world) :
  fst (Ingest.process_file cfg lower R G extract_title name w) = Ok true ->
  Ingest.has_url (lit "file://" ++ name)
                 (site_pages (snd (Ingest.process_file cfg lower R G extract_title name w)))
  /\ Ingest.supabase G = true
  /\ exists content, read_text R (trace w) name = Ok content
                     /\ truthy (strip content) = true.
Proof.
  destruct (Ingest.process_file cfg lower R G extract_title name w) as [r w'] eqn:E.
  cbn [fst snd]. intros ->.
  unfold Ingest.process_file in E.
  unfold try_except at 1, bind at 1, request at 1 in E.
  destruct (read_text R (trace w) name) as [content|e]; [|discriminate E].
  destruct (truthy (strip content)) eqn:Hc; cbn [negb] in E; [|discriminate E].
  destruct (Ingest.supabase G); cbn [negb] in E; [|discriminate E].
  unfold bind at 1, try_except at 1, Ingest.select_url_eq, request at 1 in E.
  cbn [trace site_pages] in E. rewrite table_works in E.
  destruct (truthy (filter _ (site_pages w))) eqn:Hex.
  - unfold ret in E. injection E as <-. cbn [site_pages].
    split; [now apply filter_has_url|]. split; [reflexivity|]. eauto.
  - unfold bind at 1, lift at 1 in E.
    destruct (Ingest.chunk_text cfg content None) as [chunks|e0]; [|discriminate E].
    unfold bind at 1 in E.
    match type of E with
    | context [Ingest.process_chunks cfg lower R G ?n ?u ?t ?s ?tot ?cs ?i ?k ?w0] =>
        destruct (process_chunks_working_table n u t s tot cs i k w0) as [_ Hok];
        destruct (Ingest.process_chunks cfg lower R G n u t s tot cs i k w0) as [[s'|e] w'']
    end; cbn [fst snd] in Hok; [|discriminate E].
    unfold ret in E. injection E as Hpos <-.
    destruct (Hok s' eq_refl) as [-> Hurl].
    split; [|split; [reflexivity|eauto]].
    apply Hurl. intros Hnil. rewrite Hnil in Hpos. discriminate.
Qed.

End WorkingTable.

(** A chunk whose key is already in a table that answers: the turn counts
    it as a success and leaves the table as it was. *)
Lemma process_chunk_duplicate
      (cfg : config) (lower : str -> str) (R : remote) (G : Ingest.clients)
      (name url title source : str) (total chunk_num : Z) (chunk : str)
      (successful : Z) (w : world) (v : list float) :
  lowers_ascii lower ->
  (forall tr : list event, table_fault R tr = None) ->
  Ingest.openai_client G = true ->
  embeddings_create R (trace w) (EMBEDDING_MODEL cfg) chunk = Ok v ->
  (exists r, In r (site_pages w) /\ r_url r = url /\ r_chunk_number r = chunk_num) ->
  fst (Ingest.process_chunk cfg lower R G name url title source total chunk_num chunk
                            successful w) = Ok (successful + 1)
  /\ site_pages (snd (Ingest.process_chunk cfg lower R G name url title source total
                                           chunk_num chunk successful w))
     = site_pages w.
Proof.
  intros Hlower Hworks HG Hv [r [Hin [Hu Hn]]].
  destruct (Ingest.process_chunk cfg lower R G name url title source total chunk_num
                                 chunk successful w) as [res w'] eqn:E.
  cbn [fst snd]. unfold Ingest.process_chunk in E.
  unfold try_except at 1, bind at 1, gather in E.
  unfold Ingest.get_embedding in E. rewrite HG in E. cbn [negb] in E.
  unfold try_except at 1, request at 1 in E. rewrite Hv in E.
  match type of E with
  | context [Ingest.get_summary cfg R G chunk ?w1] =>
      destruct (get_summary_total cfg R G chunk w1) as [summary [w2 Hsum]];
      pose proof (get_summary_site_pages cfg R G chunk w1) as Hs2;
      rewrite Hsum in *; cbn [snd site_pages] in Hs2
  end.
  unfold bind at 1, Ingest.utcnow at 1 in E. unfold bind at 1 in E.
  rewrite (insert_on_working_table lower R Hlower _ successful w2 (Hworks _)) in E.
  match type of E with
  | context [existsb ?f (site_pages w2)] =>
      assert (existsb f (site_pages w2) = true) as Hk
  end.
  { apply existsb_exists. exists r. rewrite Hs2. split; [exact Hin|].
    unfold Ingest.same_key. cbn [Ingest.chunk_data r_url r_chunk_number].
    apply andb_true_iff. split.
    - apply str_eqb_eq. now symmetry.
    - apply Z.eqb_eq. now symmetry. }
  rewrite Hk in E. unfold bind, emit, ret in E. cbn [trace site_pages] in E.
  injection E as <- <-. cbn [site_pages]. now split.
Qed.

(** C2. Ingestion is idempotent. (1) When the lookup finds a row with the
    url of the file, [process_file] returns [True], inserts nothing and
    asks for no embedding. (2) A chunk whose key is already in the table is
    counted as a success and the table is unchanged; so is an insert whose
    exception mentions a duplicate key or a unique constraint. (3) On a
    table that answers, after a run of [process_file] that returned [True],
    a second run on the same file returns [True] and leaves the table as the
    first run left it. Where the message of the table's own rejection is
    read, [str.lower] is assumed to act on ASCII text as it does. *)
Theorem ingestion_is_idempotent
        (cfg : config) (lower : str -> str) (R : remote) (G : Ingest.clients)
        (extract_title : str -> str -> str) :
  (forall (name content : str) (w : world),
      Ingest.supabase G = true ->
      read_text R (trace w) name = Ok content ->
      truthy (strip content) = true ->
      table_fault R (trace w ++ [OpenRead name]) = None ->
      Ingest.has_url (lit "file://" ++ name) (site_pages w) ->
      Ingest.process_file cfg lower R G extract_title name w
      = (Ok true,
         {| site_pages := site_pages w;
            trace := (trace w ++ [OpenRead name])
                       ++ [SelectUrlEq (lit "file://" ++ name)] |}))
  /\ (forall (name url title source : str) (total chunk_num : Z) (chunk : str)
             (successful : Z) (w : world) (v : list float),
        lowers_ascii lower ->
        (forall tr : list event, table_fault R tr = None) ->
        Ingest.openai_client G = true ->
        embeddings_create R (trace w) (EMBEDDING_MODEL cfg) chunk = Ok v ->
        (exists r, In r (site_pages w) /\ r_url r = url
                   /\ r_chunk_number r = chunk_num) ->
        fst (Ingest.process_chunk cfg lower R G name url title source total chunk_num
                                  chunk successful w) = Ok (successful + 1)
        /\ site_pages (snd (Ingest.process_chunk cfg lower R G name url title source
                                                 total chunk_num chunk successful w))
           = site_pages w)
  /\ (forall (data : row) (successful : Z) (w : world) (e : exn),
        table_fault R (trace w) = Some e ->
        (contains (lit "duplicate key") (lower (str_of_exn e))
         || contains (lit "unique constraint") (lower (str_of_exn e))) = true ->
        try_except (bind (Ingest.insert R data) (fun _ => ret (successful + 1)))
                   (Ingest.insert_failed lower successful) w
        = (Ok (successful + 1),
           {| site_pages := site_pages w; trace := trace w ++ [Insert data] |}))
  /\ (lowers_ascii lower ->
      (forall tr : list event, table_fault R tr = None) ->
      forall (name content : str) (w : world),
        (forall tr : list event, read_text R tr name = Ok content) ->
        fst (Ingest.process_file cfg lower R G extract_title name w) = Ok true ->
        let w1 := snd (Ingest.process_file cfg lower R G extract_title name w) in
        Ingest.process_file cfg lower R G extract_title name w1
        = (Ok true,
           {| site_pages := site_pages w1;
              trace := (trace w1 ++ [OpenRead name])
                         ++ [SelectUrlEq (lit "file://" ++ name)] |})).
Proof.
  split; [|split; [|split; [|]]].
  - intros name content w. apply process_file_already_present.
  - intros name url title source total chunk_num chunk successful w v.
    apply process_chunk_duplicate.
  - intros data successful w e Hf Hm. unfold try_except, bind, Ingest.insert.
    rewrite Hf. unfold Ingest.insert_failed. rewrite Hm. reflexivity.
  - intros Hlower Hworks name content w Hread Hfirst w1.
    destruct (process_file_true_has_url cfg lower R G extract_title Hlower Hworks
                                        name w Hfirst)
      as [Hurl [HS [content' [Hr Hc]]]].
    rewrite Hread in Hr. injection Hr as <-.
    apply (process_file_already_present cfg lower R G extract_title name content w1);
      auto.
Qed.

(** Two runs on the same file with every collaborator answering: the first
    stores one row, the second returns [True] and stores nothing. *)
Lemma ingestion_is_idempotent_witness :
  let first := Ingest.process_file Scenario.cfg ascii_lower Scenario.healthy Scenario.ready
                 Scenario.filename_as_title (lit "a.md") Scenario.empty_world in
  let second := Ingest.process_file Scenario.cfg ascii_lower Scenario.healthy Scenario.ready
                  Scenario.filename_as_title (lit "a.md") (snd first) in
  fst first = Ok true
  /\ List.length (site_pages (snd first)) = 1%nat
  /\ fst second = Ok true
  /\ site_pages (snd second) = site_pages (snd first).
Proof.
  intros first second.
  assert (fst first = Ok true) as Hfirst by (vm_compute; reflexivity).
  split; [exact Hfirst|]. split; [vm_compute; reflexivity|].
  pose proof (proj2 (proj2 (proj2
                (ingestion_is_idempotent Scenario.cfg ascii_lower Scenario.healthy
                   Scenario.ready Scenario.filename_as_title)))
                (fun _ _ => eq_refl)
                (fun _ => eq_refl) (lit "a.md") (lit "A note.") Scenario.empty_world
                (fun _ => eq_refl) Hfirst) as Hsecond.
  unfold second, first. rewrite Hsecond. split; reflexivity.
Defined.

(* ===================================================================== *)
(** * Further properties of ingest.py *)
(* ===================================================================== *)

Section IngestionOutcomes.
Variable cfg : config.
Variable lower : str -> str.
Variable R : remote.
Variable G : Ingest.clients.
Variable extract_title : str -> str -> str.

(** The insert with its handler, whatever the table does: one request; the
    row is added and counted, or the table is unchanged and the result is
    the count or a [ValueError]. *)
Lemma guarded_insert_outcome (data : row) (successful : Z) (w : world) :
  exists (r : result Z) (w' : world),
    try_except (bind (Ingest.insert R data) (fun _ => ret (successful + 1)))
               (Ingest.insert_failed lower successful) w = (r, w')
    /\ trace w' = trace w ++ [Insert data]
    /\ (r = Ok (successful + 1) \/ exists msg, r = Raise (ValueError msg))
    /\ (site_pages w' = site_pages w
        \/ (site_pages w' = site_pages w ++ [data] /\ r = Ok (successful + 1))).
Proof.
  unfold try_except, bind, Ingest.insert.
  destruct (table_fault R (trace w)) as [e|].
  - unfold Ingest.insert_failed.
    destruct (contains (lit "duplicate key") (lower (str_of_exn e))
              || contains (lit "unique constraint") (lower (str_of_exn e))).
    { unfold ret. do 2 eexists. split; [reflexivity|]. cbn [trace site_pages].
      split; [reflexivity|]. split; [now left | now left]. }
    destruct (contains (lit "permission denied") (lower (str_of_exn e)));
      unfold raise; do 2 eexists; (split; [reflexivity|]); cbn [trace site_pages];
      (split; [reflexivity|]); (split; [right; eexists; reflexivity | now left]).
  - destruct (existsb (Ingest.same_key data) (site_pages w)).
    + unfold Ingest.insert_failed.
      destruct (contains (lit "duplicate key") (lower _)
                || contains (lit "unique constraint") (lower _)).
      { unfold ret. do 2 eexists. split; [reflexivity|]. cbn [trace site_pages].
        split; [reflexivity|]. split; [now left | now left]. }
      destruct (contains (lit "permission denied") (lower _));
        unfold raise; do 2 eexists; (split; [reflexivity|]); cbn [trace site_pages];
        (split; [reflexivity|]); (split; [right; eexists; reflexivity | now left]).
    + unfold ret. do 2 eexists. split; [reflexivity|]. cbn [trace site_pages].
      split; [reflexivity|]. split; [now left | right; now split].
Qed.

(** One turn of the loop, whatever the collaborators do: the chunk is
    counted, or a [ValueError] leaves the loop; the table is unchanged or
    has gained the row of the chunk. *)
Lemma process_chunk_outcome
      (name url title source : str) (total chunk_num : Z) (chunk : str)
      (successful : Z) (w : world) :
  exists (r : result Z) (w' : world),
    Ingest.process_chunk cfg lower R G name url title source total chunk_num chunk
                         successful w = (r, w')
    /\ (r = Ok (successful + 1) \/ exists msg, r = Raise (ValueError msg))
    /\ (site_pages w' = site_pages w
        \/ exists v summary ingested_at,
            site_pages w'
            = site_pages w ++ [Ingest.chunk_data name url title source total
                                 chunk_num chunk v summary ingested_at]).
Proof.
  unfold Ingest.process_chunk.
  unfold try_except at 1, bind at 1, gather.
  destruct (get_embedding_outcome cfg lower R G chunk w) as [w1 [Hs1 [[v Hv] | [msg Hv]]]];
    rewrite Hv;
    destruct (get_summary_total cfg R G chunk w1) as [summary [w2 Hsum]];
    pose proof (get_summary_site_pages cfg R G chunk w1) as Hs2;
    rewrite Hsum in *; cbn [snd] in Hs2.
  - unfold bind at 1, Ingest.utcnow at 1. unfold bind at 1.
    match goal with
    | |- context [try_except (bind (Ingest.insert R ?d) _) _ w2] =>
        destruct (guarded_insert_outcome d successful w2)
          as [r [w3 [-> [_ [Hr Hp]]]]]
    end.
    destruct Hr as [-> | [msg ->]].
    + unfold bind, emit, ret. do 2 eexists. split; [reflexivity|].
      cbn [site_pages]. split; [now left|].
      destruct Hp as [Hp | [Hp _]]; rewrite Hp, Hs2, Hs1; [now left|].
      right. eauto.
    + unfold raise. do 2 eexists. split; [reflexivity|].
      split; [right; eauto|].
      destruct Hp as [Hp | [_ Hp]]; [|discriminate Hp].
      rewrite Hp, Hs2, Hs1. now left.
  - unfold raise. do 2 eexists. split; [reflexivity|].
    split; [right; eauto|]. rewrite Hs2, Hs1. now left.
Qed.

End IngestionOutcomes.

Section IngestionLoop.
Variable cfg : config.
Variable lower : str -> str.
Variable R : remote.
Variable G : Ingest.clients.
Variable extract_title : str -> str -> str.

(** The loop, whatever the collaborators do: it counts every chunk or is
    left by a [ValueError]; the rows it adds are rows of the document, at
    most one per chunk. *)
Lemma process_chunks_outcome
      (name url title source : str) (total : Z) (chunks : list str) :
  forall (chunk_num successful : Z) (w : world),
  exists (r : result Z) (w' : world) (added : list row),
    Ingest.process_chunks cfg lower R G name url title source total chunks
                          chunk_num successful w = (r, w')
    /\ (r = Ok (successful + len chunks) \/ exists msg, r = Raise (ValueError msg))
    /\ site_pages w' = site_pages w ++ added
    /\ (List.length added <= List.length chunks)%nat
    /\ Forall (fun d => r_url d = url /\ r_source d = source
                        /\ m_filename (r_metadata d) = name
                        /\ m_total_chunks (r_metadata d) = total
                        /\ m_chunk_size (r_metadata d) = len (r_content d)
                        /\ In (r_content d) chunks) added.
Proof.
  induction chunks as [|chunk chunks IH]; intros chunk_num successful w;
    cbn [Ingest.process_chunks].
  - unfold ret. exists (Ok successful), w, []. split; [reflexivity|].
    split; [left; unfold len; cbn [List.length]; f_equal; lia|].
    split; [now rewrite app_nil_r|]. split; [reflexivity | constructor].
  - unfold bind.
    destruct (process_chunk_outcome cfg lower R G name url title source total chunk_num
                                    chunk successful w)
      as [r1 [w1 [-> [Hr1 Hp1]]]].
    assert (exists added1,
               site_pages w1 = site_pages w ++ added1
               /\ (List.length added1 <= 1)%nat
               /\ Forall (fun d => r_url d = url /\ r_source d = source
                                   /\ m_filename (r_metadata d) = name
                                   /\ m_total_chunks (r_metadata d) = total
                                   /\ m_chunk_size (r_metadata d) = len (r_content d)
                                   /\ In (r_content d) (chunk :: chunks)) added1)
      as [added1 [Ha1 [Hl1 Hf1]]].
    { destruct Hp1 as [Hp1 | [v [summary [ts Hp1]]]].
      - exists []. rewrite app_nil_r. split; [exact Hp1|].
        split; [cbn; lia | constructor].
      - eexists. split; [exact Hp1|]. split; [cbn; lia|].
        constructor; [|constructor].
        cbn [Ingest.chunk_data r_url r_source r_metadata m_filename
             m_total_chunks m_chunk_size r_content].
        repeat split. now left. }
    destruct Hr1 as [-> | [msg ->]].
    + destruct (IH (chunk_num + 1) (successful + 1) w1)
        as [r [w' [added [-> [Hr [Ha [Hl Hf]]]]]]].
      exists r, w', (added1 ++ added). split; [reflexivity|]. split.
      * destruct Hr as [-> | Hr]; [left | now right].
        unfold len. cbn [List.length]. f_equal. lia.
      * split; [rewrite Ha, Ha1; now rewrite app_assoc|].
        split; [rewrite length_app; cbn [List.length]; lia|].
        apply Forall_app. split; [exact Hf1|].
        eapply Forall_impl; [|exact Hf].
        intros d [H1 [H2 [H3 [H4 [H5 H6]]]]]. repeat split; auto. now right.
    + exists (Raise (ValueError msg)), w1, added1. split; [reflexivity|].
      split; [right; eauto|]. split; [exact Ha1|].
      split; [cbn [List.length]; lia | exact Hf1].
Qed.

End IngestionLoop.

(** X1. The loop over the chunks never skips a chunk silently: whatever the
    services answer, it ends with every chunk counted, or it is left by a
    [ValueError] (which [process_file] turns into [False]). *)
Theorem process_chunks_counts_every_chunk_or_aborts
        (cfg : config) (lower : str -> str) (R : remote) (G : Ingest.clients)
        (name url title source : str) (total : Z) (chunks : list str)
        (chunk_num successful : Z) (w : world) :
  fst (Ingest.process_chunks cfg lower R G name url title source total chunks
                             chunk_num successful w)
  = Ok (successful + len chunks)
  \/ exists msg : str,
      fst (Ingest.process_chunks cfg lower R G name url title source total chunks
                                 chunk_num successful w)
      = Raise (ValueError msg).
Proof.
  destruct (process_chunks_outcome cfg lower R G name url title source total chunks
                                   chunk_num successful w)
    as [r [w' [added [-> [[-> | [msg ->]] _]]]]];
    [now left | right; exists msg; reflexivity].
Qed.

(** X2. A file that cannot be read, or that holds nothing but whitespace,
    is reported as failed at once: the table is not asked anything and no
    embedding or summary is requested. *)
Theorem process_file_skips_unusable_file
        (cfg : config) (lower : str -> str) (R : remote) (G : Ingest.clients)
        (extract_title : str -> str -> str) (name : str) (w : world) :
  (exists e, read_text R (trace w) name = Raise e)
  \/ (exists content, read_text R (trace w) name = Ok content
                      /\ truthy (strip content) = false) ->
  Ingest.process_file cfg lower R G extract_title name w
  = (Ok false, {| site_pages := site_pages w; trace := trace w ++ [OpenRead name] |}).
Proof.
  intros [[e He] | [content [Hc Hblank]]];
    unfold Ingest.process_file;
    unfold try_except at 1, bind at 1, request at 1.
  - rewrite He. reflexivity.
  - rewrite Hc, Hblank. reflexivity.
Qed.

(** A file of blank lines, and a file that cannot be opened. *)
Lemma process_file_skips_unusable_file_witness :
  Ingest.process_file Scenario.cfg ascii_lower
    (Scenario.constant_remote (Ok Scenario.an_embedding) (Ok (lit "A note.")) None
                              (Ok []) (repeat NL 3))
    Scenario.ready Scenario.filename_as_title (lit "blank.md") Scenario.empty_world
  = (Ok false, {| site_pages := []; trace := [OpenRead (lit "blank.md")] |}).
Proof.
  apply (process_file_skips_unusable_file Scenario.cfg ascii_lower
           (Scenario.constant_remote (Ok Scenario.an_embedding) (Ok (lit "A note."))
                                     None (Ok []) (repeat NL 3))
           Scenario.ready Scenario.filename_as_title (lit "blank.md")
           Scenario.empty_world).
  right. exists (repeat NL 3). split; reflexivity.
Defined.

(** X3. When the lookup of the url fails, for whatever reason, the file is
    reported as failed after that one request: no chunk is embedded,
    summarised or inserted. The same holds, without any request to the
    table, when the Supabase client was never created. *)
Theorem process_file_lookup_failure
        (cfg : config) (lower : str -> str) (R : remote) (G : Ingest.clients)
        (extract_title : str -> str -> str) (name content : str) (w : world) :
  read_text R (trace w) name = Ok content ->
  truthy (strip content) = true ->
  (Ingest.supabase G = false ->
   Ingest.process_file cfg lower R G extract_title name w
   = (Ok false, {| site_pages := site_pages w; trace := trace w ++ [OpenRead name] |}))
  /\ (forall e : exn,
        Ingest.supabase G = true ->
        table_fault R (trace w ++ [OpenRead name]) = Some e ->
        Ingest.process_file cfg lower R G extract_title name w
        = (Ok false,
           {| site_pages := site_pages w;
              trace := (trace w ++ [OpenRead name])
                         ++ [SelectUrlEq (lit "file://" ++ name)] |})).
Proof.
  intros Hread Hcontent. split.
  - intros HS. unfold Ingest.process_file.
    unfold try_except at 1, bind at 1, request at 1.
    rewrite Hread, Hcontent, HS. reflexivity.
  - intros e HS Hfault. unfold Ingest.process_file.
    unfold try_except at 1, bind at 1, request at 1.
    rewrite Hread, Hcontent, HS. cbn [negb].
    unfold bind at 1, try_except at 1, Ingest.select_url_eq, request at 1.
    cbn [trace site_pages]. rewrite Hfault.
    destruct (contains (lit "relation") (lower (str_of_exn e))
              && contains (lit "does not exist") (lower (str_of_exn e)));
      [reflexivity|].
    destruct (contains (lit "permission denied") (lower (str_of_exn e))
              || contains (lit "row-level security") (lower (str_of_exn e)));
      reflexivity.
Qed.

(** The table is missing: one lookup, then [False]. *)
Lemma process_file_lookup_failure_witness :
  let missing := OtherError (lit "relation public.site_pages does not exist") in
  let R := Scenario.constant_remote (Ok Scenario.an_embedding) (Ok (lit "A note."))
                                    (Some missing) (Ok []) (lit "A note.") in
  Ingest.process_file Scenario.cfg ascii_lower R Scenario.ready Scenario.filename_as_title
                      (lit "a.md") Scenario.empty_world
  = (Ok false,
     {| site_pages := [];
        trace := [OpenRead (lit "a.md"); SelectUrlEq (lit "file://a.md")] |}).
Proof.
  intros missing R.
  exact (proj2 (process_file_lookup_failure Scenario.cfg ascii_lower R Scenario.ready
                  Scenario.filename_as_title (lit "a.md") (lit "A note.")
                  Scenario.empty_world eq_refl eq_refl)
               missing eq_refl eq_refl).
Defined.

(** X4. Whatever the services answer, [process_file] returns a boolean and
    only ever appends to the table: the rows that were there are kept, in
    place, and each row added carries the url of the file, the source tag
    [markdown_file], the file name and the size of its content. *)
Theorem process_file_only_appends
        (cfg : config) (lower : str -> str) (R : remote) (G : Ingest.clients)
        (extract_title : str -> str -> str) (name : str) (w : world) :
  exists (ok : bool) (w' : world) (added : list row),
    Ingest.process_file cfg lower R G extract_title name w = (Ok ok, w')
    /\ site_pages w' = site_pages w ++ added
    /\ Forall (fun d => r_url d = lit "file://" ++ name
                        /\ r_source d = lit "markdown_file"
                        /\ m_filename (r_metadata d) = name
                        /\ m_chunk_size (r_metadata d) = len (r_content d)) added.
Proof.
  unfold Ingest.process_file.
  unfold try_except at 1, bind at 1, request at 1.
  destruct (read_text R (trace w) name) as [content|e].
  2:{ exists false. eexists. exists []. split; [reflexivity|].
      cbn [site_pages]. rewrite app_nil_r. split; [reflexivity | constructor]. }
  destruct (truthy (strip content)); cbn [negb].
  2:{ exists false. eexists. exists []. split; [reflexivity|].
      cbn [site_pages]. rewrite app_nil_r. split; [reflexivity | constructor]. }
  destruct (Ingest.supabase G); cbn [negb].
  2:{ exists false. eexists. exists []. split; [reflexivity|].
      cbn [site_pages]. rewrite app_nil_r. split; [reflexivity | constructor]. }
  unfold bind at 1, try_except at 1, Ingest.select_url_eq, request at 1.
  cbn [trace site_pages].
  destruct (table_fault R (trace w ++ [OpenRead name])) as [e|].
  { destruct (contains (lit "relation") (lower (str_of_exn e))
              && contains (lit "does not exist") (lower (str_of_exn e)));
      [|destruct (contains (lit "permission denied") (lower (str_of_exn e))
                  || contains (lit "row-level security") (lower (str_of_exn e)))];
      exists false; eexists; exists []; (split; [reflexivity|]);
      cbn [site_pages]; rewrite app_nil_r; (split; [reflexivity | constructor]). }
  destruct (truthy (filter _ (site_pages w))).
  { exists true. eexists. exists []. split; [reflexivity|].
    cbn [site_pages]. rewrite app_nil_r. split; [reflexivity | constructor]. }
  unfold bind at 1, lift at 1.
  destruct (Ingest.chunk_text cfg content None) as [chunks|e].
  2:{ exists false. eexists. exists []. split; [reflexivity|].
      cbn [site_pages]. rewrite app_nil_r. split; [reflexivity | constructor]. }
  unfold bind at 1.
  match goal with
  | |- context [Ingest.process_chunks cfg lower R G ?n ?u ?t ?s ?tot ?cs ?i ?k ?w0] =>
      destruct (process_chunks_outcome cfg lower R G n u t s tot cs i k w0)
        as [r [w' [added [-> [Hr [Ha [_ Hf]]]]]]]
  end.
  cbn [site_pages] in Ha.
  assert (Forall (fun d => r_url d = lit "file://" ++ name
                           /\ r_source d = lit "markdown_file"
                           /\ m_filename (r_metadata d) = name
                           /\ m_chunk_size (r_metadata d) = len (r_content d)) added)
    as Hrows.
  { eapply Forall_impl; [|exact Hf]. intros d [H1 [H2 [H3 [_ [H5 _]]]]]. auto. }
  destruct Hr as [-> | [msg ->]]; unfold ret; do 2 eexists; exists added;
    (split; [reflexivity|]); now split.
Qed.

(** A refused insert ends the turn of the loop with a [ValueError], right
    after the request; nothing is added. *)
Lemma process_chunk_insert_failure
      (cfg : config) (lower : str -> str) (R : remote) (G : Ingest.clients)
      (name url title source : str) (total chunk_num successful : Z)
      (chunk : str) (w : world) (v : list float) (e : exn) :
  let asked := (trace w ++ [EmbeddingsCreate (EMBEDDING_MODEL cfg) chunk])
                 ++ [Ingest.summary_request cfg chunk] in
  Ingest.openai_client G = true ->
  embeddings_create R (trace w) (EMBEDDING_MODEL cfg) chunk = Ok v ->
  table_fault R asked = Some e ->
  (contains (lit "duplicate key") (lower (str_of_exn e))
   || contains (lit "unique constraint") (lower (str_of_exn e))) = false ->
  exists msg summary : str,
    Ingest.process_chunk cfg lower R G name url title source total chunk_num chunk
                         successful w
    = (Raise (ValueError msg),
       {| site_pages := site_pages w;
          trace := asked ++ [Insert (Ingest.chunk_data name url title source total
                                       chunk_num chunk v summary
                                       (utcnow_isoformat R asked))] |})
    /\ (msg = lines ["❌ Permission denied inserting into Supabase";
                     "💡 Make sure you're using the Service Role Key (not anon key)";
                     "   Get it from: Settings → API → Service Role Key"]%string
        \/ msg = lit "❌ Error inserting chunk: " ++ str_of_exn e ++ [NL]
                 ++ lit "💡 Check your Supabase credentials and table structure").
Proof.
  intros asked HG Hv Hfault Hnodup. unfold Ingest.process_chunk.
  unfold try_except at 1, bind at 1, gather.
  unfold Ingest.get_embedding. rewrite HG. cbn [negb].
  unfold try_except at 1, request at 1. rewrite Hv.
  destruct (get_summary_request cfg R G chunk
              {| site_pages := site_pages w;
                 trace := trace w ++ [EmbeddingsCreate (EMBEDDING_MODEL cfg) chunk] |}
              HG) as [summary ->].
  cbn [site_pages trace]. fold asked.
  unfold bind at 1, Ingest.utcnow at 1. unfold bind at 1.
  unfold try_except at 1, bind at 1, Ingest.insert at 1.
  cbn [trace site_pages]. rewrite Hfault.
  unfold Ingest.insert_failed. rewrite Hnodup.
  destruct (contains (lit "permission denied") (lower (str_of_exn e)));
    unfold raise; eexists; exists summary; (split; [reflexivity|]);
    [left | right]; reflexivity.
Qed.

(** X5. An insert that fails for a reason other than a duplicate key ends
    the file, at whichever chunk it occurs: the loop is left by a
    [ValueError] (permission denied, or the generic message that quotes the
    error) right after the refused insert, so the later chunks are neither
    embedded nor inserted; the table stays as the chunks before it left it
    and [process_file] returns [False]. *)
Theorem insert_failure_aborts_file
        (cfg : config) (lower : str -> str) (R : remote) (G : Ingest.clients)
        (extract_title : str -> str -> str)
        (name content : str) (done : list str) (chunk : str) (rest : list str)
        (w w_done : world) (counted : Z) (v : list float) (e : exn) :
  let url := lit "file://" ++ name in
  let title := extract_title content name in
  let total := len (done ++ chunk :: rest) in
  let asked := (trace w_done ++ [EmbeddingsCreate (EMBEDDING_MODEL cfg) chunk])
                 ++ [Ingest.summary_request cfg chunk] in
  Ingest.openai_client G = true ->
  Ingest.supabase G = true ->
  read_text R (trace w) name = Ok content ->
  truthy (strip content) = true ->
  table_fault R (trace w ++ [OpenRead name]) = None ->
  filter (fun r => str_eqb (r_url r) url) (site_pages w) = [] ->
  Ingest.chunk_text cfg content None = Ok (done ++ chunk :: rest) ->
  Ingest.process_chunks cfg lower R G name url title (lit "markdown_file") total
                        done 0 0 (Ingest.looked_up name w)
  = (Ok counted, w_done) ->
  embeddings_create R (trace w_done) (EMBEDDING_MODEL cfg) chunk = Ok v ->
  table_fault R asked = Some e ->
  (contains (lit "duplicate key") (lower (str_of_exn e))
   || contains (lit "unique constraint") (lower (str_of_exn e))) = false ->
  exists msg summary : str,
    let data := Ingest.chunk_data name url title (lit "markdown_file") total
                                  (len done) chunk v summary
                                  (utcnow_isoformat R asked) in
    let w_end := {| site_pages := site_pages w_done;
                    trace := asked ++ [Insert data] |} in
    Ingest.process_chunks cfg lower R G name url title (lit "markdown_file") total
                          (chunk :: rest) (len done) counted w_done
    = (Raise (ValueError msg), w_end)
    /\ Ingest.process_file cfg lower R G extract_title name w = (Ok false, w_end)
    /\ (msg = lines ["❌ Permission denied inserting into Supabase";
                     "💡 Make sure you're using the Service Role Key (not anon key)";
                     "   Get it from: Settings → API → Service Role Key"]%string
        \/ msg = lit "❌ Error inserting chunk: " ++ str_of_exn e ++ [NL]
                 ++ lit "💡 Check your Supabase credentials and table structure").
Proof.
  intros url title total asked HG HS Hread Hcontent Hfault Hnone Hchunks Hdone
         Hv Hinsert Hnodup.
  destruct (process_chunk_insert_failure cfg lower R G name url title
              (lit "markdown_file") total (len done) counted chunk w_done v e
              HG Hv Hinsert Hnodup) as [msg [summary [Hchunk Hmsg]]].
  exists msg, summary. cbn zeta. split; [|split; [|exact Hmsg]].
  - cbn [Ingest.process_chunks]. unfold bind at 1. now rewrite Hchunk.
  - exact (process_file_loop_aborted cfg lower R G extract_title name content
             done chunk rest w w_done _ counted msg
             HS Hread Hcontent Hfault Hnone Hchunks Hdone Hchunk).
Qed.

(** A note of three paragraphs and a key that may not write any more after
    the first insert: the first chunk is stored, the second insert ends the
    file, and the third chunk is never embedded. *)
Lemma insert_failure_aborts_file_witness :
  let run := Ingest.process_file Scenario.small_cfg ascii_lower
               Scenario.insert_fails_on_second Scenario.ready
               Scenario.filename_as_title (lit "a.md") Scenario.empty_world in
  fst run = Ok false
  /\ map r_content (site_pages (snd run)) = [lit "alpha one"]
  /\ List.length (trace (snd run)) = 9%nat.
Proof.
  intros run.
  pose proof (insert_failure_aborts_file Scenario.small_cfg ascii_lower
                Scenario.insert_fails_on_second Scenario.ready
                Scenario.filename_as_title (lit "a.md") Scenario.three_paragraphs
                [lit "alpha one"] (lit "beta two") [lit "gamma"]
                Scenario.empty_world) as H.
  cbn zeta in H.
  match type of H with
  | forall (w_done : world) (counted : Z) (v : list float) (e : exn),
      _ -> _ -> _ -> _ -> _ -> _ -> _ -> ?run_done = _ -> _ =>
      specialize (H (snd run_done) 1 Scenario.an_embedding
                    (OtherError (lit "permission denied for table site_pages"))
                    eq_refl eq_refl eq_refl eq_refl eq_refl eq_refl
                    ltac:(vm_compute; reflexivity)
                    ltac:(vm_compute; reflexivity)
                    ltac:(vm_compute; reflexivity)
                    ltac:(vm_compute; reflexivity)
                    ltac:(vm_compute; reflexivity))
  end.
  destruct H as [msg [summary [_ [Hfile _]]]].
  unfold run. rewrite Hfile. cbn [fst snd site_pages trace].
  split; [reflexivity|]. split; vm_compute; reflexivity.
Defined.

Section NewDocument.
Variable cfg : config.
Variable lower : str -> str.
Variable R : remote.
Variable G : Ingest.clients.
Variable extract_title : str -> str -> str.

Hypothesis table_works : forall tr : list event, table_fault R tr = None.
Hypothesis client_ready : Ingest.openai_client G = true.
Hypothesis embeddings_work :
  forall (tr : list event) (input : str),
  exists v, embeddings_create R tr (EMBEDDING_MODEL cfg) input = Ok v.

(** One turn of the loop when the key of the chunk is free. *)
Lemma process_chunk_stores
      (name url title source : str) (total chunk_num : Z) (chunk : str)
      (successful : Z) (w : world) :
  (forall r, In r (site_pages w) -> r_url r = url -> r_chunk_number r < chunk_num) ->
  exists (w' : world) (data : row),
    Ingest.process_chunk cfg lower R G name url title source total chunk_num chunk
                         successful w = (Ok (successful + 1), w')
    /\ site_pages w' = site_pages w ++ [data]
    /\ r_url data = url /\ r_chunk_number data = chunk_num
    /\ r_content data = chunk.
Proof.
  intros Hfree.
  unfold Ingest.process_chunk.
  unfold try_except at 1, bind at 1, gather.
  unfold Ingest.get_embedding. rewrite client_ready. cbn [negb].
  unfold try_except at 1, request at 1.
  destruct (embeddings_work (trace w) chunk) as [v ->].
  match goal with
  | |- context [Ingest.get_summary cfg R G chunk ?w1] =>
      destruct (get_summary_total cfg R G chunk w1) as [summary [w2 Hsum]];
      pose proof (get_summary_site_pages cfg R G chunk w1) as Hs2;
      rewrite Hsum in *; cbn [snd site_pages] in Hs2
  end.
  unfold bind at 1, Ingest.utcnow at 1. unfold bind at 1.
  match goal with
  | |- context [try_except (bind (Ingest.insert R ?d) _) _ w2] =>
      assert (existsb (Ingest.same_key d) (site_pages w2) = false) as Hk
  end.
  { destruct (existsb _ (site_pages w2)) eqn:Hk; [|reflexivity].
    apply existsb_exists in Hk as [r [Hin Hkey]]. rewrite Hs2 in Hin.
    unfold Ingest.same_key in Hkey.
    cbn [Ingest.chunk_data r_url r_chunk_number] in Hkey.
    apply andb_true_iff in Hkey as [Hu Hn].
    apply str_eqb_eq in Hu. apply Z.eqb_eq in Hn.
    specialize (Hfree r Hin (eq_sym Hu)). lia. }
  rewrite (insert_fresh lower R _ successful w2 (table_works _) Hk).
  unfold bind, emit, ret. cbn [trace site_pages].
  do 2 eexists. split; [reflexivity|]. cbn [site_pages]. rewrite Hs2.
  split; [reflexivity|]. cbn [Ingest.chunk_data r_url r_chunk_number r_content].
  now repeat split.
Qed.

(** The loop when the keys from [chunk_num] on are free: one row per chunk,
    in order, numbered from [chunk_num]. *)
Lemma process_chunks_stores
      (name url title source : str) (total : Z) (chunks : list str) :
  forall (chunk_num successful : Z) (w : world),
    (forall r, In r (site_pages w) -> r_url r = url -> r_chunk_number r < chunk_num) ->
    exists (w' : world) (added : list row),
      Ingest.process_chunks cfg lower R G name url title source total chunks
                            chunk_num successful w
      = (Ok (successful + len chunks), w')
      /\ site_pages w' = site_pages w ++ added
      /\ map r_content added = chunks
      /\ map r_chunk_number added
         = map (fun i => chunk_num + Z.of_nat i) (seq 0 (List.length chunks))
      /\ Forall (fun d => r_url d = url) added.
Proof.
  induction chunks as [|chunk chunks IH]; intros chunk_num successful w Hfree;
    cbn [Ingest.process_chunks].
  - unfold ret. exists w, []. split.
    + unfold len. cbn [List.length]. do 2 f_equal. lia.
    + rewrite app_nil_r. repeat split; constructor.
  - unfold bind.
    destruct (process_chunk_stores name url title source total chunk_num chunk
                                   successful w Hfree)
      as [w1 [data [-> [Hs1 [Hu [Hn Hc]]]]]].
    destruct (IH (chunk_num + 1) (successful + 1) w1)
      as [w' [added [-> [Hs [Hcs [Hns Hus]]]]]].
    { intros r Hin Hr. rewrite Hs1 in Hin.
      apply in_app_or in Hin as [Hin | [<- | []]].
      - specialize (Hfree r Hin Hr). lia.
      - lia. }
    exists w', (data :: added). split.
    + unfold len. cbn [List.length]. do 2 f_equal. lia.
    + split; [rewrite Hs, Hs1, <- app_assoc; reflexivity|].
      split; [cbn [map]; now rewrite Hc, Hcs|].
      split; [|now constructor].
      cbn [map List.length seq]. rewrite Hn, Hns. f_equal; [lia|].
      rewrite <- seq_shift, map_map. apply map_ext. intros i. lia.
Qed.

End NewDocument.

(** X6. A document that is not in the table yet, with the table and the
    embedding service answering, and a configured limit of magnitude below
    [2 ^ 1023]: [chunk_text] returns its chunks, [process_file] returns
    [True] and has appended exactly one row per chunk, in order, numbered
    0, 1, 2, ..., each with the url of the file and the text of its chunk
    as content. (A failing summary does not prevent it.) With a limit for
    which [chunk_text] raises, [process_file] returns [False] right after
    the lookup and stores nothing. *)
Theorem process_file_stores_every_chunk
        (cfg : config) (lower : str -> str) (R : remote) (G : Ingest.clients)
        (extract_title : str -> str -> str) (name content : str) (w : world) :
  (forall tr : list event, table_fault R tr = None) ->
  Ingest.openai_client G = true ->
  Ingest.supabase G = true ->
  (forall (tr : list event) (input : str),
      exists v, embeddings_create R tr (EMBEDDING_MODEL cfg) input = Ok v) ->
  read_text R (trace w) name = Ok content ->
  truthy (strip content) = true ->
  filter (fun r => str_eqb (r_url r) (lit "file://" ++ name)) (site_pages w) = [] ->
  (Z.abs (MAX_CHUNK_SIZE cfg) < 2 ^ 1023 ->
   exists (chunks : list str) (w' : world) (added : list row),
     Ingest.chunk_text cfg content None = Ok chunks
     /\ Ingest.process_file cfg lower R G extract_title name w = (Ok true, w')
     /\ site_pages w' = site_pages w ++ added
     /\ map r_content added = chunks
     /\ map r_chunk_number added = map Z.of_nat (seq 0 (List.length chunks))
     /\ Forall (fun d => r_url d = lit "file://" ++ name) added)
  /\ (forall e : exn,
        Ingest.chunk_text cfg content None = Raise e ->
        Ingest.process_file cfg lower R G extract_title name w
        = (Ok false, Ingest.looked_up name w)).
Proof.
  intros Hworks HG HS Hembed Hread Hcontent Hnew. split.
  - intros Hlimit.
    destruct (chunk_text_returns cfg content (MAX_CHUNK_SIZE cfg)) as [chunks Hchunks].
    { left. now apply float_of_int_small. }
    change (Ingest.chunk_text cfg content (Some (MAX_CHUNK_SIZE cfg)))
      with (Ingest.chunk_text cfg content None) in Hchunks.
    rewrite (process_file_loop cfg lower R G extract_title name content chunks w
               HS Hread Hcontent (Hworks _) Hnew Hchunks).
    destruct (process_chunks_stores cfg lower R G Hworks HG Hembed name
                (lit "file://" ++ name) (extract_title content name)
                (lit "markdown_file") (len chunks) chunks 0 0
                (Ingest.looked_up name w))
      as [w' [added [-> [Hs [Hcs [Hns Hus]]]]]].
    { cbn [Ingest.looked_up site_pages]. intros r Hin Hr. exfalso.
      assert (In r (filter (fun r => str_eqb (r_url r) (lit "file://" ++ name))
                           (site_pages w))) as Hf.
      { apply filter_In. split; [exact Hin|]. now apply str_eqb_eq. }
      rewrite Hnew in Hf. exact Hf. }
    cbn [Ingest.looked_up site_pages] in Hs.
    assert ((0 + len chunks >? 0) = true) as Hpos.
    { assert (chunks <> []) as Hne.
      { destruct (chunk_text_cases cfg content (MAX_CHUNK_SIZE cfg))
          as [[_ E] | [[_ [out [_ [Hne E]]]] | [[_ [_ E]] | [_ [e [_ E]]]]]];
          change (Ingest.chunk_text cfg content (Some (MAX_CHUNK_SIZE cfg)))
            with (Ingest.chunk_text cfg content None) in E;
          rewrite E in Hchunks; try discriminate; injection Hchunks as <-;
          [discriminate | exact Hne | discriminate]. }
      destruct chunks as [|c cs]; [contradiction|].
      unfold len. cbn [List.length]. apply Z.gtb_lt. lia. }
    rewrite Hpos. exists chunks, w', added. split; [exact Hchunks|].
    split; [reflexivity|]. split; [exact Hs|]. split; [exact Hcs|].
    split; [|exact Hus].
    rewrite Hns. apply map_ext. intros i. lia.
  - intros e Hraise. unfold Ingest.process_file.
    unfold try_except at 1, bind at 1, request at 1.
    rewrite Hread, Hcontent, HS. cbn [negb].
    unfold bind at 1, try_except at 1, Ingest.select_url_eq, request at 1.
    cbn [trace site_pages]. rewrite Hworks, Hnew. cbn [truthy].
    unfold bind at 1, lift at 1. rewrite Hraise. reflexivity.
Qed.

(** A note of three paragraphs with a limit of ten characters: three rows,
    numbered 0, 1, 2, with the paragraphs as contents. *)
Lemma process_file_stores_every_chunk_witness :
  exists w' added,
    Ingest.process_file Scenario.small_cfg ascii_lower Scenario.healthy_three
                        Scenario.ready Scenario.filename_as_title
                        (lit "a.md") Scenario.empty_world = (Ok true, w')
    /\ site_pages w' = added
    /\ map r_content added = [lit "alpha one"; lit "beta two"; lit "gamma"]
    /\ map r_chunk_number added = [0; 1; 2].
Proof.
  destruct (proj1 (process_file_stores_every_chunk Scenario.small_cfg ascii_lower
                     Scenario.healthy_three Scenario.ready
                     Scenario.filename_as_title (lit "a.md")
                     Scenario.three_paragraphs Scenario.empty_world
                     (fun _ => eq_refl) eq_refl eq_refl
                     (fun _ _ => ex_intro _ Scenario.an_embedding eq_refl)
                     eq_refl eq_refl eq_refl)
                  ltac:(vm_compute; reflexivity))
    as [chunks [w' [added [Hchunks [E [Hs [Hc [Hn _]]]]]]]].
  assert (chunks = [lit "alpha one"; lit "beta two"; lit "gamma"]) as ->.
  { assert (Ingest.chunk_text Scenario.small_cfg Scenario.three_paragraphs None
            = Ok [lit "alpha one"; lit "beta two"; lit "gamma"]) as Hc'
        by (vm_compute; reflexivity).
    rewrite Hc' in Hchunks. now injection Hchunks. }
  exists w', added. split; [exact E|]. split; [exact Hs|].
  split; [exact Hc | exact Hn].
Defined.

(** The counters of the loop over the files only grow, and each file adds
    one to exactly one of them. *)
Lemma process_files_counts
      (cfg : config) (lower : str -> str) (R : remote) (G : Ingest.clients)
      (extract_title : str -> str -> str) (files : list str) :
  forall (successful failed : Z) (w : world),
  exists (s f : Z) (w' : world),
    Ingest.process_files cfg lower R G extract_title files successful failed w
    = (Ok (s, f), w')
    /\ successful <= s /\ failed <= f
    /\ s + f = successful + failed + len files.
Proof.
  induction files as [|file files IH]; intros successful failed w;
    cbn [Ingest.process_files].
  - exists successful, failed, w. split; [reflexivity|].
    unfold len. cbn [List.length]. lia.
  - unfold bind.
    destruct (process_file_total cfg lower R G extract_title file w) as [ok [w1 ->]].
    destruct ok.
    + destruct (IH (successful + 1) failed w1) as [s [f [w' [-> H]]]].
      exists s, f, w'. split; [reflexivity|].
      unfold len in *. cbn [List.length]. lia.
    + destruct (IH successful (failed + 1) w1) as [s [f [w' [-> H]]]].
      exists s, f, w'. split; [reflexivity|].
      unfold len in *. cbn [List.length]. lia.
Qed.

(** X7. [main] accounts for every file exactly once: when the directory
    lists at least one file, the final report shows counts of successes and
    failures that add up to the number of files, whatever happened to each
    of them and even if the statistics that follow cannot be fetched; when
    the directory is missing or lists no file, [main] does nothing. *)
Theorem main_reports_every_file
        (cfg : config) (lower : str -> str) (R : remote) (G : Ingest.clients)
        (extract_title : str -> str -> str) (w : world) :
  Ingest.main cfg lower R G extract_title None w = (Ok tt, w)
  /\ Ingest.main cfg lower R G extract_title (Some []) w = (Ok tt, w)
  /\ forall (file : str) (files : list str),
      exists (s f : Z) (w' : world) (before after : list event),
        Ingest.main cfg lower R G extract_title (Some (file :: files)) w = (Ok tt, w')
        /\ trace w' = before ++ Report s f (len (file :: files)) :: after
        /\ 0 <= s /\ 0 <= f /\ s + f = len (file :: files).
Proof.
  split; [reflexivity|]. split; [reflexivity|].
  intros file files. unfold Ingest.main. cbn [truthy negb].
  unfold bind at 1.
  destruct (process_files_counts cfg lower R G extract_title (file :: files) 0 0 w)
    as [s [f [w1 [-> [Hs [Hf Hsum]]]]]].
  unfold bind at 1, emit at 1. cbn [fst snd].
  exists s, f.
  unfold try_except. destruct (Ingest.supabase G); cbn [negb].
  - unfold bind at 1, Ingest.select_all at 1, request at 1.
    cbn [trace site_pages].
    destruct (table_fault R (trace w1 ++ [Report s f (len (file :: files))])).
    + unfold ret. eexists. exists (trace w1). eexists.
      split; [reflexivity|]. cbn [trace].
      split; [rewrite <- app_assoc; reflexivity | lia].
    + unfold bind at 1, Ingest.select_all at 1, request at 1.
      cbn [trace site_pages].
      destruct (table_fault R _);
        unfold ret; eexists; exists (trace w1); eexists;
        (split; [reflexivity|]); cbn [trace];
        (split; [rewrite <- !app_assoc; reflexivity | lia]).
  - unfold raise, ret. eexists. exists (trace w1), [].
    split; [reflexivity|]. cbn [trace]. split; [reflexivity | lia].
Qed.

(** Closes a goal on the outcome of a check of the setup: the result, the
    table, the requests issued and their kind. *)
Ltac setup_done :=
  do 3 eexists; split; [reflexivity|]; cbn [site_pages trace];
  split; [reflexivity|];
  split; [first [symmetry; apply app_nil_r | rewrite <- ?app_assoc; reflexivity]
         | cbn [app]; repeat constructor].

Ltac handler_cases :=
  repeat match goal with
         | |- context [if ?b then _ else _] => destruct b
         end;
  setup_done.

Section SetupChecks.
Variable lower : str -> str.
Variable R : remote.
Variable getenv : string -> option str.

(** The check of the Supabase connection never raises, leaves the table as
    it is and only constructs a client and probes the table. *)
Lemma validate_supabase_connection_effects (w : world) :
  exists (r : bool * option str) (w' : world) (requests : list event),
    ValidateSetup.validate_supabase_connection lower R getenv w = (Ok r, w')
    /\ site_pages w' = site_pages w
    /\ trace w' = trace w ++ requests
    /\ Forall (fun ev => Ingest.setup_request ev = true) requests.
Proof.
  unfold ValidateSetup.validate_supabase_connection.
  destruct (ValidateSetup.unset _ || ValidateSetup.unset _).
  { unfold try_except, ret. setup_done. }
  unfold ValidateSetup.create_client, ValidateSetup.construct,
    ValidateSetup.select_limit. eff.
  destruct (client_fault R (trace w)) as [e|]; cbv beta iota.
  { handler_cases. }
  destruct (table_fault R _) as [e|]; cbv beta iota.
  { handler_cases. }
  destruct (table_fault R _) as [e|]; cbv beta iota.
  { destruct (contains _ _ && contains _ _); setup_done. }
  setup_done.
Qed.

(** So does the check of the OpenAI connection, which constructs a client
    and lists the models. *)
Lemma validate_openai_connection_effects (w : world) :
  exists (r : bool * option str) (w' : world) (requests : list event),
    ValidateSetup.validate_openai_connection lower R getenv w = (Ok r, w')
    /\ site_pages w' = site_pages w
    /\ trace w' = trace w ++ requests
    /\ Forall (fun ev => Ingest.setup_request ev = true) requests.
Proof.
  unfold ValidateSetup.validate_openai_connection.
  destruct (ValidateSetup.unset _).
  { unfold try_except, ret. setup_done. }
  unfold ValidateSetup.construct. eff.
  destruct (client_fault R (trace w)) as [e|]; cbv beta iota.
  { handler_cases. }
  destruct (models_list_fault R _) as [e|]; cbv beta iota.
  { handler_cases. }
  setup_done.
Qed.

(** The setup of the script never raises, leaves the table as it is and
    issues only requests of the setup; with an invalid environment it
    issues none. *)
Lemma setup_checks_effects (w : world) :
  exists (passed : bool) (w1 : world) (requests : list event),
    Ingest.setup_checks lower R getenv w = (Ok passed, w1)
    /\ site_pages w1 = site_pages w
    /\ trace w1 = trace w ++ requests
    /\ Forall (fun ev => Ingest.setup_request ev = true) requests
    /\ (fst (ValidateSetup.validate_env_vars getenv) = false ->
        passed = false /\ w1 = w).
Proof.
  unfold Ingest.setup_checks.
  destruct (ValidateSetup.validate_env_vars getenv) as [env_valid env_errors].
  cbn [fst]. destruct env_valid; cbn [negb].
  2:{ exists false, w, []. unfold ret. rewrite app_nil_r. repeat split. constructor. }
  assert (forall (passed : bool) (w1 : world) (requests : list event),
             site_pages w1 = site_pages w ->
             trace w1 = trace w ++ requests ->
             Forall (fun ev => Ingest.setup_request ev = true) requests ->
             exists (passed' : bool) (w1' : world) (requests' : list event),
               (Ok passed, w1) = (Ok passed', w1')
               /\ site_pages w1' = site_pages w
               /\ trace w1' = trace w ++ requests'
               /\ Forall (fun ev => Ingest.setup_request ev = true) requests'
               /\ (true = false -> passed' = false /\ w1' = w)) as Hdone.
  { intros passed w1 requests Hs Ht Hf. exists passed, w1, requests.
    repeat split; try assumption; discriminate. }
  unfold bind at 1, try_except at 1.
  unfold bind at 1, ValidateSetup.construct at 1, request at 1.
  destruct (client_fault R (trace w)) as [e|]; cbv beta iota.
  { unfold ret, bind. cbn [negb]. eapply Hdone; cbn [site_pages trace];
      [reflexivity | reflexivity | repeat constructor]. }
  unfold bind at 1, ValidateSetup.create_client at 1,
    ValidateSetup.construct at 1, request at 1.
  cbn [trace site_pages].
  destruct (client_fault R _) as [e|]; cbv beta iota.
  { unfold ret, bind. cbn [negb]. eapply Hdone; cbn [site_pages trace];
      [reflexivity | rewrite <- app_assoc; reflexivity
      | cbn [app]; repeat constructor]. }
  unfold ret at 1. unfold bind at 1. cbn [negb]. unfold bind at 1.
  match goal with
  | |- context [ValidateSetup.validate_supabase_connection lower R getenv ?w0] =>
      destruct (validate_supabase_connection_effects w0)
        as [[sv sm] [w2 [req2 [-> [Hs2 [Ht2 Hf2]]]]]]
  end.
  cbn [site_pages trace] in Hs2, Ht2. cbn [fst].
  destruct sv; cbn [negb].
  2:{ unfold ret. eapply Hdone; [exact Hs2 | rewrite Ht2, <- !app_assoc; reflexivity|].
      cbn [app]. repeat constructor. exact Hf2. }
  destruct (validate_openai_connection_effects w2)
    as [[ov om] [w3 [req3 [-> [Hs3 [Ht3 Hf3]]]]]].
  cbn [fst].
  assert (Forall (fun ev => Ingest.setup_request ev = true)
                 ([AsyncOpenAI (getenv "OPENAI_API_KEY"%string)]
                  ++ [CreateClient (getenv "SUPABASE_URL"%string)
                                   (getenv "SUPABASE_SERVICE_KEY"%string)]
                  ++ req2 ++ req3)) as Hall.
  { cbn [app]. repeat constructor. apply Forall_app. now split. }
  destruct ov; cbn [negb]; unfold ret;
    (eapply Hdone;
     [ now rewrite Hs3, Hs2
     | rewrite Ht3, Ht2, <- !app_assoc; reflexivity
     | exact Hall ]).
Qed.

(** The setup passes exactly when the environment is valid, the two
    clients can be constructed and the two checks of the connections
    accept, in that order. *)
Lemma setup_checks_passed (w : world) :
  let w_a := {| site_pages := site_pages w;
                trace := trace w ++ [AsyncOpenAI (getenv "OPENAI_API_KEY"%string)] |} in
  let w_b := {| site_pages := site_pages w;
                trace := trace w_a
                           ++ [CreateClient (getenv "SUPABASE_URL"%string)
                                            (getenv "SUPABASE_SERVICE_KEY"%string)] |} in
  let supabase_checked := ValidateSetup.validate_supabase_connection lower R getenv w_b in
  let openai_checked :=
    ValidateSetup.validate_openai_connection lower R getenv (snd supabase_checked) in
  fst (Ingest.setup_checks lower R getenv w) = Ok true
  <-> fst (ValidateSetup.validate_env_vars getenv) = true
      /\ client_fault R (trace w) = None
      /\ client_fault R (trace w_a) = None
      /\ (exists m, fst supabase_checked = Ok (true, m))
      /\ (exists m, fst openai_checked = Ok (true, m)).
Proof.
  intros w_a w_b supabase_checked openai_checked.
  unfold Ingest.setup_checks.
  destruct (ValidateSetup.validate_env_vars getenv) as [env_valid env_errors].
  cbn [fst]. destruct env_valid; cbn [negb].
  2:{ unfold ret. cbn [fst]. split; [discriminate | intros [H _]; discriminate H]. }
  unfold bind at 1, try_except at 1.
  unfold bind at 1, ValidateSetup.construct at 1, request at 1.
  destruct (client_fault R (trace w)) as [e|] eqn:Ha; cbv beta iota.
  { unfold ret, bind. cbn [negb fst].
    split; [discriminate | intros [_ [H _]]; discriminate H]. }
  unfold bind at 1, ValidateSetup.create_client at 1,
    ValidateSetup.construct at 1, request at 1.
  cbn [trace site_pages]. fold w_a.
  change (trace w ++ [AsyncOpenAI (getenv "OPENAI_API_KEY"%string)]) with (trace w_a).
  destruct (client_fault R (trace w_a)) as [e|] eqn:Hb; cbv beta iota.
  { unfold ret, bind. cbn [negb fst].
    split; [discriminate | intros [_ [_ [H _]]]; discriminate H]. }
  unfold ret at 1. unfold bind at 1. cbn [negb]. unfold bind at 1.
  fold w_b. fold supabase_checked.
  destruct (validate_supabase_connection_effects w_b)
    as [[sv sm] [w2 [req2 [Hsup _]]]].
  fold supabase_checked in Hsup.
  unfold openai_checked. rewrite Hsup. cbn [fst snd].
  destruct sv; cbn [negb].
  2:{ unfold ret. cbn [fst]. split; [discriminate|].
      intros [_ [_ [_ [[m H] _]]]]. discriminate H. }
  destruct (validate_openai_connection_effects w2)
    as [[ov om] [w3 [req3 [-> _]]]].
  cbn [fst]. destruct ov; cbn [negb]; unfold ret; cbn [fst].
  - split; [|reflexivity]. intros _. repeat split; eauto.
  - split; [discriminate|]. intros [_ [_ [_ [_ [m H]]]]]. discriminate H.
Qed.
End SetupChecks.

(** X8. The exit status of the ingestion script is 0 exactly when the
    setup passes: the environment is valid, the two clients can be
    constructed, and the check of the Supabase connection, then the check
    of the OpenAI connection, accept; it is 1 otherwise. When it is 1 the
    script has stopped where the setup left it: the table is untouched and
    the only requests issued are constructions of clients and probes of the
    two services, none at all when the environment is invalid; no file is
    read, nothing is embedded or stored. Once the setup has passed the
    status is 0 whatever happens to the files. *)
Theorem script_exit_status_by_setup
        (cfg : config) (lower : str -> str) (R : remote)
        (extract_title : str -> str -> str) (getenv : string -> option str)
        (data_dir : option (list str)) (w : world) :
  let w_a := {| site_pages := site_pages w;
                trace := trace w ++ [AsyncOpenAI (getenv "OPENAI_API_KEY"%string)] |} in
  let w_b := {| site_pages := site_pages w;
                trace := trace w_a
                           ++ [CreateClient (getenv "SUPABASE_URL"%string)
                                            (getenv "SUPABASE_SERVICE_KEY"%string)] |} in
  let supabase_checked :=
    ValidateSetup.validate_supabase_connection lower R getenv w_b in
  let openai_checked :=
    ValidateSetup.validate_openai_connection lower R getenv (snd supabase_checked) in
  let run := Ingest.script cfg lower R extract_title getenv data_dir w in
  (fst run = 0 \/ fst run = 1)
  /\ (fst run = 0
      <-> fst (ValidateSetup.validate_env_vars getenv) = true
          /\ client_fault R (trace w) = None
          /\ client_fault R (trace w_a) = None
          /\ (exists m, fst supabase_checked = Ok (true, m))
          /\ (exists m, fst openai_checked = Ok (true, m)))
  /\ (fst run = 1 ->
      site_pages (snd run) = site_pages w
      /\ exists requests : list event,
          trace (snd run) = trace w ++ requests
          /\ Forall (fun ev => Ingest.setup_request ev = true) requests)
  /\ (fst (ValidateSetup.validate_env_vars getenv) = false -> run = (1, w)).
Proof.
  intros w_a w_b supabase_checked openai_checked run.
  pose proof (setup_checks_passed lower R getenv w) as Hpassed.
  cbv zeta in Hpassed.
  fold w_a in Hpassed. fold w_b in Hpassed. fold supabase_checked in Hpassed.
  fold openai_checked in Hpassed.
  destruct (setup_checks_effects lower R getenv w)
    as [passed [w1 [requests [Hsetup [Hs [Ht [Hf Henv]]]]]]].
  rewrite Hsetup in Hpassed. cbn [fst] in Hpassed.
  unfold run, Ingest.script. rewrite Hsetup. destruct passed.
  - destruct (main_total cfg lower R
                {| Ingest.openai_client := true; Ingest.supabase := true |}
                extract_title data_dir w1) as [w' ->].
    cbn [fst snd]. split; [now left|]. split.
    + split; [intros _; now apply Hpassed | reflexivity].
    + split; [discriminate|]. intros Hinvalid.
      destruct (Henv Hinvalid) as [H _]. discriminate H.
  - cbn [fst snd]. split; [now right|]. split.
    + split; [discriminate|]. intros H. apply Hpassed in H. discriminate H.
    + split.
      * intros _. split; [exact Hs|]. exists requests. now split.
      * intros Hinvalid. destruct (Henv Hinvalid) as [_ ->]. reflexivity.
Qed.

(** The table does not exist: the setup stops at the first probe, after
    four requests; the OpenAI service is not asked and no file is read. *)
Lemma script_exit_status_by_setup_witness :
  let run := Ingest.script Scenario.cfg ascii_lower Scenario.table_missing
               Scenario.filename_as_title Scenario.complete_env
               (Some [lit "a.md"]) Scenario.empty_world in
  fst run = 1
  /\ site_pages (snd run) = []
  /\ trace (snd run)
     = [AsyncOpenAI (Some (lit "sk-proj-1"));
        CreateClient (Some (lit "https://x.supabase.co")) (Some (lit "eyJhbGciOi"));
        CreateClient (Some (lit "https://x.supabase.co")) (Some (lit "eyJhbGciOi"));
        SelectLimit (lit "id") 1].
Proof.
  intros run.
  assert (fst run = 1) as Hexit by (vm_compute; reflexivity).
  split; [exact Hexit|].
  destruct (script_exit_status_by_setup Scenario.cfg ascii_lower
              Scenario.table_missing Scenario.filename_as_title
              Scenario.complete_env (Some [lit "a.md"]) Scenario.empty_world)
    as [_ [_ [Hstopped _]]].
  split; [exact (proj1 (Hstopped Hexit))|].
  vm_compute. reflexivity.
Defined.

(* ===================================================================== *)
(** * Further properties of app.py *)
(* ===================================================================== *)

Lemma firstn_incl {A} (n : nat) (l : list A) : incl (firstn n l) l.
Proof.
  intros x Hx. rewrite <- (firstn_skipn n l). apply in_or_app. now left.
Qed.

Lemma slice_to_incl {A} (l : list A) (n : Z) : incl (slice_to l n) l.
Proof.
  unfold slice_to. destruct (n <? 0); apply firstn_incl.
Qed.

Lemma slice_to_negative {A} (s : list A) (n : Z) :
  n < 0 -> len (slice_to s n) <= Z.max 0 (len s + n).
Proof.
  intros Hn. unfold slice_to.
  destruct (Z.ltb_spec n 0); [|lia].
  rewrite len_firstn. lia.
Qed.

(** The number of documents kept, for any [max_results]: a negative one
    makes the slice drop that many documents from the end. *)
Lemma select_documents_length (data : list doc) (max_results : Z) (thr : float) :
  len (App.select_documents data max_results thr) <= len data
  /\ (0 <= max_results ->
      len (App.select_documents data max_results thr) <= Z.max max_results 2)
  /\ (max_results < 0 ->
      len (App.select_documents data max_results thr)
      <= Z.max 2 (len data + max_results)).
Proof.
  unfold App.select_documents.
  assert (len (filter (fun d => PrimFloat.leb thr (App.similarity d)) data)
          <= len data) as Hfilter.
  { unfold len. apply inj_le. apply filter_length_le. }
  destruct (truthy data); cbn [negb andb].
  - destruct (truthy (filter _ data)); cbn [negb andb].
    + pose proof (slice_to_shorter
                    (filter (fun d => PrimFloat.leb thr (App.similarity d)) data)
                    max_results) as Hshort.
      split; [lia|]. split.
      * intros Hmr.
        pose proof (slice_to_bound
                      (filter (fun d => PrimFloat.leb thr (App.similarity d)) data)
                      max_results Hmr). lia.
      * intros Hmr.
        pose proof (slice_to_negative
                      (filter (fun d => PrimFloat.leb thr (App.similarity d)) data)
                      max_results Hmr). lia.
    + pose proof (slice_to_bound data 2 ltac:(lia)).
      pose proof (slice_to_shorter data 2). repeat split; lia.
  - pose proof (len_nonneg data). change (len (@nil doc)) with 0.
    repeat split; lia.
Qed.

(** X9. Whatever the store and the embedding service answer, the retrieval
    returns what [select_documents] keeps of the candidates of the store
    (of no candidate when the call of the store fails): never more
    documents than candidates; at most [max_results] of them, or at most
    two when [max_results] is below two (the fallback), when [max_results]
    is not negative; and with a negative [max_results] the slice
    [filtered[:max_results]] only drops that many documents from the end,
    so that up to [len(candidates) + max_results] come back. *)
Theorem retrieve_result_bound
        (cfg : config) (lower : str -> str) (R : remote) (query : str)
        (max_results : option Z) (similarity_threshold : option float)
        (w : world) :
  let mr := match max_results with Some n => n | None => 5 end in
  let th := match similarity_threshold with Some x => x | None => 0.3%float end in
  exists (candidates : list doc) (v : list float) (tr : list event),
    fst (App.retrieve_relevant_documents cfg lower R query max_results
                                         similarity_threshold w)
    = Ok (App.select_documents candidates mr th)
    /\ (match_documents R tr (site_pages w) v (mr * 2) th = Ok candidates
        \/ (candidates = []
            /\ exists e, match_documents R tr (site_pages w) v (mr * 2) th = Raise e))
    /\ len (App.select_documents candidates mr th) <= len candidates
    /\ (0 <= mr -> len (App.select_documents candidates mr th) <= Z.max mr 2)
    /\ (mr < 0 ->
        len (App.select_documents candidates mr th) <= Z.max 2 (len candidates + mr)).
Proof.
  intros mr th.
  destruct (query_embedding_total cfg lower R query w) as [v [w1 [Hv Hs1]]].
  rewrite (retrieve_unfold cfg lower R query max_results similarity_threshold
                           w w1 v Hv).
  fold mr. fold th. rewrite Hs1.
  destruct (match_documents R (trace w1) (site_pages w) v (mr * 2) th)
    as [data|e] eqn:Hm.
  - exists data, v, (trace w1). split; [reflexivity|]. split; [now left|].
    apply select_documents_length.
  - exists [], v, (trace w1). split; [reflexivity|].
    split; [right; split; [reflexivity | eauto]|].
    apply select_documents_length.
Qed.

(** With the default limit of five and ten candidates above the threshold,
    five come back; with a limit of minus one and five such candidates,
    four come back. *)
Lemma retrieve_result_bound_witness :
  fst (App.retrieve_relevant_documents Scenario.cfg ascii_lower
         (Scenario.many_candidates 10) (lit "refund policy") None None
         Scenario.empty_world)
  = Ok (repeat (Scenario.candidate 0.9) 5)
  /\ fst (App.retrieve_relevant_documents Scenario.cfg ascii_lower
            (Scenario.many_candidates 5) (lit "refund policy") (Some (-1)) None
            Scenario.empty_world)
     = Ok (repeat (Scenario.candidate 0.9) 4).
Proof.
  split.
  - destruct (retrieve_result_bound Scenario.cfg ascii_lower
                (Scenario.many_candidates 10) (lit "refund policy") None None
                Scenario.empty_world)
      as [candidates [v [tr [E [[Hstore | [_ [e Hstore]]] _]]]]];
      [|discriminate Hstore].
    injection Hstore as <-. rewrite E. vm_compute. reflexivity.
  - destruct (retrieve_result_bound Scenario.cfg ascii_lower
                (Scenario.many_candidates 5) (lit "refund policy") (Some (-1)) None
                Scenario.empty_world)
      as [candidates [v [tr [E [[Hstore | [_ [e Hstore]]] _]]]]];
      [|discriminate Hstore].
    injection Hstore as <-. rewrite E. vm_compute. reflexivity.
Defined.

(** X10. What the retrieval keeps of the candidates of the store: every
    document returned is one of the candidates; and either every document
    returned reaches the threshold, or none of the candidates did (the
    fallback). *)
Theorem select_documents_sound (data : list doc) (max_results : Z) (thr : float) :
  incl (App.select_documents data max_results thr) data
  /\ (Forall (fun d => PrimFloat.leb thr (App.similarity d) = true)
             (App.select_documents data max_results thr)
      \/ Forall (fun d => PrimFloat.leb thr (App.similarity d) = false) data).
Proof.
  unfold App.select_documents.
  destruct data as [|d data]; cbn [truthy negb andb].
  - split; [apply incl_refl | left; constructor].
  - destruct (filter (fun d0 => PrimFloat.leb thr (App.similarity d0)) (d :: data))
      as [|x filtered] eqn:Hf; cbn [truthy negb andb].
    + split; [apply slice_to_incl|]. right.
      apply Forall_forall. intros y Hy.
      destruct (PrimFloat.leb thr (App.similarity y)) eqn:Hm; [|reflexivity].
      assert (In y (filter (fun d0 => PrimFloat.leb thr (App.similarity d0))
                           (d :: data))) as Hin
          by (apply filter_In; now split).
      rewrite Hf in Hin. contradiction.
    + split.
      * intros y Hy. apply slice_to_incl in Hy. rewrite <- Hf in Hy.
        now apply filter_In in Hy as [Hy _].
      * left. apply Forall_forall. intros y Hy.
        apply slice_to_incl in Hy. rewrite <- Hf in Hy.
        now apply filter_In in Hy as [_ Hy].
Qed.

(** The call of the store with its handler: one request, with twice
    [max_results] as [match_count]; possibly a diagnostic; never a write. *)
Lemma call_match_documents_effects
      (lower : str -> str) (R : remote) (v : list float) (max_results : Z)
      (thr : float) (w : world) :
  exists (r : option (list doc)) (w' : world) (after : list event),
    App.call_match_documents lower R v max_results thr w = (Ok r, w')
    /\ site_pages w' = site_pages w
    /\ trace w' = trace w ++ RpcMatchDocuments v (max_results * 2) thr :: after.
Proof.
  unfold App.call_match_documents. eff.
  destruct (match_documents R (trace w) (site_pages w) v (max_results * 2) thr)
    as [data|e].
  - exists (Some data). eexists. exists []. repeat split.
  - destruct (contains (lit "function") (lower (str_of_exn e))
              && contains (lit "does not exist") (lower (str_of_exn e))).
    { exists None. do 2 eexists. split; [reflexivity|]. cbn [site_pages trace].
      split; [reflexivity|]. rewrite <- app_assoc. reflexivity. }
    destruct (contains (lit "vector") (lower (str_of_exn e))
              && contains (lit "does not exist") (lower (str_of_exn e)));
      exists None; do 2 eexists; (split; [reflexivity|]); cbn [site_pages trace];
      (split; [reflexivity|]); rewrite <- app_assoc; reflexivity.
Qed.

(** X11. The retrieval never writes to the table, and it asks the store
    exactly as the code says: with the vector that [get_embedding] returned
    for the query, twice [max_results] as the number of matches, and the
    threshold. *)
Theorem retrieve_requests
        (cfg : config) (lower : str -> str) (R : remote) (query : str)
        (max_results : option Z) (similarity_threshold : option float) (w : world) :
  let mr := match max_results with Some n => n | None => 5 end in
  let th := match similarity_threshold with Some x => x | None => 0.3%float end in
  exists (docs : list doc) (w' : world) (v : list float) (before after : list event),
    App.retrieve_relevant_documents cfg lower R query max_results similarity_threshold w
    = (Ok docs, w')
    /\ site_pages w' = site_pages w
    /\ fst (App.get_embedding cfg lower R query w) = Ok v
    /\ trace w' = before ++ RpcMatchDocuments v (mr * 2) th :: after.
Proof.
  intros mr th. unfold App.retrieve_relevant_documents. fold mr. fold th.
  unfold try_except at 1, bind at 1.
  destruct (query_embedding_total cfg lower R query w) as [v [w1 [Hv Hs1]]].
  rewrite Hv. unfold bind at 1.
  destruct (call_match_documents_effects lower R v mr th w1)
    as [r [w2 [after [-> [Hs2 Ht2]]]]].
  destruct r as [data|]; unfold ret;
    do 2 eexists; exists v, (trace w1), after;
    (split; [reflexivity|]); (split; [now rewrite Hs2|]); now split.
Qed.

(** X12. With at least one context document and relevance percentages that
    can be computed, [generate_response] never raises: it issues one
    completion request, with the context in the system prompt and the query
    as the user message, and returns the text of the model, or, when the
    request fails, one of five error texts. *)
Theorem generate_response_always_answers
        (cfg : config) (lower : str -> str) (R : remote) (query : str)
        (d : doc) (rest : list doc)
        (parts : list str) (w : world) :
  App.context_parts 1 (d :: rest) = Ok parts ->
  let system := App.system_prompt (join [NL; NL] parts) in
  exists answer : str,
    App.generate_response cfg lower R query (d :: rest) w
    = (Ok answer,
       {| site_pages := site_pages w;
          trace := trace w ++ [ChatCompletionsCreate (LLM_MODEL cfg) system query
                                 (LLM_TEMPERATURE cfg) (LLM_MAX_TOKENS cfg)] |})
    /\ (forall text,
          chat_completions_create R (trace w) (LLM_MODEL cfg) system query
            (LLM_TEMPERATURE cfg) (LLM_MAX_TOKENS cfg) = Ok text ->
          answer = text)
    /\ (forall e,
          chat_completions_create R (trace w) (LLM_MODEL cfg) system query
            (LLM_TEMPERATURE cfg) (LLM_MAX_TOKENS cfg) = Raise e ->
          answer = lit "❌ **Error:** Invalid OpenAI API key. Get a new key from https://platform.openai.com/api-keys"
          \/ answer = lit "❌ **Error:** OpenAI account has insufficient quota. Add a payment method at https://platform.openai.com/account/billing"
          \/ answer = lit "⚠️ **Error:** OpenAI rate limit exceeded. Wait a few minutes and try again."
          \/ answer = lit "❌ **Error:** Model '" ++ LLM_MODEL cfg
                      ++ lit "' not found. Check config.py for valid models."
          \/ answer = lit "❌ **Error generating response:** " ++ str_of_exn e).
Proof.
  intros Hparts system.
  unfold App.generate_response. cbn [truthy negb]. rewrite Hparts.
  fold system. eff.
  destruct (chat_completions_create R (trace w) (LLM_MODEL cfg) system query
              (LLM_TEMPERATURE cfg) (LLM_MAX_TOKENS cfg)) as [text|e].
  - exists text. split; [reflexivity|]. split.
    + intros text' H. now injection H.
    + intros e H. discriminate H.
  - destruct (contains (lit "invalid_api_key") (lower (str_of_exn e))).
    { eexists. split; [reflexivity|]. split; [intros t H; discriminate H|].
      intros e' H. left. reflexivity. }
    destruct (contains (lit "insufficient_quota") (lower (str_of_exn e))
              || contains (lit "billing") (lower (str_of_exn e))).
    { eexists. split; [reflexivity|]. split; [intros t H; discriminate H|].
      intros e' H. right. left. reflexivity. }
    destruct (contains (lit "rate_limit") (lower (str_of_exn e))).
    { eexists. split; [reflexivity|]. split; [intros t H; discriminate H|].
      intros e' H. right. right. left. reflexivity. }
    destruct (contains (lit "model") (lower (str_of_exn e))
              && contains (lit "not found") (lower (str_of_exn e))).
    { eexists. split; [reflexivity|]. split; [intros t H; discriminate H|].
      intros e' H. right. right. right. left. reflexivity. }
    eexists. split; [reflexivity|]. split; [intros t H; discriminate H|].
    intros e' H. right. right. right. right. injection H as ->. reflexivity.
Qed.

(** One candidate of similarity 0.29, shown to the model as 28%: the answer
    is the text of the model; and when the completion service times out, the
    answer is the generic error text. *)
Lemma generate_response_always_answers_witness :
  let parts := [lines ["Document 1 (Relevance: 28%):"; "Title: Untitled";
                       "Summary: No summary"; "Content: "; "---"]%string] in
  App.context_parts 1 [Scenario.candidate 0.29] = Ok parts
  /\ fst (App.generate_response Scenario.cfg ascii_lower Scenario.healthy (lit "refund policy")
                                [Scenario.candidate 0.29] Scenario.empty_world)
     = Ok (lit " A note. ")
  /\ fst (App.generate_response Scenario.cfg ascii_lower Scenario.completion_down
                                (lit "refund policy")
                                [Scenario.candidate 0.29] Scenario.empty_world)
     = Ok (lit "❌ **Error generating response:** Request timed out.").
Proof.
  intros parts.
  assert (App.context_parts 1 [Scenario.candidate 0.29] = Ok parts) as Hparts
      by (vm_compute; reflexivity).
  split; [exact Hparts|]. split.
  - destruct (generate_response_always_answers Scenario.cfg ascii_lower Scenario.healthy
                (lit "refund policy") (Scenario.candidate 0.29) [] parts
                Scenario.empty_world Hparts) as [answer [E [Hok _]]].
    rewrite E. cbn [fst]. f_equal. apply Hok. reflexivity.
  - vm_compute. reflexivity.
Defined.

Lemma int_of_float_nan :
  App.int_of_float (PrimFloat.nan * 100)%float
  = Raise (ValueError (lit "cannot convert float NaN to integer")).
Proof. vm_compute. reflexivity. Qed.

Lemma context_parts_nan (before : list doc) (d : doc) (after : list doc) :
  d_similarity d = Some PrimFloat.nan ->
  forall i : Z, exists e : exn,
    App.context_parts i (before ++ d :: after) = Raise e.
Proof.
  intros Hnan. induction before as [|b before IH]; intros i;
    cbn [app App.context_parts].
  - unfold App.context_part at 1, App.similarity at 1. rewrite Hnan.
    rewrite int_of_float_nan. eauto.
  - destruct (App.context_part i b) as [part|e]; [|eauto].
    destruct (IH (i + 1)) as [e ->]. eauto.
Qed.

Lemma context_parts_first_nan (before : list doc) (d : doc) (after : list doc) :
  d_similarity d = Some PrimFloat.nan ->
  forall (i : Z) (parts : list str),
    App.context_parts i before = Ok parts ->
    App.context_parts i (before ++ d :: after)
    = Raise (ValueError (lit "cannot convert float NaN to integer")).
Proof.
  intros Hnan. induction before as [|b before IH]; intros i parts;
    cbn [app App.context_parts].
  - intros _. unfold App.context_part at 1, App.similarity at 1. rewrite Hnan.
    rewrite int_of_float_nan. reflexivity.
  - destruct (App.context_part i b) as [part|e]; [|discriminate].
    destruct (App.context_parts (i + 1) before) as [rest|e] eqn:E; [|discriminate].
    intros _. now rewrite (IH (i + 1) rest E).
Qed.

(** X13. The relevance percentage is computed outside any handler: when
    one of the context documents has a NaN as similarity,
    [generate_response] raises and no completion is requested; the
    exception is the [ValueError] of [int] when the percentages of the
    documents before it can be computed. *)
Theorem generate_response_raises_on_nan
        (cfg : config) (lower : str -> str) (R : remote) (query : str)
        (before : list doc) (d : doc) (after : list doc) (w : world) :
  d_similarity d = Some PrimFloat.nan ->
  (exists e : exn,
      App.generate_response cfg lower R query (before ++ d :: after) w
      = (Raise e, w))
  /\ (forall parts : list str,
        App.context_parts 1 before = Ok parts ->
        App.generate_response cfg lower R query (before ++ d :: after) w
        = (Raise (ValueError (lit "cannot convert float NaN to integer")), w)).
Proof.
  intros Hnan. unfold App.generate_response. split.
  - destruct (context_parts_nan before d after Hnan 1) as [e He].
    rewrite He. exists e.
    destruct before; reflexivity.
  - intros parts Hparts.
    rewrite (context_parts_first_nan before d after Hnan 1 parts Hparts).
    destruct before; reflexivity.
Qed.

(** A candidate whose similarity is a NaN, after a sound one. *)
Lemma generate_response_raises_on_nan_witness :
  App.generate_response Scenario.cfg ascii_lower Scenario.healthy
    (lit "refund policy")
    ([Scenario.candidate 0.5] ++ Scenario.candidate PrimFloat.nan :: [])
    Scenario.empty_world
  = (Raise (ValueError (lit "cannot convert float NaN to integer")),
     Scenario.empty_world).
Proof.
  apply (proj2 (generate_response_raises_on_nan Scenario.cfg ascii_lower
                  Scenario.healthy (lit "refund policy") [Scenario.candidate 0.5]
                  (Scenario.candidate PrimFloat.nan) [] Scenario.empty_world
                  eq_refl)
               [lines ["Document 1 (Relevance: 50%):"; "Title: Untitled";
                       "Summary: No summary"; "Content: "; "---"]%string]).
  vm_compute. reflexivity.
Defined.

(* ===================================================================== *)
(** * Further properties of the summarizer and the chunker *)
(* ===================================================================== *)

Lemma len_app {A} (a b : list A) : len (a ++ b) = len a + len b.
Proof. unfold len. rewrite length_app. lia. Qed.

(** X14. The text sent for a summary is bounded: the chunk is cut to
    [SUMMARY_PREVIEW_LENGTH] characters and marked with three dots when it
    is longer, and sent whole otherwise, after the nine characters of the
    prefix. *)
Theorem summary_message_bounded (cfg : config) (text : str) :
  0 <= SUMMARY_PREVIEW_LENGTH cfg ->
  len (Ingest.summary_user_message cfg text) <= SUMMARY_PREVIEW_LENGTH cfg + 12
  /\ (len text <= SUMMARY_PREVIEW_LENGTH cfg ->
      Ingest.summary_user_message cfg text = lit "Content:" ++ [NL] ++ text)
  /\ (SUMMARY_PREVIEW_LENGTH cfg < len text ->
      Ingest.summary_user_message cfg text
      = lit "Content:" ++ [NL]
        ++ firstn (Z.to_nat (SUMMARY_PREVIEW_LENGTH cfg)) text ++ lit "...").
Proof.
  intros Hn. unfold Ingest.summary_user_message.
  assert (len (lit "Content:") = 8) as Hc by reflexivity.
  assert (len (lit "...") = 3) as Hd by reflexivity.
  destruct (Z.gtb_spec (len text) (SUMMARY_PREVIEW_LENGTH cfg)) as [Hlong | Hshort].
  - split; [|split; [lia|]].
    + rewrite !len_app, Hc, Hd.
      pose proof (slice_to_bound text (SUMMARY_PREVIEW_LENGTH cfg) Hn).
      change (len [NL]) with 1. lia.
    + intros _. unfold slice_to.
      destruct (Z.ltb_spec (SUMMARY_PREVIEW_LENGTH cfg) 0); [lia | reflexivity].
  - split; [|split; [reflexivity | lia]].
    rewrite !len_app, Hc. change (len [NL]) with 1. lia.
Qed.

(** With the default of 1000 characters, a chunk of 5000 is sent as 1012. *)
Lemma summary_message_bounded_witness :
  len (Ingest.summary_user_message Scenario.cfg (repeat 97%N (Z.to_nat 5000)))
  <= 1000 + 12
  /\ len (Ingest.summary_user_message Scenario.cfg (repeat 97%N (Z.to_nat 5000)))
     = 1012.
Proof.
  split.
  - apply (summary_message_bounded Scenario.cfg (repeat 97%N (Z.to_nat 5000))).
    vm_compute. discriminate.
  - vm_compute. reflexivity.
Defined.

Lemma split_nlnl_step (c d : char) (s : str) (cur : str) :
  split_nlnl (c :: d :: s) cur
  = if ((c =? NL) && (d =? NL))%N then rev cur :: split_nlnl s []
    else split_nlnl (d :: s) (c :: cur).
Proof. reflexivity. Qed.

(** [split] always yields at least one piece. *)
Lemma split_nlnl_nonempty (s : str) : forall cur : str, split_nlnl s cur <> [].
Proof.
  assert (forall (n : nat) (s cur : str),
             (List.length s <= n)%nat -> split_nlnl s cur <> []) as H.
  { induction n as [|n IH]; intros [|c [|d s']] cur Hlen;
      try (cbn [split_nlnl]; discriminate);
      cbn [List.length] in Hlen; try lia.
    rewrite split_nlnl_step.
    destruct ((c =? NL) && (d =? NL))%N; [discriminate|].
    apply IH. cbn [List.length]. lia. }
  intros cur. apply (H (List.length s)). lia.
Qed.

(** One turn of the loop over the paragraphs completes at most one chunk,
    the chunk in progress included. *)
Lemma pack_step_count (max_size : Z) (chunks : list str) (current p : str) :
  (List.length (fst (Ingest.pack_step max_size (chunks, current) p))
   + (if truthy (snd (Ingest.pack_step max_size (chunks, current) p)) then 1 else 0)
   <= List.length chunks + (if truthy current then 1 else 0) + 1)%nat.
Proof.
  unfold Ingest.pack_step.
  destruct (len current + len p + 2 >? max_size);
    destruct (truthy current) eqn:Hc; cbn [fst snd];
    rewrite ?length_app; cbn [List.length];
    match goal with
    | |- context [if truthy ?x then _ else _] => destruct (truthy x)
    end; lia.
Qed.

Lemma pack_fold_count (max_size : Z) (paragraphs : list str) :
  forall (chunks : list str) (current : str),
    (List.length (fst (fold_left (Ingest.pack_step max_size) paragraphs
                                 (chunks, current)))
     + (if truthy (snd (fold_left (Ingest.pack_step max_size) paragraphs
                                  (chunks, current))) then 1 else 0)
     <= List.length chunks + (if truthy current then 1 else 0)
        + List.length paragraphs)%nat.
Proof.
  induction paragraphs as [|p ps IH]; intros chunks current; cbn [fold_left].
  - cbn [fst snd List.length]. lia.
  - pose proof (pack_step_count max_size chunks current p) as Hstep.
    destruct (Ingest.pack_step max_size (chunks, current) p) as [chunks1 current1].
    cbn [fst snd] in Hstep. specialize (IH chunks1 current1).
    cbn [List.length]. lia.
Qed.

Lemma pack_count (max_size : Z) (paragraphs : list str) :
  (List.length (Ingest.pack max_size paragraphs) <= List.length paragraphs)%nat.
Proof.
  unfold Ingest.pack.
  destruct (fold_left (Ingest.pack_step max_size) paragraphs ([], []))
    as [chunks current] eqn:E.
  assert (List.length (fst (chunks, current))
          + (if truthy (snd (chunks, current)) then 1 else 0)
          <= List.length paragraphs)%nat as H.
  { rewrite <- E. exact (pack_fold_count max_size paragraphs [] []). }
  cbn [fst snd] in H.
  destruct (truthy current); [rewrite length_app; cbn [List.length]|]; lia.
Qed.

(** The second loop keeps the number of chunks. *)
Lemma truncate_all_length (max_size : Z) (chunks final_chunks : list str) :
  Ingest.truncate_all max_size chunks = Ok final_chunks ->
  List.length final_chunks = List.length chunks.
Proof.
  intros H. apply truncate_all_ok in H. symmetry.
  induction H; cbn [List.length]; congruence.
Qed.

(** X15. Whatever the limit, a list that [chunk_text] returns never holds
    more chunks than the text has paragraphs (the pieces between blank
    lines). [chunk_text] returns a list whenever the magnitude of the limit
    is below [2 ^ 1023]; it raises nothing but the [OverflowError] of the
    product of the limit by 0.8, and only for a limit beyond that range
    that the text exceeds. *)
Theorem chunk_text_at_most_one_chunk_per_paragraph
        (cfg : config) (text : str) (max_chunk_size : option Z) :
  let limit := match max_chunk_size with
               | Some n => n
               | None => MAX_CHUNK_SIZE cfg
               end in
  (forall chunks : list str,
      Ingest.chunk_text cfg text max_chunk_size = Ok chunks ->
      (List.length chunks <= List.length (split_nlnl text []))%nat)
  /\ (Z.abs limit < 2 ^ 1023 ->
      exists chunks : list str,
        Ingest.chunk_text cfg text max_chunk_size = Ok chunks)
  /\ (forall e : exn,
        Ingest.chunk_text cfg text max_chunk_size = Raise e ->
        e = OtherError (lit "int too large to convert to float")
        /\ 2 ^ 1023 <= Z.abs limit /\ limit < len text).
Proof.
  intros limit.
  assert (Ingest.chunk_text cfg text max_chunk_size
          = Ingest.chunk_text cfg text (Some limit)) as ->
      by (destruct max_chunk_size; reflexivity).
  split; [|split].
  - intros chunks Hc.
    pose proof (split_nlnl_nonempty text []) as Hne.
    assert (1 <= List.length (split_nlnl text []))%nat as Hone
        by (destruct (split_nlnl text []); [contradiction | cbn; lia]).
    destruct (chunk_text_cases cfg text limit)
      as [[_ E] | [[_ [out [Ht [_ E]]]] | [[_ [_ E]] | [_ [e [_ E]]]]]];
      rewrite E in Hc; try discriminate; injection Hc as <-;
      [exact Hone | | exact Hone].
    rewrite (truncate_all_length limit _ _ Ht). apply pack_count.
  - intros Hlimit. apply chunk_text_returns. left. now apply float_of_int_small.
  - intros e He. apply chunk_text_raises in He as [-> [Hnone Hlong]].
    split; [reflexivity|]. split; [|exact Hlong].
    destruct (Z.le_gt_cases (2 ^ 1023) (Z.abs limit)) as [|Hsmall]; [assumption|].
    exfalso. exact (float_of_int_small limit Hsmall Hnone).
Qed.










(* ===================================================================== *)
(** * Properties of validate_setup.py *)
(* ===================================================================== *)

Lemma check_at_most_one (var help_text : string) (value : option str) :
  (List.length (ValidateSetup.check var help_text value) <= 1)%nat.
Proof.
  unfold ValidateSetup.check.
  repeat match goal with
         | |- context [if ?b then _ else _] => destruct b
         end; cbn [List.length]; lia.
Qed.

Ltac check_var_cases value :=
  unfold ValidateSetup.check;
  destruct value as [[|c v]|]; cbn [truthy negb];
  [ split; [discriminate | intros [v' [Hv Hp]]; injection Hv as <-; discriminate Hp]
  | cbn [String.eqb Ascii.eqb Bool.eqb andb];
    match goal with
    | |- context [startswith ?p (c :: v)] =>
        destruct (startswith p (c :: v)) eqn:Hs; cbn [negb];
        [ split; [intros _; eexists; split; [reflexivity | exact Hs] | reflexivity]
        | split; [discriminate
                 | intros [v' [Hv Hp]]; injection Hv as <-; congruence] ]
    end
  | split; [discriminate | intros [v' [Hv _]]; discriminate Hv] ].

Lemma check_supabase_url (help_text : string) (value : option str) :
  ValidateSetup.check "SUPABASE_URL" help_text value = []
  <-> exists v, value = Some v /\ startswith (lit "https://") v = true.
Proof. check_var_cases value. Qed.

Lemma check_service_key (help_text : string) (value : option str) :
  ValidateSetup.check "SUPABASE_SERVICE_KEY" help_text value = []
  <-> exists v, value = Some v /\ startswith (lit "eyJ") v = true.
Proof. check_var_cases value. Qed.

Lemma check_openai_key (help_text : string) (value : option str) :
  ValidateSetup.check "OPENAI_API_KEY" help_text value = []
  <-> exists v, value = Some v /\ startswith (lit "sk-") v = true.
Proof. check_var_cases value. Qed.

(** X17. [validate_env_vars] accepts exactly when [SUPABASE_URL] is set
    and starts with "https://", [SUPABASE_SERVICE_KEY] is set and starts
    with "eyJ", and [OPENAI_API_KEY] is set and starts with "sk-" (an empty
    value counts as not set); it accepts exactly when it reports no error,
    and it reports at most one error per variable, three in all. *)
Theorem validate_env_vars_accepts (getenv : string -> option str) :
  (fst (ValidateSetup.validate_env_vars getenv) = true
   <-> ValidateSetup.set_with_prefix getenv "SUPABASE_URL" "https://"
       /\ ValidateSetup.set_with_prefix getenv "SUPABASE_SERVICE_KEY" "eyJ"
       /\ ValidateSetup.set_with_prefix getenv "OPENAI_API_KEY" "sk-")
  /\ (fst (ValidateSetup.validate_env_vars getenv) = true
      <-> snd (ValidateSetup.validate_env_vars getenv) = [])
  /\ (List.length (snd (ValidateSetup.validate_env_vars getenv)) <= 3)%nat
  /\ (forall (var help_text : string) (value : option str),
        (List.length (ValidateSetup.check var help_text value) <= 1)%nat).
Proof.
  unfold ValidateSetup.validate_env_vars, ValidateSetup.required_vars,
    ValidateSetup.set_with_prefix.
  cbn [flat_map fst snd]. rewrite app_nil_r.
  pose proof (check_supabase_url
                "Get this from Supabase Dashboard → Settings → API → Project URL"
                (getenv "SUPABASE_URL"%string)) as Hu.
  pose proof (check_service_key
                "Get this from Supabase Dashboard → Settings → API → Service Role Key (not anon key!)"
                (getenv "SUPABASE_SERVICE_KEY"%string)) as Hk.
  pose proof (check_openai_key
                "Get this from https://platform.openai.com/api-keys"
                (getenv "OPENAI_API_KEY"%string)) as Ho.
  pose proof (check_at_most_one "SUPABASE_URL"
                "Get this from Supabase Dashboard → Settings → API → Project URL"
                (getenv "SUPABASE_URL"%string)) as Lu.
  pose proof (check_at_most_one "SUPABASE_SERVICE_KEY"
                "Get this from Supabase Dashboard → Settings → API → Service Role Key (not anon key!)"
                (getenv "SUPABASE_SERVICE_KEY"%string)) as Lk.
  pose proof (check_at_most_one "OPENAI_API_KEY"
                "Get this from https://platform.openai.com/api-keys"
                (getenv "OPENAI_API_KEY"%string)) as Lo.
  set (eu := ValidateSetup.check "SUPABASE_URL" _ _) in *.
  set (ek := ValidateSetup.check "SUPABASE_SERVICE_KEY" _ _) in *.
  set (eo := ValidateSetup.check "OPENAI_API_KEY" _ _) in *.
  assert ((len (eu ++ ek ++ eo) =? 0) = true <-> eu ++ ek ++ eo = []) as Hzero.
  { unfold len. destruct (eu ++ ek ++ eo); cbn [List.length]; split;
      try reflexivity; discriminate. }
  split; [|split; [|split]].
  - rewrite Hzero. split.
    + intros E. apply app_eq_nil in E as [E1 E]. apply app_eq_nil in E as [E2 E3].
      split; [now apply Hu | split; [now apply Hk | now apply Ho]].
    + intros [H1 [H2 H3]].
      apply Hu in H1. apply Hk in H2. apply Ho in H3.
      now rewrite H1, H2, H3.
  - exact Hzero.
  - rewrite !length_app. lia.
  - exact check_at_most_one.
Qed.

(** A url without "https://" and no OpenAI key: two errors; a complete
    environment passes. *)
Lemma validate_env_vars_accepts_witness :
  let incomplete (var : string) :=
    if String.eqb var "SUPABASE_URL" then Some (lit "http://x.supabase.co")
    else if String.eqb var "SUPABASE_SERVICE_KEY" then Some (lit "eyJhbGciOi")
    else None in
  let complete (var : string) :=
    if String.eqb var "SUPABASE_URL" then Some (lit "https://x.supabase.co")
    else if String.eqb var "SUPABASE_SERVICE_KEY" then Some (lit "eyJhbGciOi")
    else Some (lit "sk-proj-1") in
  fst (ValidateSetup.validate_env_vars complete) = true
  /\ fst (ValidateSetup.validate_env_vars incomplete) = false
  /\ List.length (snd (ValidateSetup.validate_env_vars incomplete)) = 2%nat.
Proof.
  intros incomplete complete. split; [|split; vm_compute; reflexivity].
  apply (proj1 (validate_env_vars_accepts complete)).
  repeat split; eexists; (split; [reflexivity | reflexivity]).
Defined.

(** X18. [validate_supabase_connection] never raises. It accepts exactly
    when both credentials are set, the client can be constructed, the first
    probe of the table succeeds and the probe of the required columns does
    not fail with an error that mentions a missing column (any other failure
    of that probe is passed over). It returns an error message exactly when
    it rejects, and with a credential missing it constructs no client and
    sends no request. *)
Theorem validate_supabase_connection_accepts
        (lower : str -> str) (R : remote) (getenv : string -> option str)
        (w : world) :
  let url := getenv "SUPABASE_URL"%string in
  let key := getenv "SUPABASE_SERVICE_KEY"%string in
  let constructed := trace w ++ [CreateClient url key] in
  let probed := constructed ++ [SelectLimit (lit "id") 1] in
  exists (is_valid : bool) (error_message : option str) (w' : world),
    ValidateSetup.validate_supabase_connection lower R getenv w
    = (Ok (is_valid, error_message), w')
    /\ (is_valid = true
        <-> ValidateSetup.unset url = false
            /\ ValidateSetup.unset key = false
            /\ client_fault R (trace w) = None
            /\ table_fault R constructed = None
            /\ forall e : exn,
                table_fault R probed = Some e ->
                (contains (lit "column") (lower (str_of_exn e))
                 && contains (lit "does not exist") (lower (str_of_exn e))) = false)
    /\ (is_valid = true -> error_message = None)
    /\ (is_valid = false -> exists msg : str, error_message = Some msg)
    /\ (ValidateSetup.unset url = true \/ ValidateSetup.unset key = true -> w' = w).
Proof.
  intros url key constructed probed.
  unfold ValidateSetup.validate_supabase_connection. fold url. fold key.
  destruct (ValidateSetup.unset url) eqn:Hu.
  { cbn [orb]. unfold try_except, ret. do 3 eexists. split; [reflexivity|].
    split; [split; [discriminate | intros [H _]; discriminate H]|].
    split; [discriminate|]. split; [eauto | reflexivity]. }
  destruct (ValidateSetup.unset key) eqn:Hk.
  { cbn [orb]. unfold try_except, ret. do 3 eexists. split; [reflexivity|].
    split; [split; [discriminate | intros [_ [H _]]; discriminate H]|].
    split; [discriminate|]. split; [eauto | reflexivity]. }
  cbn [orb].
  unfold ValidateSetup.create_client, ValidateSetup.construct,
    ValidateSetup.select_limit. eff. fold constructed.
  destruct (client_fault R (trace w)) as [e|] eqn:Hc; cbv beta iota.
  { repeat match goal with
           | |- context [if ?b then _ else _] => destruct b
           end;
      do 3 eexists; (split; [reflexivity|]);
      (split; [split; [discriminate | intros [_ [_ [H _]]]; discriminate H]|]);
      (split; [discriminate|]); (split; [eauto|]); intros [H | H]; discriminate H. }
  destruct (table_fault R constructed) as [e|] eqn:Ht; cbv beta iota.
  { repeat match goal with
           | |- context [if ?b then _ else _] => destruct b
           end;
      do 3 eexists; (split; [reflexivity|]);
      (split; [split; [discriminate | intros [_ [_ [_ [H _]]]]; discriminate H]|]);
      (split; [discriminate|]); (split; [eauto|]); intros [H | H]; discriminate H. }
  fold probed.
  destruct (table_fault R probed) as [e|] eqn:Hp; cbv beta iota.
  { destruct (contains (lit "column") (lower (str_of_exn e))
              && contains (lit "does not exist") (lower (str_of_exn e))) eqn:Hm.
    - do 3 eexists. split; [reflexivity|].
      split; [split; [discriminate|]|].
      + intros [_ [_ [_ [_ H]]]]. specialize (H e eq_refl). congruence.
      + split; [discriminate|]. split; [eauto|]. intros [H | H]; discriminate H.
    - do 3 eexists. split; [reflexivity|].
      split; [split; [intros _|reflexivity]|].
      + repeat split. intros e' He'. injection He' as <-. exact Hm.
      + split; [reflexivity|]. split; [discriminate|]. intros [H | H]; discriminate H. }
  do 3 eexists. split; [reflexivity|].
  split; [split; [intros _|reflexivity]|].
  - repeat split. intros e' He'. discriminate He'.
  - split; [reflexivity|]. split; [discriminate|]. intros [H | H]; discriminate H.
Qed.

(** X19. [validate_openai_connection] never raises and never touches the
    table. It accepts exactly when the key is set, the client can be
    constructed and the list of the models can be fetched; it returns an
    error message exactly when it rejects, and with no key it sends no
    request. *)
Theorem validate_openai_connection_accepts
        (lower : str -> str) (R : remote) (getenv : string -> option str)
        (w : world) :
  let key := getenv "OPENAI_API_KEY"%string in
  exists (is_valid : bool) (error_message : option str) (w' : world),
    ValidateSetup.validate_openai_connection lower R getenv w
    = (Ok (is_valid, error_message), w')
    /\ (is_valid = true
        <-> ValidateSetup.unset key = false
            /\ client_fault R (trace w) = None
            /\ models_list_fault R (trace w ++ [OpenAI key]) = None)
    /\ (is_valid = true -> error_message = None)
    /\ (is_valid = false -> exists msg : str, error_message = Some msg)
    /\ (ValidateSetup.unset key = true -> w' = w)
    /\ site_pages w' = site_pages w.
Proof.
  intros key.
  unfold ValidateSetup.validate_openai_connection. fold key.
  destruct (ValidateSetup.unset key) eqn:Hk.
  { unfold try_except, ret. do 3 eexists. split; [reflexivity|].
    split; [split; [discriminate | intros [H _]; discriminate H]|].
    split; [discriminate|]. split; [eauto|]. split; reflexivity. }
  unfold ValidateSetup.construct. eff.
  destruct (client_fault R (trace w)) as [e|] eqn:Hc; cbv beta iota.
  { repeat match goal with
           | |- context [if ?b then _ else _] => destruct b
           end;
      do 3 eexists; (split; [reflexivity|]);
      (split; [split; [discriminate | intros [_ [H _]]; discriminate H]|]);
      (split; [discriminate|]); (split; [eauto|]); (split; [discriminate | reflexivity]). }
  destruct (models_list_fault R _) as [e|] eqn:Hm; cbv beta iota.
  { repeat match goal with
           | |- context [if ?b then _ else _] => destruct b
           end;
      do 3 eexists; (split; [reflexivity|]);
      (split; [split; [discriminate | intros [_ [_ H]]; discriminate H]|]);
      (split; [discriminate|]); (split; [eauto|]); (split; [discriminate | reflexivity]). }
  do 3 eexists. split; [reflexivity|].
  split; [split; [intros _; repeat split | reflexivity]|].
  split; [reflexivity|]. split; [discriminate|]. split; [discriminate | reflexivity].
Qed.
